(** * essay_grader: a shallow embedding of [code/grader.py]

    The program is a Gradio front end around two streamed chat-completion
    calls (text extraction from photographed pages, then grading), followed
    by two text-file writes and a JSON history append.  This file embeds the
    functions of [grader.py] as Rocq definitions over an explicit world
    (file system, environment, model endpoint, clock, log, interpreter
    limits) and proves the properties of the pipeline that the
    specification states.

    Conventions.
    - A Python [str] is a list of Unicode code points ([pystr]); [len] is
      [length], slicing [s[:n]] is [take n s].
    - A file holds bytes; text-mode I/O goes through the UTF-8 codec.
    - A generator is a tree of yields and operations; [run] drives it to
      exhaustion and gives the values it yields, the way it ends (return or
      raise) and the world it leaves.

    Outside the model: directories and symbolic links (a path names a
    regular file or nothing), failures of the operating system other than
    a missing file, the translation of line ends on writing (as on POSIX),
    path names that the operating system refuses, the rotation of the log
    file, and the layout of the interface.

    The [OpenAI] constructor is modelled: it takes the key it is given or
    else [OPENAI_API_KEY] from the environment and raises [OpenAIError]
    when there is neither; the client it returns carries its settings into
    each request.  Whatever the endpoint answers, a refusal included,
    belongs to the world.  So do the two limits of the interpreter that
    [json.load] can meet: the recursion depth left to the decoder and the
    longest decimal integer that [int] converts. *)

From Stdlib Require Import String Ascii.
From stdpp Require Import base option list numbers gmap.

Local Open Scope N_scope.

(** ** Python strings *)

Module Str.

(** A code point; a byte is a code point below 256. *)
Abbreviation char := N (only parsing).
Abbreviation pystr := (list N) (only parsing).
Abbreviation bytes := (list N) (only parsing).

Definition is_cont (b : N) : bool := (128 <=? b) && (b <=? 191).

Definition is_surrogate (c : char) : bool := (55296 <=? c) && (c <=? 57343).

(** Strict UTF-8 decoding, as the [utf-8] codec with [errors="strict"]:
    overlong forms, surrogates and values above U+10FFFF are rejected. *)
Fixpoint utf8_decode (bs : bytes) : option pystr :=
  match bs with
  | [] => Some []
  | b0 :: r0 =>
    if b0 <? 128 then cons b0 <$> utf8_decode r0
    else if b0 <? 192 then None
    else match r0 with
    | [] => None
    | b1 :: r1 =>
      if negb (is_cont b1) then None
      else if b0 <? 224 then
        let c := (b0 - 192) * 64 + (b1 - 128) in
        if c <? 128 then None else cons c <$> utf8_decode r1
      else match r1 with
      | [] => None
      | b2 :: r2 =>
        if negb (is_cont b2) then None
        else if b0 <? 240 then
          let c := (b0 - 224) * 4096 + (b1 - 128) * 64 + (b2 - 128) in
          if (c <? 2048) || is_surrogate c then None
          else cons c <$> utf8_decode r2
        else match r2 with
        | [] => None
        | b3 :: r3 =>
          if negb (is_cont b3) then None
          else if b0 <? 248 then
            let c := (b0 - 240) * 262144 + (b1 - 128) * 4096
                     + (b2 - 128) * 64 + (b3 - 128) in
            if (c <? 65536) || (1114111 <? c) then None
            else cons c <$> utf8_decode r3
          else None
        end
      end
    end
  end.

(** UTF-8 encoding of one code point; [None] is [UnicodeEncodeError]
    (a surrogate code point). *)
Definition utf8_encode_char (c : char) : option bytes :=
  if c <? 128 then Some [c]
  else if c <? 2048 then Some [192 + c / 64; 128 + c mod 64]
  else if c <? 65536 then
    if is_surrogate c then None
    else Some [224 + c / 4096; 128 + (c / 64) mod 64; 128 + c mod 64]
  else if c <? 1114112 then
    Some [240 + c / 262144; 128 + (c / 4096) mod 64;
          128 + (c / 64) mod 64; 128 + c mod 64]
  else None.

Fixpoint utf8_encode (s : pystr) : option bytes :=
  match s with
  | [] => Some []
  | c :: r =>
    match utf8_encode_char c, utf8_encode r with
    | Some bs, Some br => Some (bs ++ br)
    | _, _ => None
    end
  end.

(** A string that the [utf-8] codec can write: no surrogate code point
    (a Python [str] holds nothing above U+10FFFF). *)
Definition encodable (s : pystr) : Prop :=
  Forall (fun c => c < 1114112 /\ is_surrogate c = false) s.

(** String literals of the source are written as Rocq strings (UTF-8 bytes
    in this file, as in [grader.py]) and decoded to code points. *)
Definition bytes_of_string (s : string) : bytes :=
  map N_of_ascii (list_ascii_of_string s).

Definition py (s : string) : pystr :=
  default [] (utf8_decode (bytes_of_string s)).
Arguments py : simpl never.

Definition eqb (a b : pystr) : bool := bool_decide (a = b).

(** [str.isspace] on one character: the code points Python treats as
    whitespace. *)
Definition isspace (c : char) : bool :=
  ((9 <=? c) && (c <=? 13)) || ((28 <=? c) && (c <=? 32))
  || (c =? 133) || (c =? 160) || (c =? 5760)
  || ((8192 <=? c) && (c <=? 8202)) || (c =? 8232) || (c =? 8233)
  || (c =? 8239) || (c =? 8287) || (c =? 12288).

Fixpoint lstrip (s : pystr) : pystr :=
  match s with
  | c :: r => if isspace c then lstrip r else s
  | [] => []
  end.

Definition rstrip (s : pystr) : pystr := reverse (lstrip (reverse s)).

(** [s.strip()] *)
Definition strip (s : pystr) : pystr := lstrip (rstrip s).

(** [s.partition(sep)] for a one-character separator: the text before the
    first [sep] and, when there is one, the text after it. *)
Fixpoint cut (sep : char) (s : pystr) : pystr * option pystr :=
  match s with
  | [] => ([], None)
  | c :: r =>
    if c =? sep then ([], Some r)
    else let '(a, b) := cut sep r in (c :: a, b)
  end.

(** [s.split(sep, 1)] for a one-character separator. *)
Definition split1 (sep : char) (s : pystr) : list pystr :=
  match cut sep s with
  | (a, None) => [a]
  | (a, Some b) => [a; b]
  end.

(** [s.split(sep)] for a one-character separator. *)
Fixpoint split (sep : char) (s : pystr) : list pystr :=
  match s with
  | [] => [[]]
  | c :: r =>
    if c =? sep then [] :: split sep r
    else match split sep r with
         | w :: ws => (c :: w) :: ws
         | [] => [[c]]
         end
  end.

(** [s.rfind(c)]: index of the last occurrence of [c]. *)
Fixpoint rfind_from (c : char) (s : pystr) (i : nat) (found : option nat)
  : option nat :=
  match s with
  | [] => found
  | x :: r => rfind_from c r (S i) (if x =? c then Some i else found)
  end.

Definition rfind (c : char) (s : pystr) : option nat := rfind_from c s 0%nat None.

(** [str.lower] on the ASCII range.  Outside ASCII Python lower-cases with
    the Unicode tables; no non-ASCII character lower-cases to one of
    [. j p e g n], so comparing a lower-cased suffix with the allowed
    extensions is not affected. *)
Definition lower_char (c : char) : char :=
  if (65 <=? c) && (c <=? 90) then c + 32 else c.

Definition lower (s : pystr) : pystr := map lower_char s.

(** [str(n)] for a natural number: decimal digits. *)
Fixpoint digits_go (fuel : nat) (n : N) (acc : pystr) : pystr :=
  match fuel with
  | O => acc
  | S k =>
    let acc' := (48 + n mod 10) :: acc in
    if n <? 10 then acc' else digits_go k (n / 10) acc'
  end.

Definition of_N (n : N) : pystr := digits_go (S (N.to_nat (N.log2 n))) n [].

(** ["%02d"]-style zero padding to [width] digits. *)
Definition zfill (width : nat) (s : pystr) : pystr :=
  replicate (width - length s) 48 ++ s.

(** [sub in s] *)
Fixpoint is_prefix (p s : pystr) : bool :=
  match p, s with
  | [], _ => true
  | a :: p', b :: s' => (a =? b) && is_prefix p' s'
  | _ :: _, [] => false
  end.

Fixpoint contains (sub s : pystr) : bool :=
  is_prefix sub s ||
  match s with
  | [] => false
  | _ :: r => contains sub r
  end.

End Str.

Import Str.

(** ** Exceptions and results *)

(** The exception classes the program can meet.  [OpenAIError] is what the
    constructor of the [openai] client raises; [APIError] stands for the
    errors of its requests (connection, authentication, rate limit, a
    stream cut short). *)
Inductive exn_class :=
| ValueError | FileNotFoundError | IndexError | TypeError | RecursionError
| UnicodeDecodeError | UnicodeEncodeError | JSONDecodeError | OpenAIError
| APIError.

Record exn := Exn { exn_type : exn_class; exn_msg : pystr }.

(** [str(e)] *)
Definition str_exn (e : exn) : pystr := exn_msg e.

Inductive result (A : Type) :=
| Ok (a : A)
| Raise (e : exn).
Arguments Ok {A} a.
Arguments Raise {A} e.

Definition rbind {A B} (r : result A) (k : A -> result B) : result B :=
  match r with
  | Ok a => k a
  | Raise e => Raise e
  end.

Definition is_exn_class (c : exn_class) (e : exn) : bool :=
  match c, exn_type e with
  | ValueError, (ValueError | UnicodeDecodeError | UnicodeEncodeError | JSONDecodeError) => true
  | FileNotFoundError, FileNotFoundError => true
  | IndexError, IndexError => true
  | TypeError, TypeError => true
  | RecursionError, RecursionError => true
  | UnicodeDecodeError, UnicodeDecodeError => true
  | UnicodeEncodeError, UnicodeEncodeError => true
  | JSONDecodeError, JSONDecodeError => true
  | OpenAIError, (OpenAIError | APIError) => true
  | APIError, APIError => true
  | _, _ => false
  end.

(** ** The [json] module, as [grader.py] uses it *)

Module Json.

(** Python values that [json] reads and writes.  A float is carried as its
    JSON lexeme (also [NaN], [Infinity], [-Infinity]); a [dict] is the list
    of its items in insertion order. *)
#[warnings="-register-all"] Inductive pyval :=
| PNone
| PBool (b : bool)
| PInt (z : Z)
| PFloat (lexeme : pystr)
| PStr (s : pystr)
| PList (xs : list pyval)
| PDict (items : list (pystr * pyval)).

(** *** Encoding: [json.dump(obj, f, ensure_ascii=False, indent=2)] *)

Definition hexdigit (n : N) : char := if n <? 10 then 48 + n else 87 + n.

(** [ESCAPE_DCT]: the replacement of one character inside a string. *)
Definition escape_char (c : char) : pystr :=
  if c =? 34 then [92; 34]
  else if c =? 92 then [92; 92]
  else if c =? 10 then [92; 110]
  else if c =? 13 then [92; 114]
  else if c =? 9 then [92; 116]
  else if c =? 8 then [92; 98]
  else if c =? 12 then [92; 102]
  else if c <? 32 then [92; 117; 48; 48; hexdigit (c / 16); hexdigit (c mod 16)]
  else [c].

(** [py_encode_basestring] *)
Definition encode_basestring (s : pystr) : pystr :=
  34 :: flat_map escape_char s ++ [34].

Definition str_of_Z (z : Z) : pystr :=
  match z with
  | Zneg p => 45 :: of_N (Npos p)
  | _ => of_N (Z.to_N z)
  end.

Definition is_container (v : pyval) : bool :=
  match v with
  | PList _ | PDict _ => true
  | _ => false
  end.

(** The text of a value that is neither a list nor a dict. *)
Definition encode_atom (v : pyval) : pystr :=
  match v with
  | PNone => py "null"
  | PBool true => py "true"
  | PBool false => py "false"
  | PInt z => str_of_Z z
  | PFloat lexeme => lexeme
  | PStr s => encode_basestring s
  | PList _ | PDict _ => []
  end.

(** ['\n' + _indent * level] with [indent=2] *)
Definition newline_indent (level : nat) : pystr :=
  10 :: replicate (2 * level) 32.

(** [_iterencode_list], after the test for an empty list: [enc] encodes an
    element that is itself a list or a dict. *)
Fixpoint iterencode_list (enc : pyval -> list pystr) (level : nat)
    (first : bool) (xs : list pyval) : list pystr :=
  match xs with
  | [] => [newline_indent level; [93]]
  | x :: r =>
    let buf := (if first then [91] else [44]) ++ newline_indent (S level) in
    (if is_container x then buf :: enc x else [buf ++ encode_atom x])
    ++ iterencode_list enc level false r
  end.

(** [_iterencode_dict], after the test for an empty dict and the opening
    brace. *)
Fixpoint iterencode_dict (enc : pyval -> list pystr) (level : nat)
    (first : bool) (items : list (pystr * pyval)) : list pystr :=
  match items with
  | [] => [newline_indent level; [125]]
  | (k, x) :: r =>
    (if first then [] else [44 :: newline_indent (S level)])
    ++ [encode_basestring k; [58; 32]]
    ++ (if is_container x then enc x else [encode_atom x])
    ++ iterencode_dict enc level false r
  end.

(** [_iterencode]: the chunks that [json.dump] writes one by one. *)
Fixpoint iterencode (level : nat) (v : pyval) {struct v} : list pystr :=
  match v with
  | PList [] => [py "[]"]
  | PList xs => iterencode_list (iterencode (S level)) level true xs
  | PDict [] => [py "{}"]
  | PDict items =>
    [123] :: newline_indent (S level)
    :: iterencode_dict (iterencode (S level)) level true items
  | _ => [encode_atom v]
  end.

(** [json.dumps(obj, ensure_ascii=False, indent=2)] *)
Definition dumps (v : pyval) : pystr := concat (iterencode 0 v).

(** *** Decoding: [json.load(f)] *)

(** [raise JSONDecodeError(msg, s, pos)]; the position that Python appends
    to the message is left out. *)
Definition jerr {A} (msg : string) : result A :=
  Raise (Exn JSONDecodeError (py msg)).

Definition is_ws (c : char) : bool :=
  (c =? 32) || (c =? 9) || (c =? 10) || (c =? 13).

(** [WHITESPACE.match(s, idx).end()] *)
Fixpoint skip_ws (s : pystr) : pystr :=
  match s with
  | c :: r => if is_ws c then skip_ws r else s
  | [] => []
  end.

Definition is_digit (c : char) : bool := (48 <=? c) && (c <=? 57).

Definition hexval (c : char) : option N :=
  if is_digit c then Some (c - 48)
  else if (97 <=? c) && (c <=? 102) then Some (c - 87)
  else if (65 <=? c) && (c <=? 70) then Some (c - 55)
  else None.

(** [_decode_uXXXX]: four hexadecimal digits. *)
Definition decode_uXXXX (s : pystr) : option (N * pystr) :=
  match s with
  | h1 :: h2 :: h3 :: h4 :: r =>
    match hexval h1, hexval h2, hexval h3, hexval h4 with
    | Some a, Some b, Some c, Some d =>
      Some (((a * 16 + b) * 16 + c) * 16 + d, r)
    | _, _, _, _ => None
    end
  | _ => None
  end.

(** [BACKSLASH] *)
Definition backslash (c : char) : option char :=
  if c =? 34 then Some 34
  else if c =? 92 then Some 92
  else if c =? 47 then Some 47
  else if c =? 98 then Some 8
  else if c =? 102 then Some 12
  else if c =? 110 then Some 10
  else if c =? 114 then Some 13
  else if c =? 116 then Some 9
  else None.

Definition scons (c : char) (r : result (pystr * pystr)) : result (pystr * pystr) :=
  rbind r (fun '(s, rest) => Ok (c :: s, rest)).

(** [py_scanstring] with [strict=True], entered after the opening quote:
    the decoded string and the input after the closing quote. *)
Fixpoint scanstring (s : pystr) : result (pystr * pystr) :=
  match s with
  | [] => jerr "Unterminated string starting at"
  | c :: r =>
    if c =? 34 then Ok ([], r)
    else if c =? 92 then
      match r with
      | [] => jerr "Unterminated string starting at"
      | esc :: r1 =>
        if esc =? 117 then
          match r1 with
          | h1 :: h2 :: h3 :: h4 :: r2 =>
            match decode_uXXXX [h1; h2; h3; h4] with
            | None => jerr "Invalid \uXXXX escape"
            | Some (uni, _) =>
              if (55296 <=? uni) && (uni <=? 56319) then
                match r2 with
                | b :: u :: r3 =>
                  if (b =? 92) && (u =? 117) then
                    match r3 with
                    | g1 :: g2 :: g3 :: g4 :: r4 =>
                      match decode_uXXXX [g1; g2; g3; g4] with
                      | None => jerr "Invalid \uXXXX escape"
                      | Some (uni2, _) =>
                        if (56320 <=? uni2) && (uni2 <=? 57343) then
                          scons (65536 + ((uni - 55296) * 1024 + (uni2 - 56320)))
                                (scanstring r4)
                        else scons uni (scanstring r2)
                      end
                    | _ => jerr "Invalid \uXXXX escape"
                    end
                  else scons uni (scanstring r2)
                | _ => scons uni (scanstring r2)
                end
              else scons uni (scanstring r2)
            end
          | _ => jerr "Invalid \uXXXX escape"
          end
        else
          match backslash esc with
          | Some ch => scons ch (scanstring r1)
          | None => jerr "Invalid \escape"
          end
      end
    else if c <? 32 then jerr "Invalid control character at"
    else scons c (scanstring r)
  end.

(** [NUMBER_RE]: an optional minus sign and either [0] or a digit from 1
    to 9 followed by digits; then, optionally, a dot and at least one digit;
    then, optionally, [e] or [E], an optional sign and at least one digit. *)
Fixpoint span (p : char -> bool) (s : pystr) : pystr * pystr :=
  match s with
  | c :: r => if p c then let '(a, b) := span p r in (c :: a, b) else ([], s)
  | [] => ([], [])
  end.

Definition match_integer (s : pystr) : option (pystr * pystr) :=
  let '(sign, r) :=
    match s with
    | c :: r => if c =? 45 then ([45], r) else ([], s)
    | [] => ([], s)
    end in
  match r with
  | d :: r' =>
    if d =? 48 then Some (sign ++ [48], r')
    else if is_digit d then
      let '(ds, r'') := span is_digit r' in Some (sign ++ d :: ds, r'')
    else None
  | [] => None
  end.

Definition match_frac (s : pystr) : pystr * pystr :=
  match s with
  | c :: r =>
    if c =? 46 then
      match span is_digit r with
      | ([], _) => ([], s)
      | (ds, r') => (46 :: ds, r')
      end
    else ([], s)
  | [] => ([], s)
  end.

Definition match_exp (s : pystr) : pystr * pystr :=
  match s with
  | e :: r =>
    if (e =? 101) || (e =? 69) then
      let '(sg, r1) :=
        match r with
        | c :: r1 => if (c =? 45) || (c =? 43) then ([c], r1) else ([], r)
        | [] => ([], r)
        end in
      match span is_digit r1 with
      | ([], _) => ([], s)
      | (ds, r2) => (e :: sg ++ ds, r2)
      end
    else ([], s)
  | [] => ([], s)
  end.

(** [int(text)] for an optional minus sign followed by decimal digits.
    With [max_digits] other than [0] ([sys.get_int_max_str_digits()]), a
    text of more digits raises a plain [ValueError]. *)
Definition int_of (max_digits : N) (lexeme : pystr) : result Z :=
  let value ds := fold_left (fun acc d => acc * 10 + (d - 48))%N ds 0 in
  let '(negative, digits) :=
    match lexeme with
    | c :: ds => if c =? 45 then (true, ds) else (false, lexeme)
    | [] => (false, [])
    end in
  if (0 <? max_digits) && (max_digits <? N.of_nat (length digits)) then
    Raise (Exn ValueError
             (py "Exceeds the limit (" ++ of_N max_digits
              ++ py " digits) for integer string conversion: value has "
              ++ of_N (N.of_nat (length digits))
              ++ py " digits; use sys.set_int_max_str_digits() to increase the limit"))
  else Ok (if negative then (- Z.of_N (value digits))%Z
           else Z.of_N (value digits)).

(** A number at the start of [s]: its value, or the error of the
    conversion, and the input after it. *)
Definition match_number (max_digits : N) (s : pystr)
  : option (result pyval * pystr) :=
  match match_integer s with
  | None => None
  | Some (i, r) =>
    let '(f, r1) := match_frac r in
    let '(e, r2) := match_exp r1 in
    match f, e with
    | [], [] => Some (rbind (int_of max_digits i) (fun z => Ok (PInt z)), r2)
    | _, _ => Some (Ok (PFloat (i ++ f ++ e)), r2)
    end
  end.

(** [s[idx:idx+len(word)] == word], giving the input after the word. *)
Fixpoint strip_prefix (word s : pystr) : option pystr :=
  match word, s with
  | [], _ => Some s
  | a :: w, b :: r => if a =? b then strip_prefix w r else None
  | _ :: _, [] => None
  end.

(** The value of a dict after [d[k] = v]: an existing key keeps its
    position and takes the new value. *)
Fixpoint dict_set (items : list (pystr * pyval)) (k : pystr) (v : pyval)
  : list (pystr * pyval) :=
  match items with
  | [] => [(k, v)]
  | (k', v') :: r =>
    if Str.eqb k' k then (k, v) :: r else (k', v') :: dict_set r k v
  end.

(** The scanner stops at a list or dict that is nested deeper than the
    interpreter's recursion limit allows. *)
Definition too_deep {A} (what : string) : result A :=
  Raise (Exn RecursionError
           (py "maximum recursion depth exceeded while decoding a JSON "
            ++ py what ++ py " from a unicode string")).

(** The end of the [fuel] that makes the scanner a structural recursion;
    [loads] gives enough of it for this never to be the outcome. *)
Definition out_of_fuel {A} : result A :=
  Raise (Exn RecursionError (py "maximum recursion depth exceeded")).

(** [scan_once], [JSONArray] and [JSONObject] of [json.scanner] and
    [json.decoder].  [room] is the number of lists and dicts that can
    still be entered, one inside the other, before the recursion limit of
    the interpreter is reached; entering one at [room = 0] raises
    [RecursionError].  Each call takes one unit of [fuel], also the calls
    that stand for one more turn of a Python loop. *)
Fixpoint scan_once (fuel room : nat) (max_digits : N) (s : pystr) {struct fuel}
  : result (pyval * pystr) :=
  match fuel with
  | O => out_of_fuel
  | S fuel' =>
    match s with
    | [] => jerr "Expecting value"
    | c :: r =>
      if c =? 34 then
        rbind (scanstring r) (fun '(str, r') => Ok (PStr str, r'))
      else if c =? 123 then
        match room with
        | O => too_deep "object"
        | S room' =>
          match skip_ws r with
          | c1 :: r1 =>
            if c1 =? 125 then Ok (PDict [], r1)
            else if c1 =? 34 then JSONObject fuel' room' max_digits r1 []
            else jerr "Expecting property name enclosed in double quotes"
          | [] => jerr "Expecting property name enclosed in double quotes"
          end
        end
      else if c =? 91 then
        match room with
        | O => too_deep "array"
        | S room' =>
          match skip_ws r with
          | c1 :: r1 =>
            if c1 =? 93 then Ok (PList [], r1)
            else JSONArray fuel' room' max_digits (c1 :: r1) []
          | [] => jerr "Expecting value"
          end
        end
      else
        match strip_prefix (py "null") s, strip_prefix (py "true") s,
              strip_prefix (py "false") s with
        | Some r', _, _ => Ok (PNone, r')
        | _, Some r', _ => Ok (PBool true, r')
        | _, _, Some r' => Ok (PBool false, r')
        | None, None, None =>
          match match_number max_digits s with
          | Some (res, r') => rbind res (fun v => Ok (v, r'))
          | None =>
            match strip_prefix (py "NaN") s, strip_prefix (py "Infinity") s,
                  strip_prefix (py "-Infinity") s with
            | Some r', _, _ => Ok (PFloat (py "NaN"), r')
            | _, Some r', _ => Ok (PFloat (py "Infinity"), r')
            | _, _, Some r' => Ok (PFloat (py "-Infinity"), r')
            | None, None, None => jerr "Expecting value"
            end
          end
        end
    end
  end

(** [JSONArray], entered at the first value; [acc] holds the values read
    so far, last first. *)
with JSONArray (fuel room : nat) (max_digits : N) (s : pystr)
    (acc : list pyval) {struct fuel} : result (pyval * pystr) :=
  match fuel with
  | O => out_of_fuel
  | S fuel' =>
    rbind (scan_once fuel' room max_digits s) (fun '(v, r) =>
      match skip_ws r with
      | c :: r1 =>
        if c =? 93 then Ok (PList (reverse (v :: acc)), r1)
        else if c =? 44 then
          JSONArray fuel' room max_digits (skip_ws r1) (v :: acc)
        else jerr "Expecting ',' delimiter"
      | [] => jerr "Expecting ',' delimiter"
      end)
  end

(** [JSONObject], entered after the opening quote of a key. *)
with JSONObject (fuel room : nat) (max_digits : N) (s : pystr)
    (acc : list (pystr * pyval)) {struct fuel} : result (pyval * pystr) :=
  match fuel with
  | O => out_of_fuel
  | S fuel' =>
    rbind (scanstring s) (fun '(key, r) =>
      match skip_ws r with
      | c :: r1 =>
        if c =? 58 then
          rbind (scan_once fuel' room max_digits (skip_ws r1)) (fun '(v, r2) =>
            let acc' := dict_set acc key v in
            match skip_ws r2 with
            | c2 :: r3 =>
              if c2 =? 125 then Ok (PDict acc', r3)
              else if c2 =? 44 then
                match skip_ws r3 with
                | c3 :: r4 =>
                  if c3 =? 34 then JSONObject fuel' room max_digits r4 acc'
                  else jerr "Expecting property name enclosed in double quotes"
                | [] => jerr "Expecting property name enclosed in double quotes"
                end
              else jerr "Expecting ',' delimiter"
            | [] => jerr "Expecting ',' delimiter"
            end)
        else jerr "Expecting ':' delimiter"
      | [] => jerr "Expecting ':' delimiter"
      end)
  end.

(** [json.loads(s)]: one value between optional whitespace, nothing after.
    A call of the scanner that follows another has either consumed a
    character or is the first for a value of a list, so twice the length
    of the text and two more is fuel enough. *)
Definition loads (room : nat) (max_digits : N) (s : pystr) : result pyval :=
  if is_prefix [65279] s then
    jerr "Unexpected UTF-8 BOM (decode using utf-8-sig)"
  else
    rbind (scan_once (2 * length s + 2) room max_digits (skip_ws s))
      (fun '(v, r) =>
        match skip_ws r with
        | [] => Ok v
        | _ :: _ => jerr "Extra data"
        end).

End Json.

(** [base64.b64encode(bs).decode("utf-8")] *)
Module Base64.

Definition alphabet (i : N) : char :=
  if i <? 26 then 65 + i
  else if i <? 52 then 97 + (i - 26)
  else if i <? 62 then 48 + (i - 52)
  else if i =? 62 then 43
  else 47.

Fixpoint b64encode (bs : bytes) : pystr :=
  match bs with
  | [] => []
  | [a] =>
    [alphabet (a / 4); alphabet ((a mod 4) * 16); 61; 61]
  | [a; b] =>
    [alphabet (a / 4); alphabet ((a mod 4) * 16 + b / 16);
     alphabet ((b mod 16) * 4); 61]
  | a :: b :: c :: r =>
    alphabet (a / 4) :: alphabet ((a mod 4) * 16 + b / 16)
    :: alphabet ((b mod 16) * 4 + c / 64) :: alphabet (c mod 64)
    :: b64encode r
  end.

End Base64.

(** ** The world the program runs in *)

(** A regular file: the size [stat] reports and the bytes [read] returns.
    Files the program writes have [st_size] equal to their length; for the
    other files of a world the two are given separately. *)
Record file := File { st_size : N; data : bytes }.

(** A reading of [datetime.datetime.now()]. *)
Record datetime := Datetime {
  year : N; month : N; day : N; hour : N; minute : N; second : N
}.

(** One part of a multi-part user message. *)
Inductive part :=
| TextPart (text : pystr)
| ImageUrlPart (url : pystr).

Inductive content :=
| Plain (text : pystr)
| Parts (parts : list part).

Record message := Message { role : pystr; msg_content : content }.

(** An [OpenAI] client: the settings it was constructed with. *)
Record client := Client { client_base_url : pystr; client_api_key : pystr }.

(** The arguments of [client.chat.completions.create], with the settings of
    the client that sends them. *)
Record request := Request {
  base_url : pystr;
  api_key : pystr;
  model : pystr;
  messages : list message;
  stream : bool;
  temperature : option N
}.

(** A streamed chunk: [chunk.choices[i].delta.content]. *)
Record choice := Choice { delta_content : option pystr }.
Record chunk := Chunk { choices : list choice }.

(** What the endpoint does with a request: it refuses it ([create] raises),
    or it streams chunks and either ends the stream or breaks it off with
    an error. *)
Inductive reply :=
| Refused (e : exn)
| Streaming (chunks : list chunk) (broken : option exn).

(** What the interpreter allows [json.load].  Lists and dicts can nest
    [2 + spare_depth] deep before the recursion limit stops the scanner:
    the limit and the frames in use at the call decide the number, and a
    program that has no room for the two levels of a history (a list of
    dicts) is outside the model.  [int_max_str_digits] is
    [sys.get_int_max_str_digits()], with [0] for no limit. *)
Record interpreter := Interpreter {
  spare_depth : nat;
  int_max_str_digits : N
}.

Definition json_room (i : interpreter) : nat := 2 + spare_depth i.

Record world := World {
  fs : gmap pystr file;          (* regular files, by path as written *)
  cwd : pystr;                   (* the working directory *)
  environ : gmap pystr pystr;    (* the environment after [load_dotenv] *)
  endpoint : request -> reply;   (* the inference endpoint *)
  calls : list request;          (* requests sent so far, oldest first *)
  log : list pystr;              (* lines handed to the logger *)
  now : nat -> datetime;         (* the successive readings of the clock *)
  ticks : nat;                   (* clock readings taken so far *)
  python : interpreter           (* the limits of the interpreter *)
}.

(** The operations on the world that the program performs. *)
Inductive effect : Type -> Type :=
| FileAt (p : pystr) : effect (option file)
| Truncate (p : pystr) : effect unit
| Append (p : pystr) (bs : bytes) : effect unit
| Send (r : request) : effect reply
| LogInfo (line : pystr) : effect unit
| Now : effect datetime
| Getcwd : effect pystr
| Environ : effect (gmap pystr pystr)
| Python : effect interpreter.

Definition set_fs (f : gmap pystr file -> gmap pystr file) (w : world) : world :=
  World (f (fs w)) (cwd w) (environ w) (endpoint w) (calls w) (log w)
        (now w) (ticks w) (python w).

Definition append_file (bs : bytes) (o : option file) : option file :=
  let old := default (File 0 []) o in
  Some (File (st_size old + N.of_nat (length bs)) (data old ++ bs)).

Definition perform {X} (op : effect X) (w : world) : X * world :=
  match op in effect X return X * world with
  | FileAt p => (fs w !! p, w)
  | Truncate p => (tt, set_fs (<[p := File 0 []]>) w)
  | Append p bs => (tt, set_fs (partial_alter (append_file bs) p) w)
  | Send r =>
    (endpoint w r,
     World (fs w) (cwd w) (environ w) (endpoint w) (calls w ++ [r]) (log w)
           (now w) (ticks w) (python w))
  | LogInfo line =>
    (tt,
     World (fs w) (cwd w) (environ w) (endpoint w) (calls w) (log w ++ [line])
           (now w) (ticks w) (python w))
  | Now =>
    (now w (ticks w),
     World (fs w) (cwd w) (environ w) (endpoint w) (calls w) (log w)
           (now w) (S (ticks w)) (python w))
  | Getcwd => (cwd w, w)
  | Environ => (environ w, w)
  | Python => (python w, w)
  end.

(** ** Functions and generators *)

(** A Python function body, or a generator body when [Y] is inhabited: it
    returns, raises, yields a value and goes on, or performs an operation
    and goes on with its result.  A plain function never yields. *)
Inductive gen (Y A : Type) : Type :=
| Return (a : A)
| Throw (e : exn)
| Yield (y : Y) (k : gen Y A)
| Do {X : Type} (op : effect X) (k : X -> gen Y A).
Arguments Return {Y A} a.
Arguments Throw {Y A} e.
Arguments Yield {Y A} y k.
Arguments Do {Y A X} op k.

Fixpoint bind {Y A B} (g : gen Y A) (f : A -> gen Y B) : gen Y B :=
  match g with
  | Return a => f a
  | Throw e => Throw e
  | Yield y k => Yield y (bind k f)
  | Do op k => Do op (fun x => bind (k x) f)
  end.

#[global] Instance gen_ret {Y} : MRet (gen Y) := fun _ a => Return a.
#[global] Instance gen_bind {Y} : MBind (gen Y) := fun _ _ f g => bind g f.

(** [try: g  except Exception as e: h e] *)
Fixpoint try_except {Y A} (g : gen Y A) (h : exn -> gen Y A) : gen Y A :=
  match g with
  | Return a => Return a
  | Throw e => h e
  | Yield y k => Yield y (try_except k h)
  | Do op k => Do op (fun x => try_except (k x) h)
  end.

(** [for y in g: s = body(y, s)]: the loop pulls one value at a time, so
    the operations of [g] and of the body interleave; the value [g] returns
    is dropped, an exception of [g] or of the body leaves the loop. *)
Fixpoint for_gen {Y A Z S} (g : gen Y A) (s : S) (body : Y -> S -> gen Z S)
  : gen Z S :=
  match g with
  | Return _ => Return s
  | Throw e => Throw e
  | Yield y k => bind (body y s) (fun s' => for_gen k s' body)
  | Do op k => Do op (fun x => for_gen (k x) s body)
  end.

(** [for x in xs: s = body(x, s)] over a list. *)
Fixpoint for_in {Y X S} (xs : list X) (s : S) (body : X -> S -> gen Y S)
  : gen Y S :=
  match xs with
  | [] => Return s
  | x :: r => bind (body x s) (fun s' => for_in r s' body)
  end.

Definition do {Y X} (op : effect X) : gen Y X := Do op Return.

Definition of_result {Y A} (r : result A) : gen Y A :=
  match r with
  | Ok a => Return a
  | Raise e => Throw e
  end.

(** Running a body to its end from a world: the values yielded in order,
    the outcome, and the world left behind. *)
Fixpoint run {Y A} (g : gen Y A) (w : world) : list Y * result A * world :=
  match g with
  | Return a => ([], Ok a, w)
  | Throw e => ([], Raise e, w)
  | Yield y k => let '(ys, r, w') := run k w in (y :: ys, r, w')
  | Do op k => let '(x, w') := perform op w in run (k x) w'
  end.

Definition yields {Y A} (g : gen Y A) (w : world) : list Y := (run g w).1.1.
Definition outcome {Y A} (g : gen Y A) (w : world) : result A := (run g w).1.2.
Definition after {Y A} (g : gen Y A) (w : world) : world := (run g w).2.

Definition yield {Y} (y : Y) : gen Y unit := Yield y (Return tt).

(** ** Files and paths *)

(** Universal-newline translation of text-mode reading. *)
Fixpoint universal_newlines (s : pystr) : pystr :=
  match s with
  | [] => []
  | c :: r =>
    if c =? 13 then
      match r with
      | d :: r' => if d =? 10 then 10 :: universal_newlines r'
                   else 10 :: universal_newlines r
      | [] => [10]
      end
    else c :: universal_newlines r
  end.

Definition no_such_file {Y A} (p : pystr) : gen Y A :=
  Throw (Exn FileNotFoundError
           (py "[Errno 2] No such file or directory: '" ++ p ++ py "'")).

(** [with open(p, "r", encoding="utf-8") as f: f.read()] *)
Definition read_text {Y} (p : pystr) : gen Y pystr :=
  o ← do (FileAt p);
  match o with
  | None => no_such_file p
  | Some f =>
    match utf8_decode (data f) with
    | None =>
      Throw (Exn UnicodeDecodeError (py "'utf-8' codec can't decode bytes"))
    | Some s => Return (universal_newlines s)
    end
  end.

(** [with open(p, "rb") as f: f.read()] *)
Definition read_bytes {Y} (p : pystr) : gen Y bytes :=
  o ← do (FileAt p);
  match o with
  | None => no_such_file p
  | Some f => Return (data f)
  end.

(** [f.write(s)] on a file opened for writing with [encoding="utf-8"]. *)
Definition write {Y} (p : pystr) (s : pystr) : gen Y unit :=
  match utf8_encode s with
  | Some bs => do (Append p bs)
  | None =>
    Throw (Exn UnicodeEncodeError
             (py "'utf-8' codec can't encode character: surrogates not allowed"))
  end.

(** [with open(p, "w", encoding="utf-8") as f:] followed by one [f.write]
    per chunk.  Opening truncates; a chunk that cannot be encoded raises
    and leaves the chunks before it in the file. *)
Definition write_text {Y} (p : pystr) (chunks : list pystr) : gen Y unit :=
  do (Truncate p);;
  for_in chunks tt (fun c _ => write p c).

Module Path.

(** The components of a path as [pathlib] keeps them: empty components and
    [.] are dropped. *)
Definition parts (p : pystr) : list pystr :=
  filter (fun c => c ≠ [] ∧ c ≠ [46]) (split 47 p).

(** [Path(p).name] *)
Definition name (p : pystr) : pystr := default [] (last (parts p)).

(** [Path(p).suffix]: the name from its last dot, unless that dot is the
    first or the last character of the name. *)
Definition suffix (p : pystr) : pystr :=
  let n := name p in
  match rfind 46 n with
  | Some i => if bool_decide (0 < i < length n - 1)%nat then drop i n else []
  | None => []
  end.

(** [a / b] for a relative [b], as a string. *)
Definition join (a b : pystr) : pystr :=
  match last a with
  | Some 47 => a ++ b
  | _ => a ++ 47 :: b
  end.

(** The components of an absolute path after each [..] has taken away the
    component before it; [seen] holds the components kept so far, last
    first.  At the root [..] stays at the root. *)
Fixpoint collapse (components seen : list pystr) : list pystr :=
  match components with
  | [] => reverse seen
  | c :: r =>
    if bool_decide (c = [46; 46]) then collapse r (tail seen)
    else collapse r (c :: seen)
  end.

(** The root of an absolute path: exactly two leading slashes are kept. *)
Definition root (p : pystr) : pystr :=
  match p with
  | a :: b :: c :: _ =>
    if (a =? 47) && (b =? 47) && negb (c =? 47) then [47; 47] else [47]
  | [a; b] => if (a =? 47) && (b =? 47) then [47; 47] else [47]
  | _ => [47]
  end.

(** The components of a path, joined by slashes. *)
Fixpoint slashed (components : list pystr) : pystr :=
  match components with
  | [] => []
  | [c] => c
  | c :: r => c ++ 47 :: slashed r
  end.

(** An absolute path in normal form: no empty component, no [.], no
    [..]. *)
Definition normal (p : pystr) : pystr :=
  root p ++ slashed (collapse (parts p) []).

(** The absolute path that [p] stands for in the directory [d]. *)
Definition absolute (d p : pystr) : pystr :=
  match p with
  | c :: _ => if c =? 47 then p else join d p
  | [] => join d p
  end.

(** [str(Path(p).resolve())] where there are no symbolic links. *)
Definition resolve {Y} (p : pystr) : gen Y pystr :=
  d ← do Getcwd; Return (normal (absolute d p)).

End Path.

(** ** [grader.py] *)

Module Grader.
Import Json.

Definition TEXTS_DIR : pystr := py "texts".
Definition RATES_DIR : pystr := py "rates".
Definition HISTORY_PATH : pystr := py "history.json".

Record Config := {
  API_BASE_URL : pystr;
  API_KEY : option pystr;
  EXTRACTION_MODEL : pystr;
  RATING_MODEL : pystr;
  MAX_FILE_SIZE_MB : N;
  ALLOWED_EXTENSIONS : list pystr
}.

(** [class Config], read from the environment when the module loads. *)
Definition Config_of (env : gmap pystr pystr) : Config := {|
  API_BASE_URL :=
    default (py "https://api-inference.modelscope.cn/v1/")
            (env !! py "MODELSCOPE_API_ENDPOINT");
  API_KEY := env !! py "MODELSCOPE_API_KEY";
  EXTRACTION_MODEL :=
    default (py "Qwen/Qwen2.5-VL-7B-Instruct") (env !! py "EXTRACTION_MODEL");
  RATING_MODEL :=
    default (py "Qwen/Qwen2.5-32B-Instruct") (env !! py "RATING_MODEL");
  MAX_FILE_SIZE_MB := 5;
  ALLOWED_EXTENSIONS := [py ".jpg"; py ".jpeg"; py ".png"]
|}.

Definition config {Y} : gen Y Config := env ← do Environ; Return (Config_of env).

Definition log_event {Y} (event_type status details : pystr) : gen Y unit :=
  do (LogInfo (py "[" ++ event_type ++ py "] " ++ status ++ py " | " ++ details)).

(** [json.load(f)]: the text of the file, then [json.loads]. *)
Definition json_load {Y} (p : pystr) : gen Y pyval :=
  text ← read_text p;
  i ← do Python;
  of_result (loads (json_room i) (int_max_str_digits i) text).

Definition load_history {Y} : gen Y pyval :=
  try_except
    (json_load HISTORY_PATH)
    (fun e =>
       if is_exn_class FileNotFoundError e || is_exn_class JSONDecodeError e
       then log_event (py "SYSTEM") (py "历史记录加载失败") (str_exn e);;
            Return (PList [])
       else Throw e).

Definition save_history {Y} (history : pyval) : gen Y unit :=
  write_text HISTORY_PATH (iterencode 0 history).

(** The character class of the pattern in [sanitize_filename]:
    backslash, slash, star, question mark, colon, double quote, angle
    brackets and bar. *)
Definition forbidden (c : char) : bool :=
  bool_decide (c ∈ [92; 47; 42; 63; 58; 34; 60; 62; 124]).

Definition sanitize_filename (title : pystr) : pystr :=
  let sanitized := filter (fun c => forbidden c = false) (strip title) in
  take 50 sanitized.

(** [strftime] with the two formats the program uses. *)
Definition strftime_file (t : datetime) : pystr :=
  zfill 4 (of_N (year t)) ++ zfill 2 (of_N (month t)) ++ zfill 2 (of_N (day t))
  ++ py "_" ++ zfill 2 (of_N (hour t)) ++ zfill 2 (of_N (minute t))
  ++ zfill 2 (of_N (second t)).

Definition strftime_entry (t : datetime) : pystr :=
  zfill 4 (of_N (year t)) ++ py "-" ++ zfill 2 (of_N (month t)) ++ py "-"
  ++ zfill 2 (of_N (day t)) ++ py " " ++ zfill 2 (of_N (hour t)) ++ py ":"
  ++ zfill 2 (of_N (minute t)).

(** Directories are not part of the world: [safe_dir.mkdir(exist_ok=True)]
    leaves it as it is. *)
Definition safe_save {Y} (content directory filename : pystr) : gen Y pystr :=
  safe_dir ← Path.resolve directory;
  let safe_name := sanitize_filename filename in
  t ← do Now;
  let timestamp := strftime_file t in
  let save_path := Path.join safe_dir (safe_name ++ py "_" ++ timestamp ++ py ".txt") in
  write_text save_path [content];;
  Return save_path.

(** The body of [for file_path in files]. *)
Definition check_file {Y} (cfg : Config) (file_path : pystr) (_ : unit)
  : gen Y unit :=
  o ← do (FileAt file_path);
  match o with
  | None => Throw (Exn ValueError (py "文件不存在: " ++ file_path))
  | Some f =>
    if bool_decide (lower (Path.suffix file_path) ∈ ALLOWED_EXTENSIONS cfg)
    then
      if MAX_FILE_SIZE_MB cfg * 1024 * 1024 <? st_size f then
        Throw (Exn ValueError
                 (py "文件过大: " ++ Path.name file_path ++ py " ("
                  ++ of_N (st_size f / 1024 / 1024) ++ py "MB)"))
      else Return tt
    else
      Throw (Exn ValueError
               (py "不支持的文件类型: " ++ Path.suffix file_path))
  end.

Definition validate_image_files {Y} (files : list pystr) : gen Y unit :=
  cfg ← config;
  if bool_decide (files = []) then
    Throw (Exn ValueError (py "未上传任何图片"))
  else
    for_in files tt (check_file cfg).

Definition encode_image_to_base64 {Y} (image_path : pystr) : gen Y pystr :=
  try_except
    (bs ← read_bytes image_path; Return (Base64.b64encode bs))
    (fun e => log_event (py "ERROR") (py "图片编码失败") (str_exn e);; Throw e).

(** [OpenAI(base_url=..., api_key=...)]: a client that is given no key
    takes [OPENAI_API_KEY] from the environment, and the constructor
    raises when that is not set either. *)
Definition OpenAI {Y} (base_url : pystr) (api_key : option pystr)
  : gen Y client :=
  env ← do Environ;
  let api_key :=
    match api_key with
    | Some k => Some k
    | None => env !! py "OPENAI_API_KEY"
    end in
  match api_key with
  | Some k => Return (Client base_url k)
  | None =>
    Throw (Exn OpenAIError
             (py "The api_key client option must be set either by passing api_key to the client or by setting the OPENAI_API_KEY environment variable"))
  end.

(** The request that [c.chat.completions.create(...)] sends. *)
Definition request_of (c : client) (model : pystr) (messages : list message)
    (stream : bool) (temperature : option N) : request := {|
  base_url := client_base_url c; api_key := client_api_key c;
  model := model; messages := messages;
  stream := stream; temperature := temperature |}.

(** [client.chat.completions.create(..., stream=True)]: the request goes
    out; a refusal raises here, a broken stream raises when the loop over
    the response reaches the break. *)
Definition create {Y} (c : client) (model : pystr) (messages : list message)
    (stream : bool) (temperature : option N)
  : gen Y (list chunk * option exn) :=
  rep ← do (Send (request_of c model messages stream temperature));
  match rep with
  | Refused e => Throw e
  | Streaming chunks broken => Return (chunks, broken)
  end.

(** The body of [for chunk in response] in the two streaming functions:
    a chunk whose first choice carries a non-empty content extends the
    running total and yields it; [chunk.choices[0]] on a chunk without
    choices raises. *)
Definition on_chunk (chunk : chunk) (full_text : pystr) : gen pystr pystr :=
  match choices chunk with
  | [] => Throw (Exn IndexError (py "list index out of range"))
  | c :: _ =>
    match delta_content c with
    | Some ((_ :: _) as chunk_text) =>
      let full_text := full_text ++ chunk_text in
      yield full_text;; Return full_text
    | _ => Return full_text
    end
  end.

(** The loop over the response, and what follows it: a stream that was
    broken off raises when the loop asks for the next chunk. *)
Definition accumulate (response : list chunk * option exn) : gen pystr pystr :=
  full ← for_in response.1 [] on_chunk;
  match response.2 with
  | Some e => Throw e
  | None => Return full
  end.

Definition extraction_prompt : pystr :=
  py "忽略红色的批改文本和其他乱涂乱画的笔迹，提取出图片中作文的文本内容，包括作文题目和作文正文。"
  ++ py "你的回复的第一行是作文题目，接下来是作文正文，不要包含其他任何多余内容。"
  ++ py "对于文中的错别字，你无需修正，同时，输出文本的段落结构需要与作文中的段落结构保持一致".

(** The body of [for path in image_paths]. *)
Definition attach_image {Y} (path : pystr) (messages : list part)
  : gen Y (list part) :=
  base64_image ← encode_image_to_base64 path;
  Return (messages
          ++ [ImageUrlPart (py "data:image/jpeg;base64," ++ base64_image)]).

Definition stream_extract_text (image_paths : list pystr) : gen pystr pystr :=
  cfg ← config;
  client ← OpenAI (API_BASE_URL cfg) (API_KEY cfg);
  let messages := [TextPart extraction_prompt] in
  messages ← for_in image_paths messages attach_image;
  response ← create client (EXTRACTION_MODEL cfg)
    [Message (py "user") (Parts messages)] true None;
  accumulate response.

Definition prompt_path : pystr := py "prompt/prompt.txt".

Definition stream_rate_text (content : pystr) : gen pystr pystr :=
  cfg ← config;
  client ← OpenAI (API_BASE_URL cfg) (API_KEY cfg);
  try_except
    (o ← do (FileAt prompt_path);
     (if bool_decide (o = None) then
        Throw (Exn FileNotFoundError (py "评分模板文件不存在"))
      else Return tt);;
     prompt_template ← read_text prompt_path;
     response ← create client (RATING_MODEL cfg)
       [Message (py "system")
          (Plain (py "你是一位专业的语文老师，需要根据评分标准对作文进行详细批改"));
        Message (py "user")
          (Plain (prompt_template ++ [10] ++ py "作文内容如下：" ++ content))]
       true (Some 1);
     accumulate response)
    (fun e => log_event (py "ERROR") (py "评分失败") (str_exn e);; Throw e).

(** *** The click handler *)

(** The interface components that [full_process] updates. *)
Inductive component :=
| process_status | image_gallery | extracted_text | rating_result
| download_text | download_rate | history_table | history_state.

Inductive uival :=
| UText (s : pystr)
| UFiles (paths : list pystr)
| UFile (path : pystr)
| UFrame (rows : pyval)
| UState (value : pyval).

(** One yielded dict: the components to update and their new values. *)
Definition snapshot := list (component * uival).

(** Lines 339-341: the title is the first line, the content what follows
    the first newline. *)
Definition split_title (full_text : pystr) : pystr * pystr :=
  let lines := split1 10 full_text in
  let title :=
    match strip (default [] (lines !! 0%nat)) with
    | [] => py "未命名作文"
    | t => t
    end in
  let content :=
    if bool_decide (1 < length lines)%nat
    then strip (default [] (lines !! 1%nat))
    else [] in
  (title, content).

(** The dict [new_entry] of [full_process]. *)
Definition new_entry (title timestamp text_path rate_path : pystr) : pyval :=
  PDict [
    (py "title", PStr title);
    (py "timestamp", PStr timestamp);
    (py "text_path", PStr text_path);
    (py "rate_path", PStr rate_path)].

(** [type(v).__name__] *)
Definition type_name (v : pyval) : pystr :=
  match v with
  | PNone => py "NoneType"
  | PBool _ => py "bool"
  | PInt _ => py "int"
  | PFloat _ => py "float"
  | PStr _ => py "str"
  | PList _ => py "list"
  | PDict _ => py "dict"
  end.

(** [history + [new_entry]]: only a list takes a list on its right. *)
Definition list_add {Y} (history : pyval) (xs : list pyval) : gen Y pyval :=
  match history with
  | PList h => Return (PList (h ++ xs))
  | PStr _ =>
    Throw (Exn TypeError
             (py "can only concatenate str (not " ++ [34] ++ py "list"
              ++ [34] ++ py ") to str"))
  | _ =>
    Throw (Exn TypeError
             (py "unsupported operand type(s) for +: '" ++ type_name history
              ++ py "' and 'list'"))
  end.

Definition processing_snapshot (files : list pystr) : snapshot :=
  [(process_status, UText (py "**当前状态**: 正在处理图片..."));
   (image_gallery, UFiles files)].

Definition extracting_snapshot (full_text : pystr) : snapshot :=
  [(process_status, UText (py "**当前状态**: 正在提取文本..."));
   (extracted_text, UText full_text)].

Definition grading_snapshot (full_rate : pystr) : snapshot :=
  [(process_status, UText (py "**当前状态**: 正在生成批改..."));
   (rating_result, UText (py "## 批改结果" ++ [10] ++ full_rate))].

Definition done_snapshot (text_path rate_path : pystr) (updated_history : pyval)
  : snapshot :=
  [(process_status, UText (py "**当前状态**: 批改完成！"));
   (download_text, UFile text_path);
   (download_rate, UFile rate_path);
   (history_table, UFrame updated_history);
   (history_state, UState updated_history)].

Definition error_snapshot (e : exn) : snapshot :=
  [(process_status, UText (py "**错误**: " ++ str_exn e))].

(** The [try] block of [full_process]. *)
Definition process (files : list pystr) (history : pyval) : gen snapshot unit :=
  validate_image_files files;;
  yield (processing_snapshot files);;
  let text_gen := stream_extract_text files in
  full_text ← for_gen text_gen [] (fun partial_text _ =>
    let full_text := partial_text in
    yield (extracting_snapshot full_text);;
    Return full_text);
  let '(title, content) := split_title full_text in
  let rate_gen := stream_rate_text content in
  full_rate ← for_gen rate_gen [] (fun partial_rate _ =>
    let full_rate := partial_rate in
    yield (grading_snapshot full_rate);;
    Return full_rate);
  text_path ← safe_save content TEXTS_DIR title;
  rate_path ← safe_save full_rate RATES_DIR (title ++ py "_批改");
  t ← do Now;
  let new_entry := new_entry title (strftime_entry t) text_path rate_path in
  updated_history ← list_add history [new_entry];
  save_history updated_history;;
  yield (done_snapshot text_path rate_path updated_history).

(** [full_process]: the block above, and [except Exception as e]. *)
Definition full_process (files : list pystr) (history : pyval) : gen snapshot unit :=
  try_except (process files history) (fun e => yield (error_snapshot e)).

End Grader.

(** ** Vocabulary of the specification *)

Module Spec.
Import Json Grader.

(** A chunk that carries the content delta [d]. *)
Definition content_chunk (d : pystr) : chunk := Chunk [Choice (Some d)].

(** A chunk whose first choice has the content [o], possibly absent. *)
Definition chunk_of (o : option pystr) : chunk := Chunk [Choice o].

(** The content deltas the streaming loop acts on: the non-empty contents
    of the chunks, up to the first chunk that has no choice at all. *)
Fixpoint deltas (chunks : list chunk) : list pystr :=
  match chunks with
  | [] => []
  | ch :: r =>
    match choices ch with
    | [] => []
    | c :: _ =>
      match delta_content c with
      | Some (x :: d) => (x :: d) :: deltas r
      | _ => deltas r
      end
    end
  end.

(** Every chunk has a first choice. *)
Definition usable (chunks : list chunk) : bool :=
  forallb (fun ch => match choices ch with [] => false | _ => true end) chunks.

(** The running totals [acc + d1], [acc + d1 + d2], ... *)
Fixpoint totals (acc : pystr) (ds : list pystr) : list pystr :=
  match ds with
  | [] => []
  | d :: r => (acc ++ d) :: totals (acc ++ d) r
  end.

(** Each value is the one before it, starting from [prev], with a
    non-empty string appended. *)
Fixpoint grows (prev : pystr) (ys : list pystr) : Prop :=
  match ys with
  | [] => True
  | y :: r => (exists d, d ≠ [] /\ y = prev ++ d) /\ grows y r
  end.

(** The three ways in which one file of a batch is refused. *)
Definition missing (w : world) (p : pystr) : Prop := fs w !! p = None.

Definition bad_extension (p : pystr) : Prop :=
  lower (Path.suffix p) ∉ [py ".jpg"; py ".jpeg"; py ".png"].

Definition oversized (w : world) (p : pystr) : Prop :=
  exists f, fs w !! p = Some f /\ 5 * 1024 * 1024 < st_size f.

Definition offending (w : world) (p : pystr) : Prop :=
  missing w p \/ bad_extension p \/ oversized w p.

(** A history entry of the data model, and the dict that stands for it. *)
Record HistoryEntry := {
  title : pystr; timestamp : pystr; text_path : pystr; rate_path : pystr
}.

Definition entry_value (e : HistoryEntry) : pyval :=
  new_entry (title e) (timestamp e) (text_path e) (rate_path e).

Definition history_value (X : list HistoryEntry) : pyval :=
  PList (entry_value <$> X).

Definition entry_encodable (e : HistoryEntry) : Prop :=
  encodable (title e) /\ encodable (timestamp e)
  /\ encodable (text_path e) /\ encodable (rate_path e).

(** Values made of strings, booleans, [None], lists and dicts with
    distinct keys. *)
Fixpoint is_text (v : pyval) : bool :=
  match v with
  | PNone | PBool _ | PStr _ => true
  | PInt _ | PFloat _ => false
  | PList xs => forallb is_text xs
  | PDict items =>
    bool_decide (NoDup items.*1) && forallb (fun kv => is_text kv.2) items
  end.

(** All characters of the strings of a value, keys included. *)
Fixpoint chars_of (v : pyval) : pystr :=
  match v with
  | PStr s => s
  | PFloat lexeme => lexeme
  | PList xs => flat_map chars_of xs
  | PDict items => flat_map (fun kv => kv.1 ++ chars_of kv.2) items
  | _ => []
  end.

(** How deep the lists and dicts of a value nest. *)
Fixpoint depth (v : pyval) : nat :=
  match v with
  | PList xs => S (foldr (fun x n => Nat.max (depth x) n) 0%nat xs)
  | PDict items => S (foldr (fun kv n => Nat.max (depth kv.2) n) 0%nat items)
  | _ => 0%nat
  end.

(** A bound on the fuel the scanner needs for the text of a value. *)
Fixpoint cost (v : pyval) : nat :=
  match v with
  | PList xs => S (foldr (fun x n => S (cost x + n)) 0%nat xs)
  | PDict items => S (foldr (fun kv n => S (S (cost kv.2 + n))) 0%nat items)
  | _ => 1
  end.

Definition array_cost (xs : list pyval) : nat :=
  foldr (fun x n => S (cost x + n)) 0%nat xs.

Definition object_cost (items : list (pystr * pyval)) : nat :=
  foldr (fun kv n => S (S (cost kv.2 + n))) 0%nat items.

(** What the characters of an encoded value are: never a carriage return,
    and either ASCII or a character of one of its strings. *)
Definition written (R : char -> Prop) (d : char) : Prop :=
  d ≠ 13 /\ (d < 128 \/ R d).

(** The values the cumulative-yield contract promises for the deltas
    [d1, ..., dn]: [d1], [d1 + d2], ..., [d1 + ... + dn]. *)
Definition cumulative (ds : list pystr) : list pystr :=
  (fun n => concat (take n ds)) <$> seq 1 (length ds).

(** The text before the first newline. *)
Fixpoint first_line (s : pystr) : pystr :=
  match s with
  | [] => []
  | c :: r => if c =? 10 then [] else c :: first_line r
  end.

(** The message with which [validate_image_files] refuses the file [p]. *)
Definition refusal (w : world) (p : pystr) : pystr :=
  match fs w !! p with
  | None => py "文件不存在: " ++ p
  | Some f =>
    if bool_decide (bad_extension p)
    then py "不支持的文件类型: " ++ Path.suffix p
    else py "文件过大: " ++ Path.name p ++ py " ("
         ++ of_N (st_size f / 1024 / 1024) ++ py "MB)"
  end.

#[global] Instance offending_dec w p : Decision (offending w p).
Proof.
  unfold offending, missing, bad_extension, oversized.
  destruct (fs w !! p) as [f|] eqn:Hf; [|by left; left].
  destruct (decide (lower (Path.suffix p) ∈ [py ".jpg"; py ".jpeg"; py ".png"]))
    as [Hin|Hin]; [|by left; right; left].
  destruct (decide (5 * 1024 * 1024 < st_size f)) as [Hlt|Hge].
  - left. right. right. by exists f.
  - right. intros [?|[?|(f' & [= <-] & ?)]]; [done|done|lia].
Defined.

(** The key that the client of a streaming function gets: [config.API_KEY]
    or else [OPENAI_API_KEY]. *)
Definition client_key (w : world) : option pystr :=
  match API_KEY (Config_of (environ w)) with
  | Some k => Some k
  | None => environ w !! py "OPENAI_API_KEY"
  end.

(** The client can be constructed. *)
Definition configured (w : world) : Prop := is_Some (client_key w).

(** The client of the two streaming functions. *)
Definition client_of (w : world) : client :=
  Client (API_BASE_URL (Config_of (environ w))) (default [] (client_key w)).

(** Text that does not start, after whitespace, with a character that a
    JSON value can start with. *)
Definition starts_no_value (s : pystr) : Prop :=
  match skip_ws s with
  | [] => True
  | c :: _ =>
    c ∉ [34; 123; 91; 45; 48; 49; 50; 51; 52; 53; 54; 55; 56; 57;
         110; 116; 102; 78; 73]
  end.

(** The scanner stopped for lack of fuel, which is the model's own bound
    and no behaviour of [json.loads]. *)
Definition spent {A} (r : result A) : Prop := r = out_of_fuel.

(** The world after a request went out, after a line was logged, and
    after the bytes [bs] were stored at the path [p]. *)
Definition sent (r : request) (w : world) : world := (perform (Send r) w).2.

Definition logged (line : pystr) (w : world) : world :=
  (perform (LogInfo line) w).2.

Definition stored (p : pystr) (bs : bytes) (w : world) : world :=
  set_fs (fun _ => <[p := File (N.of_nat (length bs)) bs]> (fs w)) w.

(** Two worlds with the same files, endpoint, environment and calls. *)
Definition same_net (w w' : world) : Prop :=
  fs w' = fs w /\ endpoint w' = endpoint w /\ environ w' = environ w
  /\ calls w' = calls w.

(** What a streaming function has done when it ends: either it failed
    before sending anything, or it sent one request and yielded the
    running totals of the deltas it received. *)
Definition streamed (w : world) (g : gen pystr pystr) : Prop :=
  exists ys r w', run g w = (ys, r, w') /\ fs w' = fs w
  /\ endpoint w' = endpoint w
  /\ ((ys = [] /\ calls w' = calls w /\ exists e, r = Raise e)
      \/ exists req, calls w' = calls w ++ [req] /\
         match endpoint w req with
         | Refused e => ys = [] /\ r = Raise e
         | Streaming chunks broken =>
           ys = totals [] (deltas chunks) /\
           r = if usable chunks then
                 match broken with
                 | Some e => Raise e
                 | None => Ok (concat (deltas chunks))
                 end
               else Raise (Exn IndexError (py "list index out of range"))
         end).

Definition encodable_char (c : char) : Prop :=
  c < 1114112 /\ is_surrogate c = false.

(** The snapshots of a run never touch the download links or the
    history. *)
Definition persists_nothing (snaps : list snapshot) : Prop :=
  Forall (fun snap : snapshot =>
            Forall (fun c => c ∉ [download_text; download_rate;
                                  history_table; history_state]) snap.*1)
         snaps.

End Spec.

(** ** Example worlds *)

Module Examples.
Import Json Grader Spec.

Definition clock (_ : nat) : datetime := Datetime 2024 3 7 9 5 2.

(** An interpreter whose recursion limit leaves [json.load] a thousand
    levels, with the default limit on the digits of an integer. *)
Definition cpython : interpreter := Interpreter 998 4300.

(** A world with an API key in its environment. *)
Definition world_of (files : gmap pystr file) (ep : request -> reply) : world := {|
  fs := files; cwd := py "/app";
  environ := {[ py "MODELSCOPE_API_KEY" := py "sk-test" ]};
  endpoint := ep;
  calls := []; log := []; now := clock; ticks := 0; python := cpython
|}.

(** The same world without the key. *)
Definition without_key (w : world) : world :=
  World (fs w) (cwd w) ∅ (endpoint w) (calls w) (log w) (now w) (ticks w)
        (python w).

Definition rubric : file := File 6 (bytes_of_string "Rubric").

(** A photographed page of 2 KB. *)
Definition page : file := File 2048 [255; 216; 255; 224].

Definition essay_files : gmap pystr file :=
  {[ py "/tmp/a.JPG" := page; py "prompt/prompt.txt" := rubric ]}.

(** The extraction request is the one without a temperature. *)
Definition essay_endpoint (grading : reply) (r : request) : reply :=
  match temperature r with
  | None =>
    Streaming [chunk_of (Some (py "Essay A")); chunk_of None; chunk_of (Some []);
               chunk_of (Some (10 :: py "I went to school."))] None
  | Some _ => grading
  end.

(** The end-to-end scenario of the specification. *)
Definition w_essay : world :=
  world_of essay_files
    (essay_endpoint
       (Streaming [content_chunk (py "Good.");
                   content_chunk (py " Solid structure.")] None)).

(** The grading stream breaks off after its first chunk. *)
Definition connection_error : exn := Exn APIError (py "Connection error.").

Definition w_broken : world :=
  world_of essay_files
    (essay_endpoint
       (Streaming [content_chunk (py "Good.")] (Some connection_error))).

(** The rubric template is missing. *)
Definition w_no_rubric : world :=
  world_of {[ py "/tmp/a.JPG" := page ]}
    (essay_endpoint (Streaming [content_chunk (py "Good.")] None)).

(** Files that validation refuses. *)
Definition w_uploads : world :=
  world_of
    {[ py "/tmp/notes" := page; py "/tmp/draft" := page;
       py "/tmp/scan.gif" := page; py "/tmp/a.JPG" := page;
       py "/tmp/big.png" := File 6291456 [137; 80; 78; 71] ]}
    (fun _ => Refused connection_error).

(** A history file that is not UTF-8, and one that is not JSON. *)
Definition w_garbled : world :=
  world_of {[ HISTORY_PATH := File 2 [255; 254] ]}
    (fun _ => Refused connection_error).

Definition w_not_json : world :=
  world_of {[ HISTORY_PATH := File 9 (bytes_of_string "{not json") ]}
    (fun _ => Refused connection_error).

Definition w_empty : world := world_of ∅ (fun _ => Refused connection_error).

(** An empty history file, and one that opens more lists than the
    interpreter can enter. *)
Definition w_blank : world :=
  world_of {[ HISTORY_PATH := File 0 [] ]} (fun _ => Refused connection_error).

Definition w_deep : world :=
  world_of {[ HISTORY_PATH := File 1001 (replicate 1001 91) ]}
    (fun _ => Refused connection_error).

(** A history file that is one integer of 4301 digits. *)
Definition w_digits : world :=
  world_of {[ HISTORY_PATH := File 4301 (replicate 4301 49) ]}
    (fun _ => Refused connection_error).

(** Every reply starts with an empty content, as the first chunk of a
    chat-completion stream does. *)
Definition w_stutter : world :=
  world_of {[ py "prompt/prompt.txt" := rubric ]}
    (fun _ => Streaming (content_chunk <$> [[]; py "a"]) None).

Definition essay_entry : HistoryEntry := {|
  title := py "我的妈妈";
  timestamp := py "2024-03-07 09:05";
  text_path := py "/app/texts/我的妈妈_20240307_090502.txt";
  rate_path := py "/app/rates/我的妈妈_批改_20240307_090502.txt"
|}.

(** An entry whose title holds a lone surrogate, as [json.loads] returns
    it for the escape [\udc80]. *)
Definition surrogate_entry : HistoryEntry := {|
  title := [56448];
  timestamp := py "2024-03-07 09:05";
  text_path := py "/app/texts/a.txt";
  rate_path := py "/app/rates/a.txt"
|}.

(** A text written here with ['] where the file has a double quote. *)
Definition quoted (s : string) : pystr :=
  (fun c => if c =? 39 then 34 else c) <$> py s.

Definition file_of_text (s : pystr) : file :=
  let bs := default [] (utf8_encode s) in File (N.of_nat (length bs)) bs.

(** A history file, all ASCII, whose one entry has that title. *)
Definition w_escaped : world :=
  world_of
    {[ HISTORY_PATH := file_of_text (quoted
         "[{'title': '\udc80', 'timestamp': '2024-03-07 09:05', 'text_path': '/app/texts/a.txt', 'rate_path': '/app/rates/a.txt'}]") ]}
    (fun _ => Refused connection_error).

End Examples.

(** ** The stages of a run *)

Module Stages.
Import Json Grader Spec.

(** The world after one reading of the clock. *)
Definition ticked (w : world) : world := (perform Now w).2.

(** [str(Path(directory).resolve())] in the world [w]. *)
Definition resolved (w : world) (directory : pystr) : pystr :=
  Path.normal (Path.absolute (cwd w) directory).

(** The path [safe_save] builds in the world [w]. *)
Definition save_path (w : world) (directory filename : pystr) : pystr :=
  Path.join (resolved w directory)
    (sanitize_filename filename ++ py "_"
     ++ strftime_file (now w (ticks w)) ++ py ".txt").

Definition encode_error : exn :=
  Exn UnicodeEncodeError
    (py "'utf-8' codec can't encode character: surrogates not allowed").


(** Lines 353-373 of [full_process]: what follows the two streams. *)
Definition persist (title content full_rate : pystr) (history : pyval)
  : gen snapshot unit :=
  text_path ← safe_save content TEXTS_DIR title;
  rate_path ← safe_save full_rate RATES_DIR (title ++ py "_批改");
  t ← do Now;
  let new_entry := new_entry title (strftime_entry t) text_path rate_path in
  updated_history ← list_add history [new_entry];
  save_history updated_history;;
  yield (done_snapshot text_path rate_path updated_history).

(** The [try] block of [stream_rate_text]. *)
Definition rate_body (cfg : Config) (client : client) (content : pystr)
  : gen pystr pystr :=
  o ← do (FileAt prompt_path);
  (if bool_decide (o = None) then
     Throw (Exn FileNotFoundError (py "评分模板文件不存在"))
   else Return tt);;
  prompt_template ← read_text prompt_path;
  response ← create client (RATING_MODEL cfg)
    [Message (py "system")
       (Plain (py "你是一位专业的语文老师，需要根据评分标准对作文进行详细批改"));
     Message (py "user")
       (Plain (prompt_template ++ [10] ++ py "作文内容如下：" ++ content))]
    true (Some 1);
  accumulate response.

(** The request of [stream_rate_text] in the world [w] for the rubric text
    [template]. *)
Definition rating_request (w : world) (template content : pystr) : request :=
  request_of (client_of w) (RATING_MODEL (Config_of (environ w)))
    [Message (py "system")
       (Plain (py "你是一位专业的语文老师，需要根据评分标准对作文进行详细批改"));
     Message (py "user")
       (Plain (template ++ [10] ++ py "作文内容如下：" ++ content))]
    true (Some 1).

(** What the constructor of the client raises without a key. *)
Definition missing_key_error : exn :=
  Exn OpenAIError
    (py "The api_key client option must be set either by passing api_key to the client or by setting the OPENAI_API_KEY environment variable").


(** What a stream gives once the request went out: the values yielded and
    the outcome. *)
Definition received (rep : reply) : list pystr * result pystr :=
  match rep with
  | Refused e => ([], Raise e)
  | Streaming chunks broken =>
    (totals [] (deltas chunks),
     if usable chunks then
       match broken with
       | Some e => Raise e
       | None => Ok (concat (deltas chunks))
       end
     else Raise (Exn IndexError (py "list index out of range")))
  end.

(** The image part that [stream_extract_text] builds for the path [p]. *)
Definition image_part (w : world) (p : pystr) : part :=
  ImageUrlPart (py "data:image/jpeg;base64,"
                ++ Base64.b64encode (data (default (File 0 []) (fs w !! p)))).

(** The request of [stream_extract_text] for a batch whose files exist. *)
Definition extraction_request (w : world) (paths : list pystr) : request :=
  request_of (client_of w) (EXTRACTION_MODEL (Config_of (environ w)))
    [Message (py "user")
       (Parts (TextPart extraction_prompt :: (image_part w <$> paths)))]
    true None.

(** What [load_history] returns, read off the files. *)
Definition history_on_disk (i : interpreter) (files : gmap pystr file)
  : result pyval :=
  match files !! HISTORY_PATH with
  | None => Ok (PList [])
  | Some f =>
    match utf8_decode (data f) with
    | None =>
      Raise (Exn UnicodeDecodeError (py "'utf-8' codec can't decode bytes"))
    | Some s =>
      match loads (json_room i) (int_max_str_digits i) (universal_newlines s) with
      | Ok v => Ok v
      | Raise e =>
        if is_exn_class FileNotFoundError e || is_exn_class JSONDecodeError e
        then Ok (PList []) else Raise e
      end
    end
  end.

(** The line that [stream_rate_text] logs for the exception [e]. *)
Definition rating_failure_line (e : exn) : pystr :=
  py "[" ++ py "ERROR" ++ py "] " ++ py "评分失败" ++ py " | " ++ str_exn e.


End Stages.

Module Scenarios.
Import Json Grader Spec Examples Stages.

(** The endpoint refuses every request. *)
Definition w_refusing : world :=
  world_of essay_files (fun _ => Refused connection_error).

(** The extraction stream breaks off after its first chunk. *)
Definition w_cut : world :=
  world_of essay_files
    (fun _ => Streaming [content_chunk (py "Essay A")] (Some connection_error)).


(** The history file holds one entry that is not inside a list. *)
Definition w_object_history : world :=
  world_of {[ HISTORY_PATH :=
                file_of_text (dumps (entry_value essay_entry)) ]}
    (fun _ => Refused connection_error).

(** The scenario of the specification without an API key. *)
Definition w_no_key : world := without_key w_essay.



End Scenarios.

(** * Properties *)

Import Str Json Grader Spec Examples Stages Scenarios.

(** ** The UTF-8 codec *)

Ltac decide_tests :=
  repeat match goal with
  | |- context [?a <? ?b] => destruct (N.ltb_spec a b); try lia
  | |- context [?a <=? ?b] => destruct (N.leb_spec a b); try lia
  | |- context [?a =? ?b] => destruct (N.eqb_spec a b); try lia
  end.

Lemma split_digits (c k : N) :
  k ≠ 0 -> exists q m, c / k = q /\ c mod k = m /\ c = k * q + m /\ m < k.
Proof.
  intros Hk. exists (c / k), (c mod k). repeat split; try done.
  - by apply N.div_mod.
  - by apply N.mod_lt.
Qed.

Lemma utf8_decode_encode_char c bs rest :
  utf8_encode_char c = Some bs ->
  utf8_decode (bs ++ rest) = cons c <$> utf8_decode rest.
Proof.
  unfold utf8_encode_char, is_surrogate.
  destruct (N.ltb_spec c 128).
  { intros [= <-]. simpl. destruct (N.ltb_spec c 128); [done | lia]. }
  destruct (N.ltb_spec c 2048).
  { intros [= <-]. cbn [app utf8_decode]. unfold is_cont.
    destruct (split_digits c 64) as (q & m & -> & -> & Hc & Hm); [done|].
    replace ((192 + q - 192) * 64 + (128 + m - 128)) with c by lia.
    decide_tests. done. }
  destruct (N.ltb_spec c 65536).
  { destruct (N.leb_spec 55296 c), (N.leb_spec c 57343); simpl; try done;
    intros [= <-]; cbn [app utf8_decode]; unfold is_cont, is_surrogate.
    all: destruct (split_digits c 64) as (q & m & Hq & -> & Hc & Hm); [done|].
    all: rewrite Hq.
    all: destruct (split_digits q 64) as (q2 & m2 & Hq2 & -> & Hc2 & Hm2); [done|].
    all: replace (c / 4096) with q2 by (rewrite <- Hq2, <- Hq, N.Div0.div_div; done).
    all: replace ((224 + q2 - 224) * 4096 + (128 + m2 - 128) * 64 + (128 + m - 128)) with c by lia.
    all: decide_tests; done. }
  destruct (N.ltb_spec c 1114112); [|done].
  intros [= <-]; cbn [app utf8_decode]; unfold is_cont.
  destruct (split_digits c 64) as (q & m & Hq & -> & Hc & Hm); [done|].
  rewrite Hq.
  destruct (split_digits q 64) as (q2 & m2 & Hq2 & -> & Hc2 & Hm2); [done|].
  replace (c / 4096) with q2 by (rewrite <- Hq2, <- Hq, N.Div0.div_div; done).
  destruct (split_digits q2 64) as (q3 & m3 & Hq3 & -> & Hc3 & Hm3); [done|].
  replace (c / 262144) with q3
    by (rewrite <- Hq3, <- Hq2, <- Hq, !N.Div0.div_div; done).
  replace ((240 + q3 - 240) * 262144 + (128 + m3 - 128) * 4096
           + (128 + m2 - 128) * 64 + (128 + m - 128)) with c by lia.
  decide_tests; done.
Qed.

Lemma utf8_decode_encode s bs :
  utf8_encode s = Some bs -> utf8_decode bs = Some s.
Proof.
  revert bs. induction s as [|c s IH]; intros bs; simpl.
  - by intros [= <-].
  - destruct (utf8_encode_char c) as [bc|] eqn:Hc; [|done].
    destruct (utf8_encode s) as [br|]; [|done].
    intros [= <-]. rewrite (utf8_decode_encode_char _ _ _ Hc), (IH br); done.
Qed.

Lemma utf8_encode_char_is_Some c :
  c < 1114112 -> is_surrogate c = false -> is_Some (utf8_encode_char c).
Proof.
  intros Hc Hs. unfold utf8_encode_char. rewrite Hs.
  destruct (c <? 128), (c <? 2048), (c <? 65536); try by eexists.
  destruct (N.ltb_spec c 1114112); [by eexists | lia].
Qed.

Lemma utf8_encode_is_Some s : encodable s -> is_Some (utf8_encode s).
Proof.
  induction 1 as [|c s [Hc Hs] _ [br IH]]; simpl; [by eexists|].
  destruct (utf8_encode_char_is_Some c Hc Hs) as [bc ->]. rewrite IH. by eexists.
Qed.

Lemma utf8_encode_app a b :
  utf8_encode (a ++ b) =
  match utf8_encode a, utf8_encode b with
  | Some x, Some y => Some (x ++ y)
  | _, _ => None
  end.
Proof.
  induction a as [|c a IH]; simpl.
  - by destruct (utf8_encode b).
  - rewrite IH. destruct (utf8_encode_char c), (utf8_encode a), (utf8_encode b);
      try done. by rewrite app_assoc.
Qed.

(** ** Reading back what [json.dump] wrote *)

Lemma below_32 (c : N) :
  c < 32 ->
  c ∈ [0; 1; 2; 3; 4; 5; 6; 7; 8; 9; 10; 11; 12; 13; 14; 15; 16; 17; 18; 19;
       20; 21; 22; 23; 24; 25; 26; 27; 28; 29; 30; 31].
Proof.
  intros Hc. change (c ∈ (N.of_nat <$> seq 0 32)). apply list_elem_of_fmap.
  exists (N.to_nat c). split; [lia|].
  apply list_elem_of_In, in_seq. lia.
Qed.

Lemma scanstring_uXXXX h1 h2 h3 h4 uni t :
  decode_uXXXX [h1; h2; h3; h4] = Some (uni, []) ->
  uni < 55296 ->
  scanstring (92 :: 117 :: h1 :: h2 :: h3 :: h4 :: t) = scons uni (scanstring t).
Proof.
  intros Hd Hu. cbn [scanstring].
  change (92 =? 34) with false. change (92 =? 92) with true.
  change (117 =? 117) with true. cbv iota. rewrite Hd.
  destruct (N.leb_spec 55296 uni); [lia|]. done.
Qed.

Lemma scanstring_escape_char c t :
  scanstring (escape_char c ++ t) = scons c (scanstring t).
Proof.
  destruct (N.ltb_spec c 32) as [Hc|Hc].
  - apply below_32 in Hc.
    repeat (apply elem_of_cons in Hc as [->|Hc];
            [first [ apply scanstring_uXXXX; [vm_compute; reflexivity | lia]
                   | reflexivity ] |]).
    by apply elem_of_nil in Hc.
  - unfold escape_char.
    destruct (N.eqb_spec c 34) as [->|?]; [done|].
    destruct (N.eqb_spec c 92) as [->|?]; [done|].
    repeat (match goal with |- context [?a =? ?b] =>
              destruct (N.eqb_spec a b); [lia|] end).
    destruct (N.ltb_spec c 32); [lia|].
    cbn [app scanstring].
    destruct (N.eqb_spec c 34); [lia|]. destruct (N.eqb_spec c 92); [lia|].
    destruct (N.ltb_spec c 32); [lia|]. done.
Qed.

Lemma scanstring_escape s rest :
  scanstring (flat_map escape_char s ++ 34 :: rest) = Ok (s, rest).
Proof.
  induction s as [|c s IH]; [done|].
  cbn [flat_map]. rewrite <- app_assoc, scanstring_escape_char, IH. done.
Qed.

Lemma skip_ws_newline_indent level s :
  skip_ws (newline_indent level ++ s) = skip_ws s.
Proof.
  unfold newline_indent. cbn [app skip_ws].
  change (is_ws 10) with true. cbv iota.
  induction (2 * level)%nat as [|n IH]; cbn [replicate app skip_ws]; [done|].
  change (is_ws 32) with true. done.
Qed.

Lemma skip_ws_head c r : is_ws c = false -> skip_ws (c :: r) = c :: r.
Proof. intros Hc. cbn [skip_ws]. by rewrite Hc. Qed.

Lemma scan_once_unfold f room md s : scan_once (S f) room md s =
    match s with
    | [] => jerr "Expecting value"
    | c :: r =>
      if c =? 34 then
        rbind (scanstring r) (fun '(str, r') => Ok (PStr str, r'))
      else if c =? 123 then
        match room with
        | O => too_deep "object"
        | S room' =>
          match skip_ws r with
          | c1 :: r1 =>
            if c1 =? 125 then Ok (PDict [], r1)
            else if c1 =? 34 then JSONObject f room' md r1 []
            else jerr "Expecting property name enclosed in double quotes"
          | [] => jerr "Expecting property name enclosed in double quotes"
          end
        end
      else if c =? 91 then
        match room with
        | O => too_deep "array"
        | S room' =>
          match skip_ws r with
          | c1 :: r1 =>
            if c1 =? 93 then Ok (PList [], r1)
            else JSONArray f room' md (c1 :: r1) []
          | [] => jerr "Expecting value"
          end
        end
      else
        match strip_prefix (py "null") s, strip_prefix (py "true") s,
              strip_prefix (py "false") s with
        | Some r', _, _ => Ok (PNone, r')
        | _, Some r', _ => Ok (PBool true, r')
        | _, _, Some r' => Ok (PBool false, r')
        | None, None, None =>
          match match_number md s with
          | Some (res, r') => rbind res (fun v => Ok (v, r'))
          | None =>
            match strip_prefix (py "NaN") s, strip_prefix (py "Infinity") s,
                  strip_prefix (py "-Infinity") s with
            | Some r', _, _ => Ok (PFloat (py "NaN"), r')
            | _, Some r', _ => Ok (PFloat (py "Infinity"), r')
            | _, _, Some r' => Ok (PFloat (py "-Infinity"), r')
            | None, None, None => jerr "Expecting value"
            end
          end
        end
    end.
Proof. reflexivity. Qed.

Lemma scan_once_string f room md s rest :
  scan_once (S f) room md (encode_basestring s ++ rest) = Ok (PStr s, rest).
Proof.
  rewrite scan_once_unfold. unfold encode_basestring. cbn [app].
  change (34 =? 34) with true. cbv iota.
  rewrite <- app_assoc. cbn [app]. by rewrite scanstring_escape.
Qed.

Lemma concat_iterencode_list level first x r :
  concat (iterencode_list (iterencode (S level)) level first (x :: r)) =
  (if first then [91] else [44]) ++ newline_indent (S level)
  ++ concat (iterencode (S level) x)
  ++ concat (iterencode_list (iterencode (S level)) level false r).
Proof.
  cbn [iterencode_list]. rewrite concat_app.
  destruct x as [| | | | |xs|items]; cbn [is_container concat iterencode];
    rewrite ?app_nil_r, <- ?app_assoc; try done.
Qed.

Lemma concat_iterencode_dict level first k x r :
  concat (iterencode_dict (iterencode (S level)) level first ((k, x) :: r)) =
  (if first then [] else 44 :: newline_indent (S level))
  ++ encode_basestring k ++ [58; 32]
  ++ concat (iterencode (S level) x)
  ++ concat (iterencode_dict (iterencode (S level)) level false r).
Proof.
  cbn [iterencode_dict]. rewrite !concat_app.
  destruct first, x as [| | | | |xs|items]; cbn [is_container concat iterencode app];
    rewrite ?app_nil_r, <- ?app_assoc; try done.
Qed.

(** The text of a value starts with a character that is neither
    whitespace nor a closing bracket. *)
Lemma iterencode_head level v :
  is_text v = true ->
  exists c r, concat (iterencode level v) = c :: r
    /\ is_ws c = false /\ (c =? 93) = false.
Proof.
  destruct v as [|[]| | |s|[|x xs]|[|[k x] items]]; try done; intros _.
  - by exists 110, [117; 108; 108].
  - by exists 116, [114; 117; 101].
  - by exists 102, [97; 108; 115; 101].
  - eexists 34, _. by cbn.
  - by exists 91, [93].
  - eexists 91, _. split; [|done].
    change (iterencode level (PList (x :: xs)))
      with (iterencode_list (iterencode (S level)) level true (x :: xs)).
    by rewrite concat_iterencode_list.
  - by exists 123, [125].
  - eexists 123, _. by cbn.
Qed.

Lemma dict_set_fresh items k v :
  k ∉ items.*1 -> dict_set items k v = items ++ [(k, v)].
Proof.
  induction items as [|[k' v'] items IH]; [done|].
  cbn. intros [Hk Hin]%not_elem_of_cons. unfold Str.eqb.
  rewrite bool_decide_eq_false_2 by done. by rewrite IH.
Qed.

Lemma depth_list xs room :
  (depth (PList xs) <= S room)%nat ->
  Forall (fun x => (depth x <= room)%nat) xs.
Proof.
  cbn [depth]. induction xs as [|x xs IH]; cbn [foldr]; intros H;
    constructor; [lia|apply IH; lia].
Qed.

Lemma depth_dict items room :
  (depth (PDict items) <= S room)%nat ->
  Forall (fun kv => (depth kv.2 <= room)%nat) items.
Proof.
  cbn [depth]. induction items as [|kv items IH]; cbn [foldr]; intros H;
    constructor; [lia|apply IH; lia].
Qed.

Section roundtrip.
Variable n : nat.
Variable md : N.
Hypothesis IH : forall v, (cost v < n)%nat -> is_text v = true ->
  forall level fuel room rest, (cost v <= fuel)%nat -> (depth v <= room)%nat ->
  scan_once fuel room md (concat (iterencode level v) ++ rest) = Ok (v, rest).

Lemma JSONArray_items level room xs : forall x acc fuel rest,
  (array_cost (x :: xs) < n)%nat ->
  forallb is_text (x :: xs) = true ->
  Forall (fun x => (depth x <= room)%nat) (x :: xs) ->
  (array_cost (x :: xs) <= fuel)%nat ->
  JSONArray fuel room md
    (concat (iterencode (S level) x)
     ++ concat (iterencode_list (iterencode (S level)) level false xs) ++ rest)
    acc
  = Ok (PList (reverse acc ++ x :: xs), rest).
Proof.
  induction xs as [|y ys IHxs]; intros x acc fuel rest Hn Ht Hd Hf;
    cbn [array_cost foldr] in Hn, Hf; apply andb_prop in Ht as [Hx Ht];
    apply Forall_cons in Hd as [Hdx Hd];
    (destruct fuel as [|fuel]; [lia|]); cbn [JSONArray];
    rewrite IH by (done || lia); cbn [rbind].
  - cbn [iterencode_list concat]. rewrite app_nil_r, <- app_assoc.
    rewrite skip_ws_newline_indent. cbn [app]. rewrite skip_ws_head by done.
    change (93 =? 93) with true. cbv iota.
    by rewrite reverse_cons.
  - rewrite concat_iterencode_list. cbn [app skip_ws].
    change (is_ws 44) with false. change (44 =? 93) with false.
    change (44 =? 44) with true. cbv iota.
    apply andb_prop in Ht as Ht'. destruct Ht' as [Hy _].
    destruct (iterencode_head (S level) y Hy) as (c & r & Hc & Hws & _).
    rewrite <- !app_assoc, skip_ws_newline_indent, Hc. cbn [app].
    rewrite skip_ws_head by done.
    change (c :: r ++ ?t) with ((c :: r) ++ t). rewrite <- Hc.
    rewrite IHxs;
      [|cbn [array_cost foldr] in *; lia|done|done
       |cbn [array_cost foldr] in *; lia].
    by rewrite reverse_cons, <- app_assoc.
Qed.

Lemma JSONObject_items level room items : forall k x acc fuel rest,
  (object_cost ((k, x) :: items) < n)%nat ->
  forallb (fun kv => is_text kv.2) ((k, x) :: items) = true ->
  Forall (fun kv => (depth kv.2 <= room)%nat) ((k, x) :: items) ->
  NoDup (acc.*1 ++ k :: items.*1) ->
  (object_cost ((k, x) :: items) <= fuel)%nat ->
  JSONObject fuel room md
    (flat_map escape_char k ++ 34 :: 58 :: 32
     :: concat (iterencode (S level) x)
     ++ concat (iterencode_dict (iterencode (S level)) level false items)
     ++ rest)
    acc
  = Ok (PDict (acc ++ (k, x) :: items), rest).
Proof.
  induction items as [|[k' x'] items IHitems];
    intros k x acc fuel rest Hn Ht Hd Hnd Hf;
    cbn [object_cost foldr snd] in Hn, Hf; apply andb_prop in Ht as [Hx Ht];
    apply Forall_cons in Hd as [Hdx Hd];
    cbn [snd] in Hx, Hdx;
    (destruct fuel as [|fuel]; [lia|]); cbn [JSONObject];
    rewrite scanstring_escape; cbn [rbind];
    rewrite skip_ws_head by done;
    change (58 =? 58) with true; cbv iota;
    destruct (iterencode_head (S level) x Hx) as (c & r & Hc & Hws & _);
    cbn [skip_ws]; change (is_ws 32) with true; cbv iota;
    rewrite Hc; cbn [app]; rewrite skip_ws_head by done;
    change (c :: r ++ ?t) with ((c :: r) ++ t); rewrite <- Hc;
    rewrite IH by (done || lia); cbn [rbind];
    (rewrite dict_set_fresh;
     [|apply NoDup_app in Hnd as (_ & Hnd & _); intros Hin;
       apply (Hnd k Hin); left]).
  - cbn [iterencode_dict concat]. rewrite app_nil_r, <- app_assoc.
    rewrite skip_ws_newline_indent. cbn [app]. rewrite skip_ws_head by done.
    change (125 =? 125) with true. cbv iota. done.
  - rewrite concat_iterencode_dict. cbn [app]. rewrite skip_ws_head by done.
    change (44 =? 125) with false. change (44 =? 44) with true. cbv iota.
    rewrite <- !app_assoc, skip_ws_newline_indent.
    unfold encode_basestring. cbn [app]. rewrite skip_ws_head by done.
    change (34 =? 34) with true. cbv iota.
    rewrite <- !app_assoc. cbn [app].
    rewrite IHitems.
    + by rewrite <- app_assoc.
    + cbn [object_cost foldr snd] in *. lia.
    + done.
    + done.
    + rewrite fmap_app, <- app_assoc. done.
    + cbn [object_cost foldr snd] in *. lia.
Qed.
End roundtrip.

Lemma cost_pos v : (0 < cost v)%nat.
Proof. destruct v; cbn; lia. Qed.

Lemma scan_once_iterencode md n : forall v,
  (cost v < n)%nat -> is_text v = true ->
  forall level fuel room rest, (cost v <= fuel)%nat -> (depth v <= room)%nat ->
  scan_once fuel room md (concat (iterencode level v) ++ rest) = Ok (v, rest).
Proof.
  induction n as [|n IHn]; [lia|].
  assert (IH: forall v, (cost v < n)%nat -> is_text v = true ->
    forall level fuel room rest, (cost v <= fuel)%nat -> (depth v <= room)%nat ->
    scan_once fuel room md (concat (iterencode level v) ++ rest) = Ok (v, rest)).
  { intros v Hv. apply IHn. lia. } clear IHn.
  intros v Hn Ht level fuel room rest Hf Hd.
  destruct fuel as [|fuel]; [pose proof (cost_pos v); lia|].
  destruct v as [|[]| | |s|[|x xs]|[|[k x] items]]; try done.
  - cbn [iterencode encode_atom concat]. rewrite app_nil_r. apply scan_once_string.
  - destruct room as [|room]; [cbn in Hd; lia|done].
  - destruct room as [|room]; [cbn [depth] in Hd; lia|].
    apply depth_list in Hd.
    change (iterencode level (PList (x :: xs)))
      with (iterencode_list (iterencode (S level)) level true (x :: xs)).
    rewrite concat_iterencode_list, scan_once_unfold. cbn [app].
    change (91 =? 34) with false. change (91 =? 123) with false.
    change (91 =? 91) with true. cbv iota.
    cbn [is_text] in Ht. apply andb_prop in Ht as Ht'. destruct Ht' as [Hx _].
    destruct (iterencode_head (S level) x Hx) as (c & r & Hc & Hws & Hc93).
    rewrite <- !app_assoc, skip_ws_newline_indent, Hc. cbn [app].
    rewrite skip_ws_head by done. rewrite Hc93.
    change (c :: r ++ ?t) with ((c :: r) ++ t). rewrite <- Hc.
    cbn [cost] in Hn, Hf. fold (array_cost (x :: xs)) in Hn, Hf.
    rewrite (JSONArray_items n md IH); [done|lia|done|done|lia].
  - destruct room as [|room]; [cbn in Hd; lia|done].
  - destruct room as [|room]; [cbn [depth] in Hd; lia|].
    apply depth_dict in Hd.
    cbn [iterencode concat]. rewrite scan_once_unfold. cbn [app].
    change (123 =? 34) with false. change (123 =? 123) with true. cbv iota.
    rewrite <- app_assoc, skip_ws_newline_indent.
    rewrite concat_iterencode_dict. unfold encode_basestring. cbn [app].
    rewrite skip_ws_head by done.
    change (34 =? 125) with false. change (34 =? 34) with true. cbv iota.
    rewrite <- !app_assoc. cbn [app]. rewrite <- !app_assoc.
    cbn [is_text] in Ht. apply andb_prop in Ht as [Hnd Ht].
    apply bool_decide_eq_true in Hnd.
    cbn [cost] in Hn, Hf. fold (object_cost ((k, x) :: items)) in Hn, Hf.
    rewrite (JSONObject_items n md IH); [done|lia|done|done|done|lia].
Qed.

(** Induction on a value whose elements satisfy the property. *)
Lemma pyval_nested_ind (P : pyval -> Prop) :
  P PNone -> (forall b, P (PBool b)) -> (forall z, P (PInt z)) ->
  (forall l, P (PFloat l)) -> (forall s, P (PStr s)) ->
  (forall xs, Forall P xs -> P (PList xs)) ->
  (forall items, Forall (fun kv => P kv.2) items -> P (PDict items)) ->
  forall v, P v.
Proof.
  intros HN HB HI HF HS HL HD.
  fix IH 1. intros [| b | z | l | s | xs | items].
  - exact HN.
  - apply HB.
  - apply HI.
  - apply HF.
  - apply HS.
  - apply HL. induction xs as [|x xs IHxs]; constructor; [apply IH | apply IHxs].
  - apply HD. induction items as [|[k x] items IHi]; constructor;
      [apply IH | apply IHi].
Qed.

Lemma length_newline_indent level : (0 < length (newline_indent level))%nat.
Proof. cbn. lia. Qed.

Lemma cost_le_length v : is_text v = true -> forall level,
  (cost v <= length (concat (iterencode level v)))%nat.
Proof.
  induction v as [| b | z | l | s | xs IHxs | items IHitems]
    using pyval_nested_ind; intros Ht level.
  - vm_compute; lia.
  - destruct b; vm_compute; lia.
  - done.
  - done.
  - cbn. lia.
  - destruct xs as [|x xs]; [vm_compute; lia|].
    change (iterencode level (PList (x :: xs)))
      with (iterencode_list (iterencode (S level)) level true (x :: xs)).
    cbn [cost]. fold (array_cost (x :: xs)).
    cut (forall first, (array_cost (x :: xs) + 1 <=
      length (concat (iterencode_list (iterencode (S level)) level first (x :: xs))))%nat).
    { intros H. specialize (H true). lia. }
    cbn [is_text] in Ht. revert IHxs Ht. generalize (x :: xs). clear x xs.
    induction 1 as [|x xs Hx _ IH]; intros Ht first.
    + cbn. lia.
    + apply andb_prop in Ht as [Hxt Ht].
      rewrite concat_iterencode_list, !length_app.
      specialize (IH Ht false). specialize (Hx Hxt (S level)).
      pose proof (length_newline_indent (S level)).
      unfold array_cost in *. cbn [foldr] in *. destruct first; cbn [length]; lia.
  - destruct items as [|[k x] items]; [vm_compute; lia|].
    cbn [iterencode concat cost]. fold (object_cost ((k, x) :: items)).
    rewrite !length_app.
    cut (forall first, (object_cost ((k, x) :: items) + 1 <=
      length (concat (iterencode_dict (iterencode (S level)) level first ((k, x) :: items))))%nat).
    { intros H. specialize (H true). cbn [length]. lia. }
    cbn [is_text] in Ht. apply andb_prop in Ht as [_ Ht].
    revert IHitems Ht. generalize ((k, x) :: items). clear k x items.
    induction 1 as [|[k x] items Hx _ IH]; intros Ht first.
    + cbn. lia.
    + apply andb_prop in Ht as [Hxt Ht]. cbn [snd] in *.
      rewrite concat_iterencode_dict, !length_app.
      specialize (IH Ht false). specialize (Hx Hxt (S level)).
      unfold encode_basestring. cbn [length]. rewrite length_app.
      unfold object_cost in *. cbn [foldr snd length] in *. destruct first; cbn [length]; lia.
Qed.

Lemma loads_dumps room md v :
  is_text v = true -> (depth v <= room)%nat -> loads room md (dumps v) = Ok v.
Proof.
  intros Ht Hd. unfold loads, dumps.
  destruct (iterencode_head 0 v Ht) as (c & r & Hc & Hws & _).
  assert (Hbom: c ≠ 65279).
  { clear -Hc Ht. destruct v as [|[]| | |s|[|x xs]|[|[k x] items]]; try done;
      try (injection Hc as <- _; done).
    change (iterencode 0 (PList (x :: xs)))
      with (iterencode_list (iterencode 1) 0 true (x :: xs)) in Hc.
    rewrite concat_iterencode_list in Hc. injection Hc as <- _; done. }
  pose proof (cost_le_length v Ht 0) as Hcost.
  pose proof (scan_once_iterencode md (S (cost v)) v (Nat.lt_succ_diag_r _) Ht 0
                (2 * length (concat (iterencode 0 v)) + 2) room []) as Hs.
  rewrite app_nil_r in Hs.
  rewrite Hc in *. cbn [is_prefix].
  destruct (N.eqb_spec 65279 c) as [|_]; [done|]. cbn [andb].
  rewrite skip_ws_head by done. rewrite Hs by (done || lia). done.
Qed.

(** ** The fuel of the scanner *)

Lemma skip_ws_length s : (length (skip_ws s) <= length s)%nat.
Proof.
  induction s as [|c s IH]; [done|]. cbn [skip_ws].
  destruct (is_ws c); cbn [length]; lia.
Qed.

Lemma scons_Ok c res k r :
  scons c res = Ok (k, r) -> exists k', res = Ok (k', r).
Proof. destruct res as [[k' r']|e]; [|done]. intros [= _ <-]. by eexists. Qed.

Lemma scanstring_length n : forall s k r,
  (length s <= n)%nat -> scanstring s = Ok (k, r) ->
  (length r < length s)%nat.
Proof.
  induction n as [|n IH]; intros s k r Hn.
  - destruct s; [done|cbn in Hn; lia].
  - destruct s as [|c s]; [done|]. cbn [scanstring].
    repeat match goal with
    | |- context [match ?x with _ => _ end] => destruct x eqn:?
    end; try done;
    try (intros [= _ <-]; cbn [length]; lia);
    intros [k' Hk']%scons_Ok; apply IH in Hk';
      cbn [length] in *; lia.
Qed.

Lemma strip_prefix_length w : forall s r,
  strip_prefix w s = Some r -> length s = (length w + length r)%nat.
Proof.
  induction w as [|a w IH]; intros s r; cbn [strip_prefix].
  - by intros [= ->].
  - destruct s as [|b s]; [done|]. destruct (a =? b); [|done].
    intros H%IH. cbn [length]. lia.
Qed.

Lemma span_length p s : (length (span p s).2 <= length s)%nat.
Proof.
  induction s as [|c s IH]; [done|]. cbn [span].
  destruct (p c); [|done]. destruct (span p s) as [a b]. cbn [snd length] in *. lia.
Qed.

Lemma match_integer_length s i r :
  match_integer s = Some (i, r) -> (length r < length s)%nat.
Proof.
  unfold match_integer.
  assert (forall (sign t : pystr), (length t <= length s)%nat ->
    match t with
    | d :: r' =>
      if d =? 48 then Some (sign ++ [48], r')
      else if is_digit d then
        let '(ds, r'') := span is_digit r' in Some (sign ++ d :: ds, r'')
      else None
    | [] => None
    end = Some (i, r) -> (length r < length s)%nat) as Hgo.
  { intros sign [|d t] Ht; [done|]. cbn [length] in Ht.
    destruct (d =? 48); [intros [= _ <-]; lia|].
    destruct (is_digit d); [|done].
    pose proof (span_length is_digit t). destruct (span is_digit t) as [ds r''].
    cbn [snd] in *. intros [= _ <-]. lia. }
  destruct s as [|c s']; [done|]. destruct (c =? 45); cbv beta iota.
  - apply (Hgo [45]). cbn [length]. lia.
  - exact (Hgo [] (c :: s') (le_n _)).
Qed.

Lemma match_frac_length s : (length (match_frac s).2 <= length s)%nat.
Proof.
  unfold match_frac. destruct s as [|c s]; [done|]. destruct (c =? 46); [|done].
  pose proof (span_length is_digit s). destruct (span is_digit s) as [[|d ds] r];
    cbn [snd length] in *; lia.
Qed.

Lemma match_exp_length s : (length (match_exp s).2 <= length s)%nat.
Proof.
  unfold match_exp. destruct s as [|e s]; [done|].
  destruct ((e =? 101) || (e =? 69)); [|done].
  assert (forall (sg t : pystr), (length t <= length s)%nat ->
    (length (match span is_digit t with
             | ([], _) => ([], e :: s)
             | (ds, r2) => (e :: sg ++ ds, r2)
             end).2 <= length (e :: s))%nat) as Hgo.
  { intros sg t Ht. pose proof (span_length is_digit t).
    destruct (span is_digit t) as [[|d ds] r]; cbn [snd length] in *; lia. }
  destruct s as [|c s']; [exact (Hgo [] [] (le_n _))|].
  destruct ((c =? 45) || (c =? 43)); cbv beta iota.
  - apply (Hgo [c]). cbn [length]. lia.
  - exact (Hgo [] (c :: s') (le_n _)).
Qed.

Lemma match_number_length md s res r :
  match_number md s = Some (res, r) -> (length r < length s)%nat.
Proof.
  unfold match_number.
  destruct (match_integer s) as [[i r0]|] eqn:Hi; [|done].
  apply match_integer_length in Hi.
  pose proof (match_frac_length r0). destruct (match_frac r0) as [f r1].
  pose proof (match_exp_length r1). destruct (match_exp r1) as [e r2].
  cbn [snd] in *. destruct f, e; intros [= _ <-]; lia.
Qed.

Lemma jerr_not_spent {A} msg : ~ @spent A (jerr msg).
Proof. intros H. discriminate H. Qed.

Lemma too_deep_not_spent {A} what :
  what = "array"%string \/ what = "object"%string -> ~ @spent A (too_deep what).
Proof.
  intros [-> | ->] H; unfold spent, too_deep, out_of_fuel in H;
    injection H as H; vm_compute in H; discriminate H.
Qed.

Lemma scons_Raise c res e : scons c res = Raise e -> res = Raise e.
Proof. by destruct res as [[k r]|e']; [|intros [= ->]]. Qed.

Lemma scanstring_error n : forall s e,
  (length s <= n)%nat -> scanstring s = Raise e -> exn_type e = JSONDecodeError.
Proof.
  induction n as [|n IH]; intros s e Hn.
  - destruct s; [by intros [= <-]|cbn in Hn; lia].
  - destruct s as [|c s]; [by intros [= <-]|]. cbn [scanstring].
    repeat match goal with
    | |- context [match ?x with _ => _ end] => destruct x eqn:?
    end; try done; try (by intros [= <-]);
    intros Hk'%scons_Raise;
    (apply IH in Hk'; [done|cbn [length] in *; lia]).
Qed.

Lemma scanstring_not_spent {A} s e :
  scanstring s = Raise e -> ~ @spent A (Raise e).
Proof.
  intros He%(scanstring_error (length s)); [|done]. intros H.
  injection H as ->. done.
Qed.

Lemma match_number_not_spent {A} md s res r e :
  match_number md s = Some (res, r) -> res = Raise e -> ~ @spent A (Raise e).
Proof.
  unfold match_number.
  destruct (match_integer s) as [[i r0]|]; [|done].
  destruct (match_frac r0) as [f r1]. destruct (match_exp r1) as [ex r2].
  assert (rbind (int_of md i) (fun z => Ok (PInt z)) = Raise e ->
          ~ @spent A (Raise e)) as Hint.
  { unfold int_of. destruct i as [|c ds]; cbn [length];
      [destruct ((0 <? md) && _); [|done]; by intros [= <-] H|].
    destruct (c =? 45); (destruct ((0 <? md) && _); [|done]);
      by intros [= <-] H. }
  destruct f, ex; intros [= <- <-]; try done; apply Hint.
Qed.

Lemma scanner_fuel md : forall fuel,
  (forall room s, (2 * length s + 2 <= fuel)%nat ->
     ~ spent (scan_once fuel room md s)
     /\ forall v r, scan_once fuel room md s = Ok (v, r) ->
                    (length r < length s)%nat)
  /\ (forall room s acc, (2 * length s + 3 <= fuel)%nat ->
     ~ spent (JSONArray fuel room md s acc)
     /\ forall v r, JSONArray fuel room md s acc = Ok (v, r) ->
                    (length r < length s)%nat)
  /\ (forall room s acc, (2 * length s + 3 <= fuel)%nat ->
     ~ spent (JSONObject fuel room md s acc)
     /\ forall v r, JSONObject fuel room md s acc = Ok (v, r) ->
                    (length r < length s)%nat).
Proof.
  induction fuel as [|fuel (IHs & IHa & IHo)].
  { repeat split; intros; lia. }
  split; [|split].
  - intros room s Hf. rewrite scan_once_unfold.
    destruct s as [|c t]; [split; [apply jerr_not_spent|done]|].
    cbn [length] in Hf.
    destruct (c =? 34).
    { destruct (scanstring t) as [[str r']|e] eqn:Hs; cbn [rbind].
      - split; [done|]. intros v r [= <- <-].
        apply (scanstring_length (length t)) in Hs; [cbn [length]; lia|done].
      - split; [by eapply scanstring_not_spent|done]. }
    destruct (c =? 123).
    { destruct room as [|room]; [split; [apply too_deep_not_spent; by right|done]|].
      pose proof (skip_ws_length t).
      destruct (skip_ws t) as [|c1 r1]; [split; [apply jerr_not_spent|done]|].
      cbn [length] in *.
      destruct (c1 =? 125); [split; [done|intros v r [= <- <-]; lia]|].
      destruct (c1 =? 34); [|split; [apply jerr_not_spent|done]].
      destruct (IHo room r1 []) as [Hn Hl]; [lia|].
      split; [done|]. intros v r Hr%Hl. lia. }
    destruct (c =? 91).
    { destruct room as [|room]; [split; [apply too_deep_not_spent; by left|done]|].
      pose proof (skip_ws_length t).
      destruct (skip_ws t) as [|c1 r1]; [split; [apply jerr_not_spent|done]|].
      cbn [length] in *.
      destruct (c1 =? 93); [split; [done|intros v r [= <- <-]; lia]|].
      destruct (IHa room (c1 :: r1) []) as [Hn Hl]; [cbn [length]; lia|].
      split; [done|]. intros v r Hr%Hl. cbn [length] in *. lia. }
    destruct (strip_prefix (py "null") (c :: t)) as [r'|] eqn:H1.
    { apply strip_prefix_length in H1. change (length (py "null")) with 4%nat in H1.
      split; [done|]. intros v r [= <- <-]. lia. }
    destruct (strip_prefix (py "true") (c :: t)) as [r'|] eqn:H2.
    { apply strip_prefix_length in H2. change (length (py "true")) with 4%nat in H2.
      split; [done|]. intros v r [= <- <-]. lia. }
    destruct (strip_prefix (py "false") (c :: t)) as [r'|] eqn:H3.
    { apply strip_prefix_length in H3. change (length (py "false")) with 5%nat in H3.
      split; [done|]. intros v r [= <- <-]. lia. }
    destruct (match_number md (c :: t)) as [[res r']|] eqn:Hm.
    { pose proof (match_number_length _ _ _ _ Hm).
      destruct res as [v'|e] eqn:Hres; cbn [rbind].
      - split; [done|]. by intros v r [= <- <-].
      - split; [by eapply (match_number_not_spent md (c :: t))|done]. }
    destruct (strip_prefix (py "NaN") (c :: t)) as [r'|] eqn:H4.
    { apply strip_prefix_length in H4. change (length (py "NaN")) with 3%nat in H4.
      split; [done|]. intros v r [= <- <-]. lia. }
    destruct (strip_prefix (py "Infinity") (c :: t)) as [r'|] eqn:H5.
    { apply strip_prefix_length in H5.
      change (length (py "Infinity")) with 8%nat in H5.
      split; [done|]. intros v r [= <- <-]. lia. }
    destruct (strip_prefix (py "-Infinity") (c :: t)) as [r'|] eqn:H6.
    { apply strip_prefix_length in H6.
      change (length (py "-Infinity")) with 9%nat in H6.
      split; [done|]. intros v r [= <- <-]. lia. }
    split; [apply jerr_not_spent|done].
  - intros room s acc Hf. cbn [JSONArray].
    destruct (IHs room s) as [Hn Hl]; [lia|].
    destruct (scan_once fuel room md s) as [[v r]|e]; cbn [rbind]; [|done].
    specialize (Hl v r eq_refl). pose proof (skip_ws_length r).
    destruct (skip_ws r) as [|c r1]; [split; [apply jerr_not_spent|done]|].
    cbn [length] in *.
    destruct (c =? 93); [split; [done|intros v' r' [= <- <-]; lia]|].
    destruct (c =? 44); [|split; [apply jerr_not_spent|done]].
    pose proof (skip_ws_length r1).
    destruct (IHa room (skip_ws r1) (v :: acc)) as [Hn' Hl']; [lia|].
    split; [done|]. intros v' r' Hr%Hl'. lia.
  - intros room s acc Hf. cbn [JSONObject].
    destruct (scanstring s) as [[key r]|e] eqn:Hs; cbn [rbind];
      [|split; [by eapply scanstring_not_spent|done]].
    apply (scanstring_length (length s)) in Hs; [|done].
    pose proof (skip_ws_length r).
    destruct (skip_ws r) as [|c r1]; [split; [apply jerr_not_spent|done]|].
    cbn [length] in *.
    destruct (c =? 58); [|split; [apply jerr_not_spent|done]].
    pose proof (skip_ws_length r1).
    destruct (IHs room (skip_ws r1)) as [Hn Hl]; [lia|].
    destruct (scan_once fuel room md (skip_ws r1)) as [[v r2]|e]; cbn [rbind];
      [|done].
    specialize (Hl v r2 eq_refl). pose proof (skip_ws_length r2).
    destruct (skip_ws r2) as [|c2 r3]; [split; [apply jerr_not_spent|done]|].
    cbn [length] in *.
    destruct (c2 =? 125); [split; [done|intros v' r' [= <- <-]; lia]|].
    destruct (c2 =? 44); [|split; [apply jerr_not_spent|done]].
    pose proof (skip_ws_length r3).
    destruct (skip_ws r3) as [|c3 r4]; [split; [apply jerr_not_spent|done]|].
    cbn [length] in *.
    destruct (c3 =? 34); [|split; [apply jerr_not_spent|done]].
    destruct (IHo room r4 (dict_set acc key v)) as [Hn' Hl']; [lia|].
    split; [done|]. intros v' r' Hr%Hl'. lia.
Qed.

(** [loads] never fails for lack of fuel: a [RecursionError] it gives is
    the interpreter's. *)
Lemma loads_fuel room md s : ~ spent (loads room md s).
Proof.
  unfold loads. destruct (is_prefix [65279] s); [apply jerr_not_spent|].
  pose proof (skip_ws_length s).
  destruct (proj1 (scanner_fuel md (2 * length s + 2)) room (skip_ws s))
    as [Hn _]; [lia|].
  destruct (scan_once _ room md (skip_ws s)) as [[v r]|e]; cbn [rbind].
  - destruct (skip_ws r); [done|apply jerr_not_spent].
  - intros Hs. apply Hn. injection Hs as ->. reflexivity.
Qed.

(** ** The characters [json.dump] writes *)

Lemma written_ascii R (l : pystr) :
  forallb (fun d => negb (d =? 13) && (d <? 128)) l = true ->
  Forall (written R) l.
Proof.
  intros H. apply Forall_forall. intros d Hd%list_elem_of_In.
  rewrite forallb_forall in H. apply H in Hd.
  apply andb_prop in Hd as [H1 H2]. split.
  - by destruct (N.eqb_spec d 13).
  - left. by apply N.ltb_lt.
Qed.

Lemma escape_char_written R c : R c -> Forall (written R) (escape_char c).
Proof.
  intros Hc. destruct (N.ltb_spec c 32) as [Hlt|Hge].
  - apply below_32 in Hlt.
    repeat (apply elem_of_cons in Hlt as [->|Hlt];
            [by apply written_ascii; vm_compute|]).
    by apply elem_of_nil in Hlt.
  - unfold escape_char.
    destruct (N.eqb_spec c 34); [by apply written_ascii|].
    destruct (N.eqb_spec c 92); [by apply written_ascii|].
    repeat (match goal with |- context [?a =? ?b] =>
              destruct (N.eqb_spec a b); [lia|] end).
    destruct (N.ltb_spec c 32); [lia|].
    constructor; [|done]. split; [lia | by right].
Qed.

Lemma encode_basestring_written R s :
  Forall R s -> Forall (written R) (encode_basestring s).
Proof.
  intros Hs. unfold encode_basestring. constructor; [split; [done|by left]|].
  apply Forall_app. split; [|by apply written_ascii].
  induction Hs as [|c s Hc _ IH]; cbn [flat_map]; [done|].
  apply Forall_app. split; [by apply escape_char_written | done].
Qed.

Lemma newline_indent_written R level : Forall (written R) (newline_indent level).
Proof.
  unfold newline_indent. constructor; [split; [done|by left]|].
  apply Forall_replicate. split; [done|by left].
Qed.

Lemma iterencode_written R v : is_text v = true -> Forall R (chars_of v) ->
  forall level, Forall (written R) (concat (iterencode level v)).
Proof.
  induction v as [| b | z | l | s | xs IHxs | items IHitems]
    using pyval_nested_ind; intros Ht Hs level.
  - by apply written_ascii.
  - destruct b; by apply written_ascii.
  - done.
  - done.
  - cbn [iterencode encode_atom concat]. rewrite app_nil_r.
    by apply encode_basestring_written.
  - destruct xs as [|x xs]; [by apply written_ascii|].
    change (iterencode level (PList (x :: xs)))
      with (iterencode_list (iterencode (S level)) level true (x :: xs)).
    cbn [is_text chars_of] in Ht, Hs. generalize true.
    revert IHxs Ht Hs. generalize (x :: xs). clear x xs.
    induction 1 as [|x xs Hx _ IH]; intros Ht Hs first.
    + cbn [iterencode_list concat]. rewrite app_nil_r.
      apply Forall_app. split; [apply newline_indent_written|by apply written_ascii].
    + apply andb_prop in Ht as [Hxt Ht]. cbn [flat_map] in Hs.
      apply Forall_app in Hs as [Hsx Hs].
      rewrite concat_iterencode_list. rewrite !Forall_app. repeat split.
      * destruct first; by apply written_ascii.
      * apply newline_indent_written.
      * by apply Hx.
      * by apply IH.
  - destruct items as [|[k x] items]; [by apply written_ascii|].
    cbn [iterencode concat]. constructor; [split; [done|by left]|].
    apply Forall_app. split; [apply newline_indent_written|].
    cbn [is_text chars_of] in Ht, Hs. apply andb_prop in Ht as [_ Ht].
    generalize true.
    revert IHitems Ht Hs. generalize ((k, x) :: items). clear k x items.
    induction 1 as [|[k x] items Hx _ IH]; intros Ht Hs first.
    + cbn [iterencode_dict concat]. rewrite app_nil_r.
      apply Forall_app. split; [apply newline_indent_written|by apply written_ascii].
    + apply andb_prop in Ht as [Hxt Ht]. cbn [flat_map fst snd] in Hs, Hxt, Hx.
      apply Forall_app in Hs as [Hsx Hs]. apply Forall_app in Hsx as [Hk Hsx].
      rewrite concat_iterencode_dict. rewrite !Forall_app. repeat split.
      * destruct first; [done|].
        constructor; [split; [done|by left]|apply newline_indent_written].
      * by apply encode_basestring_written.
      * by apply written_ascii.
      * by apply Hx.
      * by apply IH.
Qed.

(** ** Running a body *)

Lemma run_bind {Y A B} (g : gen Y A) (f : A -> gen Y B) w :
  run (bind g f) w =
  match run g w with
  | (ys, Ok a, w1) => let '(ys2, r, w2) := run (f a) w1 in (ys ++ ys2, r, w2)
  | (ys, Raise e, w1) => (ys, Raise e, w1)
  end.
Proof.
  revert w. induction g as [a|e|y k IH|X op k IH]; intros w; cbn [bind run].
  - by destruct (run (f a) w) as [[ys r] w'].
  - done.
  - rewrite IH. destruct (run k w) as [[ys [a|e]] w1]; [|done].
    by destruct (run (f a) w1) as [[ys2 r] w2].
  - destruct (perform op w) as [x w']. apply IH.
Qed.

Lemma run_mbind {Y A B} (g : gen Y A) (f : A -> gen Y B) w :
  run (g ≫= f) w =
  match run g w with
  | (ys, Ok a, w1) => let '(ys2, r, w2) := run (f a) w1 in (ys ++ ys2, r, w2)
  | (ys, Raise e, w1) => (ys, Raise e, w1)
  end.
Proof. apply run_bind. Qed.

Lemma run_try_except {Y A} (g : gen Y A) (h : exn -> gen Y A) w :
  run (try_except g h) w =
  match run g w with
  | (ys, Ok a, w1) => (ys, Ok a, w1)
  | (ys, Raise e, w1) => let '(ys2, r, w2) := run (h e) w1 in (ys ++ ys2, r, w2)
  end.
Proof.
  revert w. induction g as [a|e|y k IH|X op k IH]; intros w; cbn [try_except run].
  - done.
  - by destruct (run (h e) w) as [[ys r] w'].
  - rewrite IH. destruct (run k w) as [[ys [a|e]] w1]; [done|].
    by destruct (run (h e) w1) as [[ys2 r] w2].
  - destruct (perform op w) as [x w']. apply IH.
Qed.

(** A loop over a generator whose body only records the value and yields
    its image: the loop yields the images and keeps the last value. *)
Lemma run_for_gen {Y A Z S} (g : gen Y A) (s : S) (body : Y -> S -> gen Z S)
    (f : Y -> Z) (h : Y -> S) w :
  (forall y s, body y s = Yield (f y) (Return (h y))) ->
  run (for_gen g s body) w =
  match run g w with
  | (ys, r, w1) =>
    (f <$> ys,
     match r with
     | Ok _ => Ok (default s (h <$> last ys))
     | Raise e => Raise e
     end, w1)
  end.
Proof.
  intros Hbody. revert s w.
  induction g as [a|e|y k IH|X op k IH]; intros s w; cbn [for_gen run].
  - done.
  - done.
  - rewrite Hbody. cbn [bind run]. rewrite IH.
    destruct (run k w) as [[ys r] w1]. cbn [fmap list_fmap].
    f_equal. f_equal. destruct r; [|done]. f_equal.
    destruct ys as [|y' ys]; [done|]. rewrite last_cons_cons.
    destruct (last (y' :: ys)) eqn:Hl; [done|]. by apply last_None in Hl.
  - destruct (perform op w) as [x w']. apply IH.
Qed.

(** ** The streaming functions *)

Lemma run_chunks chunks : forall full w,
  run (for_in chunks full on_chunk) w =
  (totals full (deltas chunks),
   if usable chunks then Ok (full ++ concat (deltas chunks))
   else Raise (Exn IndexError (py "list index out of range")),
   w).
Proof.
  induction chunks as [|[[|[[[|x d]|]] cs]] chunks IH]; intros full w;
    cbn [for_in]; rewrite ?run_bind; cbn [on_chunk choices delta_content run deltas usable forallb totals concat andb].
  - by rewrite app_nil_r.
  - done.
  - rewrite IH. done.
  - cbn [mbind gen_bind yield bind run]. rewrite IH. by rewrite <- app_assoc.
  - rewrite IH. done.
Qed.

Lemma run_accumulate chunks broken w :
  run (accumulate (chunks, broken)) w =
  (totals [] (deltas chunks),
   if usable chunks then
     match broken with
     | Some e => Raise e
     | None => Ok (concat (deltas chunks))
     end
   else Raise (Exn IndexError (py "list index out of range")),
   w).
Proof.
  unfold accumulate. rewrite run_mbind. cbn [fst snd].
  change (for_in chunks [] _) with (for_in chunks [] on_chunk).
  rewrite run_chunks. destruct (usable chunks); [|done].
  destruct broken; cbn; by rewrite app_nil_r.
Qed.

Lemma same_net_refl w : same_net w w.
Proof. done. Qed.

Lemma same_net_logged line w : same_net w (logged line w).
Proof. done. Qed.

Lemma same_net_trans w1 w2 w3 : same_net w1 w2 -> same_net w2 w3 -> same_net w1 w3.
Proof. intros (?&?&?&?) (?&?&?&?). repeat split; congruence. Qed.

Lemma run_config {Y} w : run (@config Y) w = ([], Ok (Config_of (environ w)), w).
Proof. done. Qed.

Lemma run_log_event {Y} a b c w :
  exists line, run (@log_event Y a b c) w = ([], Ok tt, logged line w).
Proof. by eexists. Qed.

Lemma run_encode_image {Y} p w :
  exists r w', run (@encode_image_to_base64 Y p) w = ([], r, w')
    /\ same_net w w'
    /\ (forall f, fs w !! p = Some f -> r = Ok (Base64.b64encode (data f)) /\ w' = w)
    /\ (fs w !! p = None -> exists e, r = Raise e).
Proof.
  unfold encode_image_to_base64. rewrite run_try_except, run_mbind.
  unfold read_bytes, no_such_file. rewrite run_mbind. cbn [do run perform].
  destruct (fs w !! p) as [f|] eqn:Hf; cbn [run app].
  - eexists _, _. split; [done|]. split; [done|]. split; [|done]. by intros ? [= <-].
  - rewrite run_mbind.
    destruct (run_log_event (Y:=Y) (py "ERROR") (py "图片编码失败")
                (str_exn (Exn FileNotFoundError
                   (py "[Errno 2] No such file or directory: '" ++ p ++ py "'"))) w)
      as [line ->].
    cbn [run app]. eexists _, _. split; [done|]. split; [apply same_net_logged|].
    split; [done|]. by eexists.
Qed.

Lemma run_image_loop {Y} paths : forall msgs w,
  exists r w', run (for_in paths msgs (@attach_image Y)) w = ([], r, w')
    /\ same_net w w'
    /\ (Forall (fun p => is_Some (fs w !! p)) paths -> w' = w /\ exists m, r = Ok m).
Proof.
  induction paths as [|p paths IH]; intros msgs w; cbn [for_in].
  - eexists _, _. split; [done|]. split; [done|]. intros _. split; [done|by eexists].
  - rewrite run_bind. unfold attach_image at 1. rewrite run_mbind.
    destruct (run_encode_image (Y:=Y) p w) as (r & w1 & -> & Hnet & Hok & Hbad).
    destruct r as [b|e]; cbn [run app].
    + destruct (IH (msgs ++ [ImageUrlPart (py "data:image/jpeg;base64," ++ b)]) w1)
        as (r2 & w2 & -> & Hnet2 & Hok2).
      eexists _, _. split; [done|]. split; [by eapply same_net_trans|].
      intros [[f Hf] Hall]%Forall_cons. destruct (Hok f Hf) as [_ ->].
      by apply Hok2.
    + eexists _, _. split; [done|]. split; [done|].
      intros [[f Hf] Hall]%Forall_cons. by destruct (Hok f Hf) as [? _].
Qed.

Lemma run_create {Y} c m msgs st t w :
  run (@create Y c m msgs st t) w =
  ([], match endpoint w (request_of c m msgs st t) with
       | Refused e => Raise e
       | Streaming chunks broken => Ok (chunks, broken)
       end, sent (request_of c m msgs st t) w).
Proof.
  unfold create. rewrite run_mbind. cbn [do run perform app].
  by destruct (endpoint w (request_of c m msgs st t)).
Qed.

Lemma run_OpenAI {Y} w :
  run (@OpenAI Y (API_BASE_URL (Config_of (environ w)))
                 (API_KEY (Config_of (environ w)))) w
  = ([], match client_key w with
         | Some _ => Ok (client_of w)
         | None => Raise missing_key_error
         end, w).
Proof.
  unfold OpenAI, client_of, client_key. rewrite run_mbind.
  cbn [do run perform app].
  destruct (API_KEY (Config_of (environ w))) as [k|]; [done|].
  by destruct (environ w !! py "OPENAI_API_KEY").
Qed.

Lemma stream_extract_text_streamed paths w : streamed w (stream_extract_text paths).
Proof.
  unfold streamed, stream_extract_text. rewrite run_mbind, run_config.
  cbn [app]. rewrite run_mbind, run_OpenAI.
  destruct (client_key w) as [key|];
    [|eexists _, _, _; split; [done|]; repeat split; [done..|]; left; eauto].
  cbn [app]. rewrite run_mbind.
  change (for_in paths ?m _) with (for_in paths m (@attach_image pystr)).
  destruct (run_image_loop (Y:=pystr) paths [TextPart extraction_prompt] w)
    as (r & w1 & -> & (Hfs & Hep & Henv & Hcalls) & _).
  destruct r as [msgs|e]; cbn [app].
  - rewrite run_mbind, run_create. rewrite Hep.
    match goal with |- context [endpoint w ?r] => set (req := r) end.
    destruct (endpoint w req) as [e|chunks broken] eqn:Hreq; cbn [app].
    + eexists _, _, _. split; [done|]. repeat split; [done..|].
      right. exists req. cbn. rewrite Hcalls, Hreq. done.
    + rewrite run_accumulate.
      eexists _, _, _. split; [done|]. repeat split; [done..|].
      right. exists req. cbn. rewrite Hcalls, Hreq. done.
  - eexists _, _, _. split; [done|]. repeat split; [done..|]. left. eauto.
Qed.


Lemma run_read_text {Y} p w :
  run (@read_text Y p) w =
  ([], match fs w !! p with
       | None => Raise (Exn FileNotFoundError
                   (py "[Errno 2] No such file or directory: '" ++ p ++ py "'"))
       | Some f =>
         match utf8_decode (data f) with
         | None => Raise (Exn UnicodeDecodeError (py "'utf-8' codec can't decode bytes"))
         | Some s => Ok (universal_newlines s)
         end
       end, w).
Proof.
  unfold read_text, no_such_file. rewrite run_mbind. cbn [do run perform app].
  destruct (fs w !! p) as [f|]; [|done]. by destruct (utf8_decode (data f)).
Qed.

Lemma stream_rate_text_streamed content w :
  streamed w (stream_rate_text content)
  /\ (fs w !! prompt_path = None -> configured w ->
      exists line,
      run (stream_rate_text content) w =
      ([], Raise (Exn FileNotFoundError (py "评分模板文件不存在")), logged line w)).
Proof.
  unfold streamed, stream_rate_text. rewrite run_mbind, run_config. cbn [app].
  rewrite run_mbind, run_OpenAI. unfold configured.
  destruct (client_key w) as [key|]; cbn [app];
    [|split; [|by intros _ [? ?]];
      eexists _, _, _; split; [done|]; repeat split; [done..|]; left; eauto].
  rewrite run_try_except, run_mbind. cbn [do run perform app].
  destruct (fs w !! prompt_path) as [f|] eqn:Hf.
  - split; [|done].
    rewrite bool_decide_eq_false_2 by done. rewrite run_mbind. cbn [run app].
    rewrite run_mbind, run_read_text, Hf.
    destruct (utf8_decode (data f)) as [template|]; cbn [app].
    + rewrite run_mbind, run_create.
      match goal with |- context [endpoint w ?r] => set (req := r) end.
      destruct (endpoint w req) as [e|chunks broken] eqn:Hreq; cbn [app].
      * rewrite run_mbind.
        destruct (run_log_event (Y:=pystr) (py "ERROR") (py "评分失败") (str_exn e)
                    (sent req w)) as [line ->].
        cbn [run app]. eexists _, _, _. split; [done|]. repeat split; [done..|].
        right. exists req. cbn. by rewrite Hreq, ?Hu.
      * rewrite run_accumulate.
        destruct (usable chunks) eqn:Hu; [destruct broken as [e|]|]; cbn [app].
        -- rewrite run_mbind.
           destruct (run_log_event (Y:=pystr) (py "ERROR") (py "评分失败") (str_exn e)
                       (sent req w)) as [line ->].
           cbn [run app]. rewrite app_nil_r.
           eexists _, _, _. split; [done|]. repeat split; [done..|].
           right. exists req. cbn. by rewrite Hreq, ?Hu.
        -- eexists _, _, _. split; [done|]. repeat split; [done..|].
           right. exists req. cbn. by rewrite Hreq, ?Hu.
        -- rewrite run_mbind.
           match goal with |- context [log_event ?a ?b ?c] =>
             destruct (run_log_event (Y:=pystr) a b c (sent req w)) as [line ->] end.
           cbn [run app]. rewrite app_nil_r.
           eexists _, _, _. split; [done|]. repeat split; [done..|].
           right. exists req. cbn. by rewrite Hreq, ?Hu.
    + rewrite run_mbind.
      match goal with |- context [log_event ?a ?b ?c] =>
        destruct (run_log_event (Y:=pystr) a b c w) as [line ->] end.
      cbn [run app]. eexists _, _, _. split; [done|]. repeat split; [done..|].
      left. eauto.
  - rewrite bool_decide_eq_true_2 by done. rewrite run_mbind. cbn [run app].
    rewrite run_mbind.
    match goal with |- context [log_event ?a ?b ?c] =>
      destruct (run_log_event (Y:=pystr) a b c w) as [line ->] end.
    cbn [run app]. split.
    + eexists _, _, _. split; [done|]. repeat split; [done..|]. left. eauto.
    + intros _ _. by exists line.
Qed.

(** Without a key the constructor of the client raises, and nothing else
    happens. *)
Lemma run_without_key w paths content g :
  g = stream_extract_text paths \/ g = stream_rate_text content ->
  client_key w = None ->
  run g w = ([], Raise missing_key_error, w).
Proof.
  intros [->| ->] Hk.
  - unfold stream_extract_text. rewrite run_mbind, run_config. cbn [app].
    by rewrite run_mbind, run_OpenAI, Hk.
  - unfold stream_rate_text. rewrite run_mbind, run_config. cbn [app].
    by rewrite run_mbind, run_OpenAI, Hk.
Qed.


(** ** Validation, file by file *)

Lemma run_check_file {Y} w p env :
  run (@check_file Y (Config_of env) p tt) w =
  ([], if offending_dec w p then Raise (Exn ValueError (refusal w p)) else Ok tt, w).
Proof.
  unfold check_file, refusal. rewrite run_mbind. cbn [do run perform app].
  destruct (offending_dec w p) as [Hoff|Hok];
    unfold offending, missing, bad_extension, oversized in *;
    cbn [ALLOWED_EXTENSIONS MAX_FILE_SIZE_MB Config_of];
    destruct (fs w !! p) as [f|]; try done.
  - case_bool_decide as Hext.
    + rewrite bool_decide_eq_false_2 by (by intros ?).
      destruct Hoff as [?|[?|(f' & [= <-] & Hlt)]]; [done|done|].
      by destruct (N.ltb_spec (5 * 1024 * 1024) (st_size f)); [|lia].
    + by rewrite bool_decide_eq_true_2.
  - case_bool_decide as Hext.
    + destruct (N.ltb_spec (5 * 1024 * 1024) (st_size f)); [|done].
      exfalso. apply Hok. right. right. by exists f.
    + exfalso. apply Hok. by right; left.
  - exfalso. apply Hok. by left.
Qed.

Lemma run_validate_ok {Y} env files w :
  Forall (fun p => ~ offending w p) files ->
  run (for_in files tt (@check_file Y (Config_of env))) w = ([], Ok tt, w).
Proof.
  induction 1 as [|p files Hp _ IH]; [done|].
  cbn [for_in]. rewrite run_bind, run_check_file.
  destruct (offending_dec w p); [done|]. by rewrite IH.
Qed.

Lemma run_validate_refused {Y} env ok p rest w :
  Forall (fun p => ~ offending w p) ok -> offending w p ->
  run (for_in (ok ++ p :: rest) tt (@check_file Y (Config_of env))) w =
  ([], Raise (Exn ValueError (refusal w p)), w).
Proof.
  intros Hok Hp. induction Hok as [|q ok Hq _ IH]; cbn [app for_in];
    rewrite run_bind, run_check_file.
  - by destruct (offending_dec w p).
  - destruct (offending_dec w q); [done|]. by rewrite IH.
Qed.

(** A batch with an offending file splits at the first one. *)
Lemma first_offending w files :
  Exists (offending w) files ->
  exists ok p rest, files = ok ++ p :: rest
    /\ Forall (fun p => ~ offending w p) ok /\ offending w p.
Proof.
  induction files as [|q files IH]; intros Hex; [by apply Exists_nil in Hex|].
  destruct (offending_dec w q) as [Hq|Hq].
  - by exists [], q, files.
  - apply Exists_cons in Hex as [?|Hex]; [done|].
    destruct (IH Hex) as (ok & p & rest & -> & Hok & Hp).
    exists (q :: ok), p, rest. split; [done|]. split; [by constructor|done].
Qed.

Lemma run_validate_image_files {Y} files w :
  run (@validate_image_files Y files) w =
  ([], (run (@validate_image_files Y files) w).1.2, w)
  /\ (files = [] ->
      outcome (@validate_image_files Y files) w
      = Raise (Exn ValueError (py "未上传任何图片")))
  /\ (files ≠ [] -> Forall (fun p => ~ offending w p) files ->
      outcome (@validate_image_files Y files) w = Ok tt)
  /\ (forall ok p rest, files = ok ++ p :: rest ->
      Forall (fun p => ~ offending w p) ok -> offending w p ->
      outcome (@validate_image_files Y files) w
      = Raise (Exn ValueError (refusal w p))).
Proof.
  unfold outcome, validate_image_files. rewrite run_mbind, run_config. cbn [app].
  change (for_in files tt _)
    with (for_in files tt (@check_file Y (Config_of (environ w)))).
  case_bool_decide as Hnil.
  - subst files. cbn [run fst snd]. repeat split; try done.
    intros ok p rest Heq. by destruct ok.
  - destruct (decide (Exists (offending w) files)) as [Hex|Hall].
    + destruct (first_offending w files Hex) as (ok & p & rest & -> & Hok & Hp).
      rewrite run_validate_refused by done. cbn [fst snd].
      repeat split; try done.
      * intros _ Hall. apply Forall_app in Hall as [_ Hall].
        by apply Forall_cons in Hall as [? _].
      * intros ok' p' rest' Heq Hok' Hp'.
        assert (ok' = ok /\ p' = p) as [-> ->]; [|done].
        clear -Heq Hok Hp Hok' Hp'. revert ok' Heq Hok'.
        induction Hok as [|q ok Hq _ IH]; intros [|q' ok'] Heq Hok'; cbn in Heq.
        -- by injection Heq as -> _.
        -- injection Heq as -> _. by apply Forall_cons in Hok' as [? _].
        -- injection Heq as -> _. done.
        -- injection Heq as -> Heq. apply Forall_cons in Hok' as [_ Hok'].
           by destruct (IH ok' Heq Hok') as [-> ->].
    + apply not_Exists_Forall in Hall; [|intros p; apply offending_dec].
      rewrite run_validate_ok by done. cbn [fst snd]. repeat split; try done.
      intros ok p rest -> _ Hp. apply Forall_app in Hall as [_ Hall].
      apply Forall_cons in Hall as [Hnp _]. done.
Qed.


(** ** The pipeline when a stage fails *)

Lemma run_validate_unchanged {Y} files w :
  run (@validate_image_files Y files) w
  = ([], outcome (@validate_image_files Y files) w, w).
Proof. apply run_validate_image_files. Qed.

Lemma full_process_validation_fails files history w e :
  outcome (@validate_image_files snapshot files) w = Raise e ->
  run (full_process files history) w = ([error_snapshot e], Ok tt, w).
Proof.
  intros He. unfold full_process, process.
  rewrite run_try_except, run_mbind, run_validate_unchanged, He. done.
Qed.

Lemma full_process_grading_fails files history w full e :
  outcome (@validate_image_files snapshot files) w = Ok tt ->
  outcome (stream_extract_text files) w = Ok full ->
  outcome (stream_rate_text
             (split_title (default [] (last (yields (stream_extract_text files) w)))).2)
          (after (stream_extract_text files) w) = Raise e ->
  run (full_process files history) w =
  (processing_snapshot files
   :: (extracting_snapshot <$> yields (stream_extract_text files) w)
   ++ (grading_snapshot <$>
         yields (stream_rate_text
           (split_title (default [] (last (yields (stream_extract_text files) w)))).2)
           (after (stream_extract_text files) w))
   ++ [error_snapshot e],
   Ok tt,
   after (stream_rate_text
           (split_title (default [] (last (yields (stream_extract_text files) w)))).2)
         (after (stream_extract_text files) w)).
Proof.
  unfold outcome, yields, after. intros Hv He Hr.
  unfold full_process, process.
  rewrite run_try_except, run_mbind, run_validate_unchanged.
  unfold outcome. rewrite Hv. rewrite run_mbind. cbn [yield run app].
  rewrite run_mbind.
  rewrite (run_for_gen _ _ _ extracting_snapshot id) by done.
  destruct (run (stream_extract_text files) w) as [[ys r] w1].
  cbn [fst snd] in *. subst r. cbn [fmap option_fmap option_map id].
  replace (default [] (id <$> last ys)) with (default [] (last ys))
    by (by destruct (last ys)).
  destruct (split_title (default [] (last ys))) as [title content].
  cbn [snd] in *. rewrite run_mbind.
  rewrite (run_for_gen _ _ _ grading_snapshot id) by done.
  destruct (run (stream_rate_text content) w1) as [[ys2 r2] w2].
  cbn [fst snd] in *. subst r2. cbn [run app]. by rewrite <- app_assoc.
Qed.

(** ** Writing and reading the history file *)

Lemma run_write_chunks {Y} p chunks : forall d w bs,
  utf8_encode (concat chunks) = Some bs ->
  run (for_in chunks tt (fun c _ => @write Y p c)) (stored p d w)
  = ([], Ok tt, stored p (d ++ bs) w).
Proof.
  induction chunks as [|c chunks IH]; intros d w bs Hbs; cbn [for_in concat] in *.
  - injection Hbs as <-. by rewrite app_nil_r.
  - rewrite utf8_encode_app in Hbs.
    destruct (utf8_encode c) as [bc|] eqn:Hc; [|done].
    destruct (utf8_encode (concat chunks)) as [br|] eqn:Hr; [|done].
    injection Hbs as <-. rewrite run_bind. unfold write at 1. rewrite Hc.
    cbn [do run perform app].
    replace (set_fs (partial_alter (append_file bc) p) (stored p d w))
      with (stored p (d ++ bc) w).
    + rewrite (IH _ _ br) by done. by rewrite app_assoc.
    + unfold stored, set_fs. cbn [fs cwd environ endpoint calls log now ticks].
      f_equal. rewrite partial_alter_insert_eq. cbn [append_file default st_size data].
      by rewrite length_app, Nat2N.inj_add.
Qed.

Lemma run_write_text {Y} p chunks w bs :
  utf8_encode (concat chunks) = Some bs ->
  run (@write_text Y p chunks) w = ([], Ok tt, stored p bs w).
Proof.
  intros Hbs. unfold write_text. rewrite run_mbind. cbn [do run perform app].
  change (set_fs <[p:=File 0 []]> w) with (stored p [] w).
  by rewrite (run_write_chunks p chunks [] w bs).
Qed.

Lemma universal_newlines_id s : 13 ∉ s -> universal_newlines s = s.
Proof.
  induction s as [|c s IH]; [done|]. intros [Hc Hs]%not_elem_of_cons.
  cbn [universal_newlines]. destruct (N.eqb_spec c 13); [done|]. by rewrite IH.
Qed.

Lemma written_encodable s : Forall (written encodable_char) s -> encodable s.
Proof.
  intros Hs. eapply Forall_impl; [exact Hs|].
  intros d [_ [Hd|Hd]]; [|done]. split; [lia|].
  unfold is_surrogate. destruct (N.leb_spec 55296 d); [lia|done].
Qed.

Lemma written_no_cr R s : Forall (written R) s -> 13 ∉ s.
Proof. intros Hs Hin. by destruct (proj1 (Forall_forall _ _) Hs 13 Hin). Qed.

Lemma run_json_load {Y} p w :
  run (@json_load Y p) w =
  ([], match fs w !! p with
       | None => Raise (Exn FileNotFoundError
                   (py "[Errno 2] No such file or directory: '" ++ p ++ py "'"))
       | Some f =>
         match utf8_decode (data f) with
         | None => Raise (Exn UnicodeDecodeError (py "'utf-8' codec can't decode bytes"))
         | Some s =>
           loads (json_room (python w)) (int_max_str_digits (python w))
                 (universal_newlines s)
         end
       end, w).
Proof.
  unfold json_load. rewrite run_mbind, run_read_text.
  destruct (fs w !! p) as [f|]; [|done].
  destruct (utf8_decode (data f)) as [s|]; [|done].
  cbn [app]. rewrite run_mbind. cbn [do run perform app].
  by destruct (loads _ _ _).
Qed.

(** Saving a value made of strings, nested no deeper than a history, and
    then reading the file back gives the value again. *)
Lemma save_then_load {Y} (v : pyval) w :
  is_text v = true -> encodable (chars_of v) -> (depth v <= 2)%nat ->
  exists bs,
    run (@save_history Y v) w = ([], Ok tt, stored HISTORY_PATH bs w)
    /\ run (@load_history Y) (stored HISTORY_PATH bs w)
       = ([], Ok v, stored HISTORY_PATH bs w).
Proof.
  intros Ht Hs Hd.
  pose proof (iterencode_written encodable_char v Ht Hs 0) as Hw.
  destruct (utf8_encode_is_Some _ (written_encodable _ Hw)) as [bs Hbs].
  exists bs. split.
  - unfold save_history. by apply run_write_text.
  - unfold load_history. rewrite run_try_except, run_json_load.
    unfold stored at 1. cbn [set_fs fs]. rewrite lookup_insert_eq. cbn [data].
    rewrite (utf8_decode_encode _ _ Hbs).
    rewrite universal_newlines_id by (by eapply written_no_cr).
    fold (dumps v). rewrite loads_dumps; [done|done|].
    unfold json_room. cbn [python stored set_fs]. lia.
Qed.


(** ** The cumulative-yield contract *)

Lemma totals_cumulative ds : forall acc,
  totals acc ds = (fun n => acc ++ concat (take n ds)) <$> seq 1 (length ds).
Proof.
  induction ds as [|d ds IH]; intros acc; [done|].
  cbn [totals length seq fmap list_fmap take concat]. rewrite app_nil_r. f_equal.
  rewrite IH, <- (fmap_S_seq 1), <- list_fmap_compose. apply list_fmap_ext.
  intros i n _. cbn. by rewrite app_assoc.
Qed.

Lemma totals_nil_cumulative ds : totals [] ds = cumulative ds.
Proof. by rewrite totals_cumulative. Qed.

Lemma length_cumulative ds : length (cumulative ds) = length ds.
Proof. unfold cumulative. by rewrite length_fmap, length_seq. Qed.

Lemma cumulative_lookup ds n :
  (1 <= n <= length ds)%nat ->
  cumulative ds !! (n - 1)%nat = Some (concat (take n ds)).
Proof.
  intros Hn. unfold cumulative. rewrite list_lookup_fmap.
  rewrite lookup_seq_lt by lia. cbn. do 3 f_equal. lia.
Qed.

Lemma cumulative_last ds : ds ≠ [] -> last (cumulative ds) = Some (concat ds).
Proof.
  intros Hds. rewrite last_lookup, length_cumulative.
  replace (pred (length ds)) with (length ds - 1)%nat by lia.
  rewrite cumulative_lookup, firstn_all; [done|].
  destruct ds; [done|]. cbn. lia.
Qed.

Lemma deltas_nonempty chunks : Forall (fun d => d ≠ []) (deltas chunks).
Proof.
  induction chunks as [|[[|[[[|x d]|]] cs]] chunks IH]; cbn [deltas choices delta_content];
    try done. by constructor.
Qed.

Lemma deltas_chunk_of os :
  deltas (chunk_of <$> os) = filter (fun d => d ≠ []) (omap id os).
Proof.
  induction os as [|[[|x d]|] os IH]; cbn [fmap list_fmap deltas chunk_of choices delta_content omap list_omap id];
    [done| | |done].
  - rewrite filter_cons_False by (by intros ?). done.
  - rewrite filter_cons_True by done. by rewrite <- IH.
Qed.

Lemma grows_totals ds : forall acc,
  Forall (fun d => d ≠ []) ds -> grows acc (totals acc ds).
Proof.
  induction ds as [|d ds IH]; intros acc Hds; [done|].
  apply Forall_cons in Hds as [Hd Hds]. cbn [totals grows]. split; [by exists d|].
  by apply IH.
Qed.

(** Among running totals of non-empty deltas every earlier value is a
    proper prefix of every later one. *)
Lemma totals_prefix ds : forall acc i j yi yj,
  Forall (fun d => d ≠ []) ds -> (i < j)%nat ->
  totals acc ds !! i = Some yi -> totals acc ds !! j = Some yj ->
  exists d, d ≠ [] /\ yj = yi ++ d.
Proof.
  induction ds as [|d ds IH]; intros acc i j yi yj Hds Hij Hi Hj; [done|].
  apply Forall_cons in Hds as [Hd Hds]. cbn [totals] in Hi, Hj.
  destruct j as [|j]; [lia|]. cbn in Hj. destruct i as [|i].
  - injection Hi as <-. clear IH Hij. revert j yj Hj.
    generalize (acc ++ d) as a. induction ds as [|d' ds IH']; intros a j yj Hj; [done|].
    apply Forall_cons in Hds as [Hd' Hds]. cbn [totals] in Hj.
    destruct j as [|j]; cbn in Hj.
    + injection Hj as <-. by exists d'.
    + destruct (IH' Hds _ _ _ Hj) as (e & He & ->).
      exists (d' ++ e). split; [by destruct d'|]. by rewrite app_assoc.
  - cbn in Hi. eapply IH; [done| |done..]. lia.
Qed.

Lemma streamed_call w g r chunks broken :
  streamed w g ->
  calls (after g w) = calls w ++ [r] ->
  endpoint w r = Streaming chunks broken ->
  yields g w = totals [] (deltas chunks)
  /\ outcome g w =
     (if usable chunks then
        match broken with
        | Some e => Raise e
        | None => Ok (concat (deltas chunks))
        end
      else Raise (Exn IndexError (py "list index out of range"))).
Proof.
  intros (ys & res & w' & Hrun & _ & _ & Hcase). unfold after, yields, outcome.
  rewrite Hrun. cbn [fst snd]. intros Hcalls Hrep.
  destruct Hcase as [(_ & Hc & _)|(req & Hc & Hm)].
  - rewrite Hc in Hcalls. apply (f_equal length) in Hcalls.
    rewrite length_app in Hcalls. cbn in Hcalls. lia.
  - rewrite Hc in Hcalls. apply app_inv_head in Hcalls. injection Hcalls as ->.
    by rewrite Hrep in Hm.
Qed.

Lemma streamed_yields w g :
  streamed w g -> exists ds, Forall (fun d => d ≠ []) ds /\ yields g w = totals [] ds.
Proof.
  intros (ys & res & w' & Hrun & _ & _ & Hcase). unfold yields. rewrite Hrun.
  cbn [fst]. destruct Hcase as [(-> & _)|(req & _ & Hm)]; [by exists []|].
  destruct (endpoint w req) as [e|chunks broken].
  - destruct Hm as [-> _]. by exists [].
  - destruct Hm as [-> _]. exists (deltas chunks). split; [apply deltas_nonempty|done].
Qed.

Lemma streaming_functions_streamed w paths content g :
  g = stream_extract_text paths \/ g = stream_rate_text content -> streamed w g.
Proof.
  intros [->| ->]; [apply stream_extract_text_streamed|apply stream_rate_text_streamed].
Qed.

(** C1, as amended. For a streamed call, of extraction or of grading, let
    d1, ..., dn be the non-empty content deltas of the chunks that come
    before the first chunk without a choice; they are all the non-empty
    deltas when every chunk has a choice.  The n-th value the generator
    yields is d1 + ... + dn and the last value it yields is their
    concatenation.  When every chunk has a choice and the stream ends
    normally, that is the whole response and the value returned; at a
    chunk without a choice the generator raises [IndexError] instead. *)
Theorem cumulative_yield (w : world) (paths : list pystr) (content : pystr)
    (g : gen pystr pystr) (r : request) (chunks : list chunk)
    (broken : option exn) :
  g = stream_extract_text paths \/ g = stream_rate_text content ->
  calls (after g w) = calls w ++ [r] ->
  endpoint w r = Streaming chunks broken ->
  let ds := deltas chunks in
  yields g w = cumulative ds
  /\ (forall n, (1 <= n <= length ds)%nat ->
      yields g w !! (n - 1)%nat = Some (concat (take n ds)))
  /\ (ds ≠ [] -> last (yields g w) = Some (concat ds))
  /\ (usable chunks = true -> broken = None -> outcome g w = Ok (concat ds))
  /\ (usable chunks = false ->
      outcome g w = Raise (Exn IndexError (py "list index out of range")))
  /\ (forall os, chunks = chunk_of <$> os ->
      usable chunks = true /\ ds = filter (fun d => d ≠ []) (omap id os)).
Proof.
  intros Hg Hcalls Hrep ds.
  destruct (streamed_call w g r chunks broken
              (streaming_functions_streamed w paths content g Hg) Hcalls Hrep)
    as [Hys Hout].
  rewrite totals_nil_cumulative in Hys. fold ds in Hys, Hout. rewrite Hys.
  split; [done|]. split; [apply cumulative_lookup|]. split; [apply cumulative_last|].
  split; [intros Hu ->; by rewrite Hout, Hu|].
  split; [intros Hu; by rewrite Hout, Hu|].
  intros os ->. split; [|apply deltas_chunk_of].
  clear. induction os as [|o os IH]; [done|]. by destruct o as [[|]|].
Qed.

(** C1, as stated, fails when a delta is the empty string: the loop skips
    it, so for an empty delta followed by the delta [a] both generators
    yield once, and the first value yielded is [a], not the empty string. *)
Lemma cumulative_yield_counterexample :
  let ds := [[]; py "a"] in
  endpoint w_stutter (Request [] [] [] [] true None)
  = Streaming (content_chunk <$> ds) None
  /\ cumulative ds = [[]; py "a"]
  /\ yields (stream_extract_text []) w_stutter = [py "a"]
  /\ yields (stream_extract_text []) w_stutter ≠ cumulative ds
  /\ yields (stream_rate_text (py "body")) w_stutter = [py "a"]
  /\ yields (stream_rate_text (py "body")) w_stutter ≠ cumulative ds.
Proof. by vm_compute. Qed.

(** C10. In both streaming generators every yielded value is the value
    yielded before it (the empty string for the first) with a non-empty
    string appended, so every earlier value is a proper prefix of every
    later one; a chunk whose content is empty or absent yields nothing. *)
Theorem yields_strictly_grow (w : world) (paths : list pystr) (content : pystr)
    (g : gen pystr pystr) :
  g = stream_extract_text paths \/ g = stream_rate_text content ->
  grows [] (yields g w)
  /\ (forall i j yi yj, (i < j)%nat ->
      yields g w !! i = Some yi -> yields g w !! j = Some yj ->
      exists d, d ≠ [] /\ yj = yi ++ d)
  /\ (forall r os broken,
      calls (after g w) = calls w ++ [r] ->
      endpoint w r = Streaming (chunk_of <$> os) broken ->
      yields g w = totals [] (filter (fun d => d ≠ []) (omap id os))).
Proof.
  intros Hg. pose proof (streaming_functions_streamed w paths content g Hg) as Hs.
  destruct (streamed_yields w g Hs) as (ds & Hds & Hys). rewrite Hys.
  split; [by apply grows_totals|]. split.
  - intros i j yi yj. by apply totals_prefix.
  - intros r os broken Hcalls Hrep.
    destruct (streamed_call w g r _ broken Hs Hcalls Hrep) as [Hys' _].
    by rewrite <- Hys, Hys', deltas_chunk_of.
Qed.


(** ** Titles and file names *)

Lemma lstrip_spec s :
  exists l, s = l ++ lstrip s /\ Forall (fun c => isspace c = true) l
    /\ (forall c, head (lstrip s) = Some c -> isspace c = false).
Proof.
  induction s as [|c s (l & Hs & Hl & Hh)]; [by exists []|].
  cbn [lstrip]. destruct (isspace c) eqn:Hc.
  - exists (c :: l). split; [by rewrite Hs at 1|]. split; [by constructor|done].
  - exists []. split; [done|]. split; [done|]. by intros c' [= <-].
Qed.

Lemma lstrip_suffix s : lstrip s `suffix_of` s.
Proof. destruct (lstrip_spec s) as (l & Hs & _). by exists l. Qed.

Lemma rstrip_spec s :
  exists r, s = rstrip s ++ r /\ Forall (fun c => isspace c = true) r
    /\ (forall c, last (rstrip s) = Some c -> isspace c = false).
Proof.
  unfold rstrip. destruct (lstrip_spec (reverse s)) as (l & Hs & Hl & Hh).
  exists (reverse l). split; [|split].
  - rewrite <- reverse_app, <- Hs. by rewrite reverse_involutive.
  - by apply Forall_reverse.
  - intros c. rewrite last_reverse. apply Hh.
Qed.

(** [strip] removes whitespace from both ends, and only that. *)
Lemma strip_spec s :
  exists l r, s = l ++ strip s ++ r
    /\ Forall (fun c => isspace c = true) l
    /\ Forall (fun c => isspace c = true) r
    /\ (forall c, head (strip s) = Some c -> isspace c = false)
    /\ (forall c, last (strip s) = Some c -> isspace c = false).
Proof.
  unfold strip. destruct (rstrip_spec s) as (r & Hs & Hr & Hlast).
  destruct (lstrip_spec (rstrip s)) as (l & Hs' & Hl & Hhead).
  exists l, r. split; [by rewrite app_assoc, <- Hs'|]. repeat split; try done.
  intros c Hc. apply Hlast. rewrite Hs'.
  destruct (lstrip (rstrip s)) as [|x t] eqn:Ht; [done|].
  by rewrite last_app, Hc.
Qed.

Lemma cut_first_line s :
  cut 10 s =
  (first_line s,
   if decide (10 ∈ s) then Some (drop (S (length (first_line s))) s) else None).
Proof.
  induction s as [|c s IH]; cbn [cut first_line].
  - by rewrite decide_False by (by intros ?%elem_of_nil).
  - destruct (N.eqb_spec c 10) as [->|Hc].
    + by rewrite decide_True by (by left).
    + rewrite IH. cbn [length drop]. destruct (decide (10 ∈ s)) as [Hin|Hin].
      * by rewrite decide_True by (by right).
      * rewrite decide_False; [done|]. by intros [?|?]%elem_of_cons.
Qed.

(** C2, as amended. The title is the first line with surrounding whitespace
    removed, or the default title of the program when nothing is left; the
    body is what follows the first newline, with surrounding whitespace
    removed, or the empty string when there is no newline. *)
Theorem split_title_spec (full_text : pystr) :
  let first := first_line full_text in
  (split_title full_text).1
  = (if decide (strip first = []) then py "未命名作文" else strip first)
  /\ (split_title full_text).2
     = (if decide (10 ∈ full_text)
        then strip (drop (S (length first)) full_text) else [])
  /\ split_title (py "My Title" ++ 10 :: py "Line1" ++ 10 :: py "Line2")
     = (py "My Title", py "Line1" ++ 10 :: py "Line2")
  /\ split_title (py "OnlyTitle") = (py "OnlyTitle", []).
Proof.
  cbn zeta. split; [|split; [|split; by vm_compute]].
  - unfold split_title, split1. rewrite cut_first_line.
    destruct (decide (10 ∈ full_text)); cbn [fst lookup list_lookup default id];
      by destruct (strip (first_line full_text)).
  - unfold split_title, split1. rewrite cut_first_line.
    by destruct (decide (10 ∈ full_text)).
Qed.

(** C2, as stated, fails where the first line is blank: the title is then
    the program's own default, not the one the specification names. *)
Lemma split_title_default_counterexample :
  strip (first_line (10 :: py "body")) = []
  /\ (split_title (10 :: py "body")).1 = py "未命名作文"
  /\ (split_title (10 :: py "body")).1 ≠ py "Untitled".
Proof. by vm_compute. Qed.

(** C5. A sanitized title holds none of the characters [\ / * ? : < > |]
    nor a double quote, and has at most 50 characters. *)
Theorem sanitize_filename_safe (title : pystr) :
  Forall (fun c => c ∉ py "\/*?:<>|" ++ [34]) (sanitize_filename title)
  /\ (length (sanitize_filename title) <= 50)%nat.
Proof.
  unfold sanitize_filename. split.
  - apply Forall_take, Forall_forall. intros c [Hc _]%list_elem_of_filter.
    unfold forbidden in Hc. apply bool_decide_eq_false in Hc.
    intros Hin. apply Hc. vm_compute in Hin. 
    repeat (apply elem_of_cons in Hin as [->|Hin];
            [apply list_elem_of_In; cbn [In]; tauto|]).
    by apply elem_of_nil in Hin.
  - rewrite length_take. lia.
Qed.


(** ** Validation of a batch *)

(** C3, as amended. Validation changes nothing and fails exactly for an
    empty batch or a batch with a file that is missing, has an extension
    outside .jpg, .jpeg, .png (compared in lower case) or is larger than
    5 MB.  The first such file decides the failure: a missing file is
    reported with its path, a disallowed extension with that extension
    only, an oversized file with its name and its size in MB. *)
Theorem validate_image_files_spec {Y : Type} (w : world) (files : list pystr) :
  let v := @validate_image_files Y files in
  yields v w = [] /\ after v w = w
  /\ ((exists e, outcome v w = Raise e)
      <-> files = [] \/ Exists (offending w) files)
  /\ (files = [] -> outcome v w = Raise (Exn ValueError (py "未上传任何图片")))
  /\ (files ≠ [] -> Forall (fun p => ~ offending w p) files -> outcome v w = Ok tt)
  /\ (forall ok p rest, files = ok ++ p :: rest ->
      Forall (fun q => ~ offending w q) ok -> offending w p ->
      exists msg, outcome v w = Raise (Exn ValueError msg)
        /\ (missing w p -> msg = py "文件不存在: " ++ p)
        /\ (~ missing w p -> bad_extension p ->
            msg = py "不支持的文件类型: " ++ Path.suffix p)
        /\ (forall f, fs w !! p = Some f -> ~ bad_extension p ->
            msg = py "文件过大: " ++ Path.name p ++ py " ("
                  ++ of_N (st_size f / 1024 / 1024) ++ py "MB)")).
Proof.
  cbn zeta. destruct (run_validate_image_files (Y:=Y) files w)
    as (Hrun & Hnil & Hok & Hbad).
  unfold yields, after. rewrite Hrun. cbn [fst snd].
  split; [done|]. split; [done|]. split; [|split; [done|split; [done|]]].
  - split.
    + intros [e He]. destruct (decide (files = [])) as [|Hne]; [by left|right].
      destruct (decide (Exists (offending w) files)) as [|Hall]; [done|].
      apply not_Exists_Forall in Hall; [|intros p; apply offending_dec].
      by rewrite (Hok Hne Hall) in He.
    + intros [->|Hex]; [by eexists; apply Hnil|].
      destruct (first_offending w files Hex) as (ok & p & rest & -> & Ho & Hp).
      eexists. by apply (Hbad ok p rest).
  - intros ok p rest Hfiles Ho Hp. exists (refusal w p).
    split; [by apply (Hbad ok p rest)|]. unfold refusal, missing.
    split; [by intros ->|]. split.
    + intros Hm Hext. destruct (fs w !! p); [|done].
      by rewrite bool_decide_eq_true_2.
    + intros f -> Hext. by rewrite bool_decide_eq_false_2.
Qed.

(** C3, as stated, fails for a file without an allowed extension: its
    message names the extension, here none, and is the same for another
    such file. *)
Lemma validate_message_counterexample :
  outcome (@validate_image_files unit [py "/tmp/notes"]) w_uploads
  = Raise (Exn ValueError (py "不支持的文件类型: "))
  /\ outcome (@validate_image_files unit [py "/tmp/draft"]) w_uploads
     = Raise (Exn ValueError (py "不支持的文件类型: "))
  /\ contains (py "notes") (py "不支持的文件类型: ") = false
  /\ outcome (@validate_image_files unit [py "/tmp/scan.gif"]) w_uploads
     = Raise (Exn ValueError (py "不支持的文件类型: .gif"))
  /\ contains (py "scan") (py "不支持的文件类型: .gif") = false.
Proof. by vm_compute. Qed.

(** C7. When validation fails the handler yields the error snapshot and
    nothing else happens: no request is sent and the world is as before. *)
Theorem validation_failure_sends_nothing (w : world) (files : list pystr)
    (history : pyval) (e : exn) :
  outcome (@validate_image_files snapshot files) w = Raise e ->
  calls (after (full_process files history) w) = calls w
  /\ after (full_process files history) w = w
  /\ yields (full_process files history) w = [error_snapshot e]
  /\ outcome (full_process files history) w = Ok tt.
Proof.
  intros He. unfold after, yields, outcome.
  by rewrite (full_process_validation_fails files history w e He).
Qed.

Lemma validation_failure_sends_nothing_witness :
  (calls (after (full_process [] (PList [])) w_uploads) = calls w_uploads
   /\ after (full_process [] (PList [])) w_uploads = w_uploads
   /\ yields (full_process [] (PList [])) w_uploads
      = [error_snapshot (Exn ValueError (py "未上传任何图片"))]
   /\ outcome (full_process [] (PList [])) w_uploads = Ok tt)
  /\ calls (after (full_process [py "/tmp/a.JPG"; py "/tmp/scan.gif"] (PList []))
              w_uploads) = calls w_uploads.
Proof.
  split.
  - apply (validation_failure_sends_nothing w_uploads [] (PList [])).
    vm_compute. reflexivity.
  - apply (validation_failure_sends_nothing w_uploads
             [py "/tmp/a.JPG"; py "/tmp/scan.gif"] (PList [])
             (Exn ValueError (py "不支持的文件类型: .gif"))).
    vm_compute. reflexivity.
Defined.

(** ** Failures of the grading stage *)

(** C8. Without the rubric template the grading function raises before
    it sends any request, and yields nothing.  With a client that could be
    constructed, what it raises is the missing-template error; without an
    API key it is the error of the client's constructor, which comes
    first. *)
Theorem missing_rubric_raises_before_request (w : world) (content : pystr) :
  fs w !! prompt_path = None ->
  (exists e, outcome (stream_rate_text content) w = Raise e)
  /\ yields (stream_rate_text content) w = []
  /\ calls (after (stream_rate_text content) w) = calls w
  /\ (configured w ->
      outcome (stream_rate_text content) w
      = Raise (Exn FileNotFoundError (py "评分模板文件不存在")))
  /\ (~ configured w ->
      outcome (stream_rate_text content) w = Raise missing_key_error).
Proof.
  intros Hf. destruct (stream_rate_text_streamed content w) as [_ Hrun].
  unfold outcome, yields, after.
  destruct (client_key w) as [k|] eqn:Hk.
  - destruct (Hrun Hf) as [line Hl]; [by exists k|]. rewrite Hl. cbn [fst snd].
    split; [by eexists|]. repeat split; try done.
    intros Hn. destruct Hn. by exists k.
  - rewrite (run_without_key w [] content) by (done || by right).
    cbn [fst snd]. split; [by eexists|]. repeat split; try done.
    intros [k Hk']. unfold configured in *. congruence.
Qed.

Lemma missing_rubric_raises_before_request_witness :
  outcome (stream_rate_text (py "I went to school.")) w_no_rubric
  = Raise (Exn FileNotFoundError (py "评分模板文件不存在"))
  /\ yields (stream_rate_text (py "I went to school.")) w_no_rubric = []
  /\ calls (after (stream_rate_text (py "I went to school.")) w_no_rubric)
     = calls w_no_rubric.
Proof.
  destruct (missing_rubric_raises_before_request w_no_rubric
              (py "I went to school.")) as (_ & H2 & H3 & H4 & _).
  - vm_compute. reflexivity.
  - split; [|by split]. apply H4. exists (py "sk-test"). vm_compute. reflexivity.
Defined.

Lemma no_persisting_component (c : component) :
  match c with
  | process_status | image_gallery | extracted_text | rating_result => True
  | _ => False
  end ->
  c ∉ [download_text; download_rate; history_table; history_state].
Proof.
  intros Hc Hin. repeat (apply elem_of_cons in Hin as [->|Hin]; [done|]).
  by apply elem_of_nil in Hin.
Qed.

Lemma streamed_fs w g : streamed w g -> fs (after g w) = fs w.
Proof. intros (ys & r & w' & Hrun & Hfs & _). unfold after. by rewrite Hrun. Qed.

(** C4. When validation and extraction have succeeded and the grading
    generator raises, at once or in the middle of its stream, the pipeline
    ends with the error snapshot, no file has been written or changed, and
    no snapshot touches the download links or the history. *)
Theorem grading_failure_writes_nothing (w : world) (files : list pystr)
    (history : pyval) (full : pystr) (e : exn) :
  let extraction := stream_extract_text files in
  let content := (split_title (default [] (last (yields extraction w)))).2 in
  outcome (@validate_image_files snapshot files) w = Ok tt ->
  outcome extraction w = Ok full ->
  outcome (stream_rate_text content) (after extraction w) = Raise e ->
  fs (after (full_process files history) w) = fs w
  /\ last (yields (full_process files history) w) = Some (error_snapshot e)
  /\ outcome (full_process files history) w = Ok tt
  /\ persists_nothing (yields (full_process files history) w).
Proof.
  cbn zeta. intros Hv Hx Hr.
  change (after (full_process files history) w)
    with (run (full_process files history) w).2.
  change (yields (full_process files history) w)
    with (run (full_process files history) w).1.1.
  change (outcome (full_process files history) w)
    with (run (full_process files history) w).1.2.
  rewrite (full_process_grading_fails files history w full e Hv Hx Hr).
  cbn [fst snd]. split; [|split; [|split; [done|]]].
  - etrans; [apply streamed_fs, stream_rate_text_streamed|].
    apply streamed_fs, stream_extract_text_streamed.
  - rewrite app_comm_cons, app_assoc. apply last_snoc.
  - unfold persists_nothing. apply Forall_cons. split.
    { repeat constructor; by apply no_persisting_component. }
    rewrite !Forall_app, !Forall_fmap. repeat split.
    + apply Forall_true. intros t. repeat constructor; by apply no_persisting_component.
    + apply Forall_true. intros t. repeat constructor; by apply no_persisting_component.
    + repeat constructor; by apply no_persisting_component.
Qed.

Lemma grading_failure_writes_nothing_witness :
  fs (after (full_process [py "/tmp/a.JPG"] (PList [])) w_broken) = fs w_broken
  /\ last (yields (full_process [py "/tmp/a.JPG"] (PList [])) w_broken)
     = Some (error_snapshot connection_error)
  /\ outcome (full_process [py "/tmp/a.JPG"] (PList [])) w_broken = Ok tt
  /\ persists_nothing (yields (full_process [py "/tmp/a.JPG"] (PList [])) w_broken).
Proof.
  apply (grading_failure_writes_nothing w_broken [py "/tmp/a.JPG"] (PList [])
           (py "Essay A" ++ 10 :: py "I went to school.") connection_error);
    vm_compute; reflexivity.
Defined.


(** ** The history store *)

Lemma history_value_is_text X : is_text (history_value X) = true.
Proof.
  unfold history_value. cbn [is_text]. induction X as [|e X IH]; [done|].
  cbn [fmap list_fmap forallb]. rewrite IH. by vm_compute.
Qed.

Lemma ascii_encodable (s : pystr) :
  forallb (fun c => c <? 128) s = true -> encodable s.
Proof.
  intros H. apply Forall_forall. intros c Hc%list_elem_of_In.
  rewrite forallb_forall in H. apply H, N.ltb_lt in Hc. split; [lia|].
  unfold is_surrogate. by destruct (N.leb_spec 55296 c); [lia|].
Qed.

Lemma encodable_check (s : pystr) :
  forallb (fun c => (c <? 1114112) && negb (is_surrogate c)) s = true ->
  encodable s.
Proof.
  intros H. apply Forall_forall. intros c Hc%list_elem_of_In.
  rewrite forallb_forall in H. apply H, andb_prop in Hc as [Hlt Hs].
  split; [by apply N.ltb_lt|by destruct (is_surrogate c)].
Qed.

Lemma history_value_encodable X :
  Forall entry_encodable X -> encodable (chars_of (history_value X)).
Proof.
  unfold history_value. cbn [chars_of]. induction 1 as [|e X (Ht & Hs & Hp & Hr) _ IH];
    [by constructor|].
  cbn [fmap list_fmap flat_map]. apply Forall_app. split; [|done].
  unfold entry_value, new_entry. cbn [chars_of flat_map fst snd].
  rewrite !Forall_app. repeat split; try done; by apply ascii_encodable.
Qed.

Lemma history_value_depth X : (depth (history_value X) <= 2)%nat.
Proof.
  unfold history_value. cbn [depth]. apply le_n_S.
  induction X as [|e X IH]; cbn [fmap list_fmap foldr]; [lia|].
  change (depth (entry_value e)) with 1%nat. lia.
Qed.

(** C6, as amended. For every list of history entries whose strings can be
    written in UTF-8 (they hold no surrogate code point), loading, saving
    the list and loading again returns the list. *)
Theorem save_load_round_trip {Y : Type} (w : world) (X : list HistoryEntry) :
  Forall entry_encodable X ->
  let w1 := after (@load_history Y) w in
  let w2 := after (@save_history Y (history_value X)) w1 in
  outcome (@save_history Y (history_value X)) w1 = Ok tt
  /\ outcome (@load_history Y) w2 = Ok (history_value X).
Proof.
  intros HX w1 w2.
  destruct (save_then_load (Y:=Y) (history_value X) w1
              (history_value_is_text X) (history_value_encodable X HX)
              (history_value_depth X))
    as (bs & Hsave & Hload).
  unfold w2, after, outcome. rewrite Hsave. cbn [fst snd]. by rewrite Hload.
Qed.

Lemma save_load_round_trip_witness :
  outcome (@save_history unit (history_value [essay_entry; essay_entry]))
          (after (@load_history unit) w_not_json) = Ok tt
  /\ outcome (@load_history unit)
       (after (@save_history unit (history_value [essay_entry; essay_entry]))
              (after (@load_history unit) w_not_json))
     = Ok (history_value [essay_entry; essay_entry]).
Proof.
  apply (save_load_round_trip (Y:=unit) w_not_json [essay_entry; essay_entry]).
  repeat constructor; apply encodable_check; vm_compute; reflexivity.
Defined.

(** C6, as stated, fails for an entry with a lone surrogate, which is what
    loading an all-ASCII history file can return: saving it back raises and
    leaves a file from which nothing is loaded. *)
Lemma save_load_surrogate_counterexample :
  let X := history_value [surrogate_entry] in
  let w1 := after (@load_history unit) w_escaped in
  let w2 := after (@save_history unit X) w1 in
  outcome (@load_history unit) w_escaped = Ok X
  /\ outcome (@save_history unit X) w1
     = Raise (Exn UnicodeEncodeError
                (py "'utf-8' codec can't encode character: surrogates not allowed"))
  /\ outcome (@load_history unit) w2 = Ok (PList [])
  /\ outcome (@load_history unit) w2 ≠ Ok X.
Proof. by vm_compute. Qed.

Lemma loads_no_value room md s :
  starts_no_value s ->
  exists msg, loads room md s = Raise (Exn JSONDecodeError msg).
Proof.
  unfold starts_no_value, loads. intros Hs.
  destruct (is_prefix [65279] s); [by eexists|].
  replace (2 * length s + 2)%nat with (S (2 * length s + 1)) by lia.
  rewrite scan_once_unfold.
  destruct (skip_ws s) as [|c r]; [by eexists|].
  assert (forall k, k ∈ [34; 123; 91; 45; 48; 49; 50; 51; 52; 53; 54; 55; 56;
                         57; 110; 116; 102; 78; 73] -> (c =? k) = false) as Hne.
  { intros k Hk. apply N.eqb_neq. by intros ->. }
  rewrite !Hne by (apply list_elem_of_In; cbn [In]; tauto).
  change (py "null") with [110; 117; 108; 108].
  change (py "true") with [116; 114; 117; 101].
  change (py "false") with [102; 97; 108; 115; 101].
  change (py "NaN") with [78; 97; 78].
  change (py "Infinity") with [73; 110; 102; 105; 110; 105; 116; 121].
  change (py "-Infinity") with [45; 73; 110; 102; 105; 110; 105; 116; 121].
  cbn [strip_prefix]. rewrite !(N.eqb_sym _ c).
  rewrite !Hne by (apply list_elem_of_In; cbn [In]; tauto).
  assert (match_number md (c :: r) = None) as ->; [|by eexists].
  unfold match_number, match_integer.
  rewrite !Hne by (apply list_elem_of_In; cbn [In]; tauto).
  assert (is_digit c = false) as ->; [|done].
  unfold is_digit.
  destruct (N.leb_spec 48 c), (N.leb_spec c 57); try done.
  exfalso. apply Hs, list_elem_of_In. cbn [In].
  assert (c = 48 \/ c = 49 \/ c = 50 \/ c = 51 \/ c = 52 \/ c = 53
          \/ c = 54 \/ c = 55 \/ c = 56 \/ c = 57) by lia.
  intuition congruence.
Qed.

(** C9, as amended. When the history file is absent, or holds UTF-8 text
    that [json.load] rejects with [JSONDecodeError], as it does every text
    that does not start with a JSON value, loading returns the empty list
    without raising and the only effect is one logged line. *)
Theorem load_history_absent_or_not_json {Y : Type} (w : world) :
  fs w !! HISTORY_PATH = None
  \/ (exists f s, fs w !! HISTORY_PATH = Some f
        /\ utf8_decode (data f) = Some s
        /\ starts_no_value (universal_newlines s))
  \/ (exists f s e, fs w !! HISTORY_PATH = Some f
        /\ utf8_decode (data f) = Some s
        /\ loads (json_room (python w)) (int_max_str_digits (python w))
                 (universal_newlines s) = Raise e
        /\ exn_type e = JSONDecodeError) ->
  outcome (@load_history Y) w = Ok (PList [])
  /\ yields (@load_history Y) w = []
  /\ exists line, after (@load_history Y) w = logged line w.
Proof.
  intros Hcase.
  assert (fs w !! HISTORY_PATH = None
          \/ exists f s e, fs w !! HISTORY_PATH = Some f
                /\ utf8_decode (data f) = Some s
                /\ loads (json_room (python w)) (int_max_str_digits (python w))
                         (universal_newlines s) = Raise e
                /\ exn_type e = JSONDecodeError) as Hcase'.
  { destruct Hcase as [?|[(f & s & Hf & Hs & Hn)|?]]; [by left| |by right].
    right. destruct (loads_no_value (json_room (python w))
                       (int_max_str_digits (python w)) _ Hn) as [msg Hl].
    by exists f, s, (Exn JSONDecodeError msg). }
  clear Hcase. unfold outcome, yields, after, load_history.
  rewrite run_try_except, run_json_load.
  destruct Hcase' as [->|(f & s & e & -> & -> & Hl & He)].
  - change (is_exn_class FileNotFoundError _) with true. cbn [orb].
    rewrite run_mbind.
    match goal with |- context [log_event ?a ?b ?c] =>
      destruct (run_log_event (Y:=Y) a b c w) as [line ->] end.
    cbn [run app fst snd]. eauto.
  - rewrite Hl.
    replace (is_exn_class JSONDecodeError e) with true
      by (unfold is_exn_class; by rewrite He).
    rewrite orb_true_r, run_mbind.
    match goal with |- context [log_event ?a ?b ?c] =>
      destruct (run_log_event (Y:=Y) a b c w) as [line ->] end.
    cbn [run app fst snd]. eauto.
Qed.

Lemma load_history_absent_or_not_json_witness :
  (outcome (@load_history unit) w_empty = Ok (PList [])
   /\ yields (@load_history unit) w_empty = []
   /\ exists line, after (@load_history unit) w_empty = logged line w_empty)
  /\ (outcome (@load_history unit) w_blank = Ok (PList [])
      /\ yields (@load_history unit) w_blank = []
      /\ exists line, after (@load_history unit) w_blank = logged line w_blank)
  /\ (outcome (@load_history unit) w_not_json = Ok (PList [])
      /\ yields (@load_history unit) w_not_json = []
      /\ exists line, after (@load_history unit) w_not_json = logged line w_not_json).
Proof.
  split; [|split].
  - apply (load_history_absent_or_not_json (Y:=unit) w_empty). left.
    vm_compute. reflexivity.
  - apply (load_history_absent_or_not_json (Y:=unit) w_blank). right. left.
    exists (File 0 []), []. repeat split; vm_compute; reflexivity.
  - apply (load_history_absent_or_not_json (Y:=unit) w_not_json). right. right.
    exists (File 9 (bytes_of_string "{not json")), (py "{not json"),
      (Exn JSONDecodeError
         (py "Expecting property name enclosed in double quotes")).
    repeat split; vm_compute; reflexivity.
Defined.

(** C9, as stated, fails for a history file that is not UTF-8, for one
    whose text opens more lists than the interpreter can enter, and for
    one that holds an integer of more digits than the interpreter
    converts: decoding raises [UnicodeDecodeError], the scanner
    [RecursionError], the conversion a plain [ValueError], and
    [load_history] catches none of them. *)
Lemma load_history_undecodable_counterexample :
  fs w_garbled !! HISTORY_PATH = Some (File 2 [255; 254])
  /\ utf8_decode [255; 254] = None
  /\ outcome (@load_history unit) w_garbled
     = Raise (Exn UnicodeDecodeError (py "'utf-8' codec can't decode bytes"))
  /\ fs w_deep !! HISTORY_PATH = Some (File 1001 (replicate 1001 91))
  /\ outcome (@load_history unit) w_deep
     = Raise (Exn RecursionError
                (py "maximum recursion depth exceeded while decoding a JSON array from a unicode string"))
  /\ fs w_digits !! HISTORY_PATH = Some (File 4301 (replicate 4301 49))
  /\ outcome (@load_history unit) w_digits
     = Raise (Exn ValueError
                (py "Exceeds the limit (4300 digits) for integer string conversion: value has 4301 digits; use sys.set_int_max_str_digits() to increase the limit")).
Proof. by vm_compute. Qed.

(** ** The streaming functions on the example worlds *)

Lemma cumulative_yield_witness :
  let g := stream_extract_text [py "/tmp/a.JPG"] in
  let ds := [py "Essay A"; 10 :: py "I went to school."] in
  yields g w_essay = cumulative ds
  /\ yields g w_essay !! 1%nat = Some (py "Essay A" ++ 10 :: py "I went to school.")
  /\ last (yields g w_essay) = Some (concat ds)
  /\ outcome g w_essay = Ok (concat ds).
Proof.
  destruct (cumulative_yield w_essay [py "/tmp/a.JPG"] []
           (stream_extract_text [py "/tmp/a.JPG"])
           (nth 0 (calls (after (stream_extract_text [py "/tmp/a.JPG"]) w_essay))
                (Request [] [] [] [] true None))
           [chunk_of (Some (py "Essay A")); chunk_of None; chunk_of (Some []);
            chunk_of (Some (10 :: py "I went to school."))] None)
    as (H1 & H2 & H3 & H4 & _).
  - left. reflexivity.
  - vm_compute. reflexivity.
  - vm_compute. reflexivity.
  - split; [exact H1|]. split; [apply (H2 2%nat); simpl; lia|].
    split; [apply H3; discriminate|apply H4; reflexivity].
Defined.

Lemma yields_strictly_grow_witness :
  let g := stream_rate_text (py "I went to school.") in
  grows [] (yields g w_broken)
  /\ (forall i j yi yj, (i < j)%nat ->
      yields g w_broken !! i = Some yi -> yields g w_broken !! j = Some yj ->
      exists d, d ≠ [] /\ yj = yi ++ d)
  /\ (forall r os broken,
      calls (after g w_broken) = calls w_broken ++ [r] ->
      endpoint w_broken r = Streaming (chunk_of <$> os) broken ->
      yields g w_broken = totals [] (filter (fun d => d ≠ []) (omap id os))).
Proof.
  apply (yields_strictly_grow w_broken [] (py "I went to school.")).
  right. reflexivity.
Defined.

(** The end-to-end scenario of the specification: one page, an extraction
    streamed in two parts, a grading streamed in two parts.  The two files
    hold the body and the grading, and the history file holds one entry. *)
Example end_to_end_scenario :
  let w' := after (full_process [py "/tmp/a.JPG"] (PList [])) w_essay in
  let text_path := py "/app/texts/Essay A_20240307_090502.txt" in
  let rate_path := py "/app/rates/Essay A_批改_20240307_090502.txt" in
  data <$> fs w' !! text_path = Some (bytes_of_string "I went to school.")
  /\ data <$> fs w' !! rate_path = Some (bytes_of_string "Good. Solid structure.")
  /\ outcome (@load_history unit) w'
     = Ok (history_value [{| title := py "Essay A";
                             timestamp := py "2024-03-07 09:05";
                             text_path := text_path;
                             rate_path := rate_path |}])
  /\ last (yields (full_process [py "/tmp/a.JPG"] (PList [])) w_essay)
     = Some (done_snapshot text_path rate_path
               (history_value [{| title := py "Essay A";
                                  timestamp := py "2024-03-07 09:05";
                                  text_path := text_path;
                                  rate_path := rate_path |}])).
Proof. by vm_compute. Qed.

(** * More on the code

    What the functions do at their edges, and how they compose. *)


(** ** Titles and file names *)

Lemma lstrip_id s :
  (forall c, head s = Some c -> isspace c = false) -> lstrip s = s.
Proof. destruct s as [|c s]; [done|]. intros H. cbn. by rewrite (H c). Qed.

Lemma rstrip_id s :
  (forall c, last s = Some c -> isspace c = false) -> rstrip s = s.
Proof.
  intros H. unfold rstrip. rewrite lstrip_id, reverse_involutive; [done|].
  intros c Hc. apply H. by rewrite <- head_reverse.
Qed.

Lemma strip_id s :
  (forall c, head s = Some c -> isspace c = false) ->
  (forall c, last s = Some c -> isspace c = false) -> strip s = s.
Proof. intros Hh Hl. unfold strip. by rewrite rstrip_id, lstrip_id. Qed.

Lemma strip_strip s : strip (strip s) = strip s.
Proof.
  destruct (strip_spec s) as (l & r & _ & _ & _ & Hh & Hl). by apply strip_id.
Qed.

Lemma strip_sublist s : strip s `sublist_of` s.
Proof.
  destruct (strip_spec s) as (l & r & Hs & _). rewrite Hs at 2.
  apply sublist_inserts_l, sublist_inserts_r. done.
Qed.

Lemma first_line_no_newline s : 10 ∉ first_line s.
Proof.
  induction s as [|c s IH]; cbn [first_line]; [apply not_elem_of_nil|].
  destruct (N.eqb_spec c 10); [apply not_elem_of_nil|].
  apply not_elem_of_cons. split; [congruence|done].
Qed.

Lemma filter_all {A} (P : A -> Prop) `{!forall x, Decision (P x)} (l : list A) :
  Forall P l -> filter P l = l.
Proof.
  induction 1 as [|x l Hx _ IH]; [done|]. by rewrite filter_cons_True, IH.
Qed.

(** X1. [sanitize_filename] only deletes characters: the name it returns is
    the title with some characters left out, in the same order. *)
Theorem sanitize_filename_sublist (title : pystr) :
  sanitize_filename title `sublist_of` title.
Proof.
  unfold sanitize_filename.
  etrans; [apply sublist_take|]. etrans; [apply sublist_filter|].
  apply strip_sublist.
Qed.

(** X2. A title of at most 50 characters that holds no forbidden character
    and neither starts nor ends with whitespace is its own file name. *)
Theorem sanitize_filename_fixed (title : pystr) :
  (length title <= 50)%nat ->
  Forall (fun c => forbidden c = false) title ->
  (forall c, head title = Some c -> isspace c = false) ->
  (forall c, last title = Some c -> isspace c = false) ->
  sanitize_filename title = title.
Proof.
  intros Hlen Hok Hh Hl. unfold sanitize_filename.
  rewrite strip_id by done.
  by rewrite filter_all, take_ge.
Qed.

Lemma sanitize_filename_fixed_witness :
  sanitize_filename (py "Essay A") = py "Essay A".
Proof.
  apply sanitize_filename_fixed.
  - vm_compute. lia.
  - apply Forall_forall. intros c Hc. vm_compute in Hc.
    repeat (apply elem_of_cons in Hc as [->|Hc]; [by vm_compute|]).
    by apply elem_of_nil in Hc.
  - intros c Hc. vm_compute in Hc. injection Hc as <-. by vm_compute.
  - intros c Hc. vm_compute in Hc. injection Hc as <-. by vm_compute.
Defined.

(** X3. The title that [full_process] splits off is never empty, holds no
    newline, and neither it nor the body starts or ends with whitespace. *)
Theorem split_title_clean (full_text : pystr) :
  (split_title full_text).1 ≠ []
  /\ (10 ∉ (split_title full_text).1)
  /\ strip (split_title full_text).1 = (split_title full_text).1
  /\ strip (split_title full_text).2 = (split_title full_text).2.
Proof.
  unfold split_title, split1. rewrite cut_first_line.
  assert (10 ∉ strip (first_line full_text)) as Hnl.
  { intros Hin. apply (first_line_no_newline full_text).
    eapply elem_of_sublist; [exact Hin|apply strip_sublist]. }
  assert (strip (strip (first_line full_text)) = strip (first_line full_text))
    as Hss by apply strip_strip.
  destruct (decide (10 ∈ full_text)); cbn [fst snd lookup list_lookup default id];
    destruct (strip (first_line full_text)) as [|c t] eqn:Ht;
    repeat split; try done; try (by vm_compute); try apply strip_strip;
    try (intros Hin; vm_compute in Hin;
         repeat (apply elem_of_cons in Hin as [Hin|Hin]; [done|]);
         by apply elem_of_nil in Hin).
Qed.

(** ** Saving a text file *)

Lemma run_resolve {Y} directory w :
  run (@Path.resolve Y directory) w = ([], Ok (resolved w directory), w).
Proof. done. Qed.

Lemma run_write_unencodable {Y} p s w :
  utf8_encode s = None ->
  run (@write_text Y p [s]) w = ([], Raise encode_error, stored p [] w).
Proof.
  intros Hs. unfold write_text. rewrite run_mbind. cbn [do run perform app for_in].
  rewrite run_bind. unfold write. rewrite Hs. done.
Qed.

Lemma run_safe_save {Y} content directory filename w :
  run (@safe_save Y content directory filename) w =
  ([], match utf8_encode content with
       | Some _ => Ok (save_path w directory filename)
       | None => Raise encode_error
       end,
   stored (save_path w directory filename)
          (default [] (utf8_encode content)) (ticked w)).
Proof.
  unfold safe_save. rewrite run_mbind, run_resolve. cbn [app].
  rewrite run_mbind. cbn [do run perform app]. rewrite run_mbind.
  fold (save_path w directory filename).
  change (World (fs w) (cwd w) (environ w) (endpoint w) (calls w) (log w)
            (now w) (S (ticks w)) (python w)) with (ticked w).
  destruct (utf8_encode content) as [bs|] eqn:Hc.
  - rewrite (run_write_text _ _ _ bs) by (cbn [concat]; by rewrite app_nil_r).
    done.
  - by rewrite run_write_unencodable.
Qed.


Lemma split_nonempty sep s : split sep s ≠ [].
Proof.
  destruct s as [|c s]; [done|]. cbn [split].
  destruct (c =? sep); [done|]. by destruct (split sep s).
Qed.

Lemma split_app_sep sep a b :
  split sep (a ++ sep :: b) = split sep a ++ split sep b.
Proof.
  induction a as [|c a IH]; cbn [app split].
  - by rewrite N.eqb_refl.
  - destruct (c =? sep); [by rewrite IH|]. rewrite IH.
    pose proof (split_nonempty sep a). by destruct (split sep a).
Qed.

Lemma split_no_sep sep s : sep ∉ s -> split sep s = [s].
Proof.
  induction s as [|c s IH]; [done|]. intros [Hc Hs]%not_elem_of_cons.
  cbn [split]. destruct (N.eqb_spec c sep); [congruence|]. by rewrite IH.
Qed.

Lemma join_sep a b : exists a', Path.join a b = a' ++ 47 :: b.
Proof.
  unfold Path.join. destruct (last a) as [c|] eqn:Hl; [|by exists a].
  destruct (decide (c = 47)) as [->|Hc].
  - apply last_Some in Hl as [a' ->]. exists a'. by rewrite <- app_assoc.
  - exists a. destruct c as [|p]; [done|].
    repeat (destruct p as [p|p|]; try done; try congruence).
Qed.

Lemma name_join a b :
  47 ∉ b -> b ≠ [] -> b ≠ [46] -> Path.name (Path.join a b) = b.
Proof.
  intros Hb Hb0 Hb1. destruct (join_sep a b) as [a' ->].
  unfold Path.name, Path.parts.
  rewrite split_app_sep, (split_no_sep _ b), filter_app by done.
  rewrite filter_cons_True, filter_nil by done. by rewrite last_snoc.
Qed.

Lemma digits_go_digits fuel : forall n acc,
  Forall (fun c => 48 <= c <= 57) acc ->
  Forall (fun c => 48 <= c <= 57) (digits_go fuel n acc).
Proof.
  induction fuel as [|k IH]; intros n acc Hacc; cbn [digits_go]; [done|].
  assert (Forall (fun c => 48 <= c <= 57) ((48 + n mod 10) :: acc)) as Hacc'.
  { constructor; [|done]. assert (n mod 10 < 10) by (by apply N.mod_lt).
    cbv beta. generalize dependent (n mod 10). lia. }
  destruct (n <? 10); [done|]. by apply IH.
Qed.

Lemma zfill_digits width n :
  Forall (fun c => 48 <= c <= 57) (zfill width (of_N n)).
Proof.
  unfold zfill, of_N. apply Forall_app. split.
  - apply Forall_replicate. lia.
  - by apply digits_go_digits.
Qed.

Lemma strftime_file_chars t :
  Forall (fun c => 48 <= c <= 57 \/ c = 95) (strftime_file t).
Proof.
  unfold strftime_file.
  pose proof (fun width n =>
    Forall_impl _ (fun c => 48 <= c <= 57 \/ c = 95) _ (zfill_digits width n)
      (fun c H => or_introl H)) as Hz.
  repeat first [apply Hz | apply Forall_app; split].
  replace (py "_") with [95] by (by vm_compute).
  constructor; [by right|constructor].
Qed.

(** X4. The file that [safe_save] writes lies directly in the directory: its
    name holds no slash, and it is the last component of the path. *)
Theorem safe_save_in_directory (w : world) (directory filename : pystr) :
  let file_name :=
    sanitize_filename filename ++ py "_"
    ++ strftime_file (now w (ticks w)) ++ py ".txt" in
  (47 ∉ file_name)
  /\ Path.name (save_path w directory filename) = file_name
  /\ exists d, save_path w directory filename = d ++ 47 :: file_name.
Proof.
  cbn zeta.
  assert (47 ∉ sanitize_filename filename ++ py "_"
            ++ strftime_file (now w (ticks w)) ++ py ".txt") as Hno.
  { rewrite !not_elem_of_app. split; [|split; [|split]].
    - intros Hin. unfold sanitize_filename in Hin.
      apply elem_of_take in Hin as (i & Hin & _).
      apply list_elem_of_lookup_2, list_elem_of_filter in Hin as [Hf _].
      by vm_compute in Hf.
    - by vm_compute; intros [|[]%elem_of_nil]%elem_of_cons.
    - intros Hin.
      pose proof (proj1 (Forall_forall _ _)
        (strftime_file_chars (now w (ticks w))) 47 Hin) as Hd.
      cbv beta in Hd. lia.
    - vm_compute. intros Hin.
      repeat (apply elem_of_cons in Hin as [Hin|Hin]; [done|]).
      by apply elem_of_nil in Hin. }
  split; [done|]. split; [|apply join_sep].
  unfold save_path. apply name_join; [done| |].
  - intros H. apply (f_equal length) in H. rewrite !length_app in H.
    vm_compute length in H. cbn in H. lia.
  - intros H. apply (f_equal length) in H. rewrite !length_app in H.
    vm_compute length in H. cbn in H. lia.
Qed.







(** ** The history file *)

Lemma run_write_chunks_quiet {Y} p chunks : forall w,
  exists r w', run (for_in chunks tt (fun c _ => @write Y p c)) w = ([], r, w')
    /\ calls w' = calls w /\ log w' = log w
    /\ (forall q, q ≠ p -> fs w' !! q = fs w !! q).
Proof.
  induction chunks as [|c chunks IH]; intros w; cbn [for_in].
  - by eexists _, _.
  - rewrite run_bind. unfold write at 1.
    destruct (utf8_encode c) as [bs|]; cbn [do run perform].
    + destruct (IH (set_fs (partial_alter (append_file bs) p) w))
        as (r & w' & -> & Hc & Hl & Hfs).
      eexists _, _. split; [done|]. split; [done|]. split; [done|].
      intros q Hq. rewrite Hfs by done. cbn. by rewrite lookup_partial_alter_ne.
    + by eexists _, _.
Qed.

Lemma run_save_history_quiet {Y} v w :
  exists r w', run (@save_history Y v) w = ([], r, w')
    /\ calls w' = calls w /\ log w' = log w
    /\ (forall q, q ≠ HISTORY_PATH -> fs w' !! q = fs w !! q).
Proof.
  unfold save_history, write_text. rewrite run_mbind. cbn [do run perform app].
  destruct (run_write_chunks_quiet (Y:=Y) HISTORY_PATH (iterencode 0 v)
              (set_fs <[HISTORY_PATH:=File 0 []]> w))
    as (r & w' & -> & Hc & Hl & Hfs).
  eexists _, _. split; [done|]. split; [done|]. split; [done|].
  intros q Hq. rewrite Hfs by done. cbn. by rewrite lookup_insert_ne.
Qed.

Lemma run_load_history {Y} w :
  exists w', run (@load_history Y) w
             = ([], history_on_disk (python w) (fs w), w')
    /\ fs w' = fs w /\ calls w' = calls w /\ python w' = python w
    /\ (w' = w \/ exists line, w' = logged line w).
Proof.
  unfold load_history, history_on_disk.
  rewrite run_try_except, run_json_load.
  destruct (fs w !! HISTORY_PATH) as [f|].
  - destruct (utf8_decode (data f)) as [s|].
    + destruct (loads _ _ (universal_newlines s)) as [v|e].
      * eexists. split; [done|]. by repeat split; try left.
      * destruct (is_exn_class FileNotFoundError e) eqn:H1;
          destruct (is_exn_class JSONDecodeError e) eqn:H2;
          cbn [orb]; try rewrite run_mbind; cbn [log_event do run perform app];
          eexists; (split; [done|]); repeat split; try (by left);
          right; by eexists.
    + change (is_exn_class FileNotFoundError (Exn UnicodeDecodeError ?m)) with false.
      change (is_exn_class JSONDecodeError (Exn UnicodeDecodeError ?m)) with false.
      cbn [orb run app]. eexists. split; [done|]. by repeat split; try left.
  - change (is_exn_class FileNotFoundError (Exn FileNotFoundError ?m)) with true.
    cbn [orb]. rewrite run_mbind. cbn [log_event do run perform app].
    eexists. split; [done|]. repeat split. right. by eexists.
Qed.

(** X8. Loading the history yields nothing, changes no file and sends
    nothing, and loading again gives the same result. *)
Theorem load_history_idempotent {Y : Type} (w : world) :
  yields (@load_history Y) w = []
  /\ fs (after (@load_history Y) w) = fs w
  /\ calls (after (@load_history Y) w) = calls w
  /\ outcome (@load_history Y) (after (@load_history Y) w)
     = outcome (@load_history Y) w.
Proof.
  unfold yields, outcome, after.
  destruct (run_load_history (Y:=Y) w) as (w1 & -> & Hfs & Hc & Hpy & _).
  cbn [fst snd].
  destruct (run_load_history (Y:=Y) w1) as (w2 & -> & _). cbn [fst snd].
  by rewrite Hfs, Hpy.
Qed.

Lemma dumps_no_cr v : is_text v = true -> 13 ∉ dumps v.
Proof.
  intros Ht. eapply written_no_cr.
  apply (iterencode_written (fun _ => True)); [done|]. by apply Forall_true.
Qed.

(** X9. When the history file holds a value made of strings, booleans,
    [None], lists and dicts in the text that [json.dump] writes for it, and
    the value nests no deeper than the interpreter lets [json.load] go,
    [load_history] returns the value, whether it is a list or not, and
    leaves the world as it was. *)
Theorem load_history_returns_what_was_dumped {Y : Type} (w : world)
    (f : file) (v : pyval) :
  fs w !! HISTORY_PATH = Some f ->
  utf8_decode (data f) = Some (dumps v) ->
  is_text v = true ->
  (depth v <= json_room (python w))%nat ->
  outcome (@load_history Y) w = Ok v /\ after (@load_history Y) w = w.
Proof.
  intros Hf Hs Hv Hd. unfold outcome, after, load_history.
  rewrite run_try_except, run_json_load, Hf, Hs.
  by rewrite universal_newlines_id, loads_dumps by (by try apply dumps_no_cr).
Qed.

Lemma load_history_returns_what_was_dumped_witness :
  outcome (@load_history unit) w_object_history = Ok (entry_value essay_entry)
  /\ after (@load_history unit) w_object_history = w_object_history.
Proof.
  apply (load_history_returns_what_was_dumped (Y:=unit) w_object_history
           (file_of_text (dumps (entry_value essay_entry)))
           (entry_value essay_entry));
    vm_compute; (reflexivity || lia).
Defined.

(** X10. [save_history] touches no file but the history file, sends nothing
    and logs nothing, whether it succeeds or not. *)
Theorem save_history_keeps_other_files {Y : Type} (w : world) (v : pyval)
    (q : pystr) :
  q ≠ HISTORY_PATH ->
  fs (after (@save_history Y v) w) !! q = fs w !! q
  /\ calls (after (@save_history Y v) w) = calls w
  /\ log (after (@save_history Y v) w) = log w
  /\ yields (@save_history Y v) w = [].
Proof.
  intros Hq. unfold after, yields.
  destruct (run_save_history_quiet (Y:=Y) v w) as (r & w' & -> & Hc & Hl & Hfs).
  cbn [fst snd]. by rewrite Hfs.
Qed.

Lemma save_history_keeps_other_files_witness :
  fs (after (@save_history unit (history_value [surrogate_entry])) w_essay)
    !! prompt_path = fs w_essay !! prompt_path.
Proof.
  refine (proj1 (save_history_keeps_other_files (Y:=unit) w_essay
                   (history_value [surrogate_entry]) prompt_path _)).
  vm_compute. discriminate.
Defined.

Lemma dumps_encodes v :
  is_text v = true -> encodable (chars_of v) -> is_Some (utf8_encode (dumps v)).
Proof.
  intros Ht Hs. apply utf8_encode_is_Some, written_encodable.
  by apply iterencode_written.
Qed.

Lemma run_save_history_ok {Y} v w bs :
  utf8_encode (dumps v) = Some bs ->
  run (@save_history Y v) w = ([], Ok tt, stored HISTORY_PATH bs w).
Proof. intros Hbs. unfold save_history. by apply run_write_text. Qed.

Lemma run_load_saved {Y} v w' bs :
  is_text v = true -> (depth v <= json_room (python w'))%nat ->
  utf8_encode (dumps v) = Some bs ->
  fs w' !! HISTORY_PATH = Some (File (N.of_nat (length bs)) bs) ->
  run (@load_history Y) w' = ([], Ok v, w').
Proof.
  intros Ht Hd Hbs Hf. unfold load_history.
  rewrite run_try_except, run_json_load, Hf. cbn [data].
  rewrite (utf8_decode_encode _ _ Hbs).
  by rewrite universal_newlines_id, loads_dumps by (by try apply dumps_no_cr).
Qed.

Lemma history_depth_room X i : (depth (history_value X) <= json_room i)%nat.
Proof. pose proof (history_value_depth X). unfold json_room. lia. Qed.

(** X11. The history file holds what was saved last: after two saves of
    entry lists the files are as after the second alone, and loading gives
    the second list. *)
Theorem save_history_last_wins {Y : Type} (w : world)
    (X1 X2 : list HistoryEntry) :
  let w1 := after (@save_history Y (history_value X1)) w in
  let w2 := after (@save_history Y (history_value X2)) w1 in
  Forall entry_encodable X1 -> Forall entry_encodable X2 ->
  fs w2 = fs (after (@save_history Y (history_value X2)) w)
  /\ outcome (@load_history Y) w2 = Ok (history_value X2).
Proof.
  cbn zeta. intros He1 He2. unfold after, outcome.
  destruct (dumps_encodes _ (history_value_is_text X1)
              (history_value_encodable X1 He1)) as [b1 Hb1].
  destruct (dumps_encodes _ (history_value_is_text X2)
              (history_value_encodable X2 He2)) as [b2 Hb2].
  rewrite !(run_save_history_ok (history_value X1) _ b1),
          !(run_save_history_ok (history_value X2) _ b2) by done.
  cbn [fst snd]. split.
  - unfold stored. cbn [set_fs fs]. apply insert_insert_eq.
  - rewrite (run_load_saved (history_value X2) _ b2); try done.
    + apply history_value_is_text.
    + apply history_depth_room.
    + unfold stored. cbn [set_fs fs]. apply lookup_insert_eq.
Qed.

Lemma save_history_last_wins_witness :
  outcome (@load_history unit)
    (after (@save_history unit (history_value []))
       (after (@save_history unit (history_value [essay_entry])) w_essay))
  = Ok (history_value []).
Proof.
  refine (proj2 (save_history_last_wins (Y:=unit) w_essay [essay_entry] []
                   _ _)).
  - repeat constructor; apply encodable_check; vm_compute; reflexivity.
  - constructor.
Defined.

(** ** Accepted batches *)

Lemma validate_ok_iff {Y} files w :
  outcome (@validate_image_files Y files) w = Ok tt
  <-> files ≠ [] /\ Forall (fun p => ~ offending w p) files.
Proof.
  destruct (run_validate_image_files (Y:=Y) files w) as (_ & Hnil & Hok & Hbad).
  split.
  - intros Hv. split.
    + intros ->. by rewrite Hnil in Hv.
    + destruct (decide (Forall (fun p => ~ offending w p) files)) as [|Hn]; [done|].
      apply not_Forall_Exists in Hn; [|apply _].
      assert (Exists (offending w) files) as Hex.
      { eapply Exists_impl; [exact Hn|]. intros p Hp. cbn in Hp.
        by destruct (decide (offending w p)). }
      destruct (first_offending w files Hex) as (ok & p & rest & -> & Hall & Hp).
      by rewrite (Hbad ok p rest) in Hv.
  - intros [Hne Hall]. by apply Hok.
Qed.

Lemma validated_present {Y} files w :
  outcome (@validate_image_files Y files) w = Ok tt ->
  Forall (fun p => is_Some (fs w !! p)) files.
Proof.
  intros [_ Hall]%validate_ok_iff. eapply Forall_impl; [exact Hall|].
  intros p Hp. cbn in Hp. destruct (fs w !! p) eqn:Hf; [by eexists|].
  destruct Hp. by left.
Qed.

(** X12. Validation looks at each file on its own: a batch is accepted
    exactly when it is not empty and each of its files is accepted as a
    batch of one; so the order of the files does not matter. *)
Theorem validate_image_files_independent {Y : Type} (w : world)
    (files : list pystr) :
  (outcome (@validate_image_files Y files) w = Ok tt
   <-> files ≠ []
       /\ forall p, p ∈ files -> outcome (@validate_image_files Y [p]) w = Ok tt)
  /\ forall files', files ≡ₚ files' ->
       (outcome (@validate_image_files Y files) w = Ok tt
        <-> outcome (@validate_image_files Y files') w = Ok tt).
Proof.
  split.
  - rewrite validate_ok_iff, Forall_forall. split; intros [Hne Hall].
    + split; [done|]. intros p Hp. apply validate_ok_iff. split; [done|].
      apply Forall_singleton. by apply Hall.
    + split; [done|]. intros p Hp.
      specialize (Hall p Hp). apply validate_ok_iff in Hall as [_ Hall].
      exact (Forall_inv Hall).
  - intros files' Hperm. rewrite !validate_ok_iff, !Forall_forall.
    split; intros [Hne Hall]; split.
    + intros ->. by apply Permutation_nil_r in Hperm.
    + intros p Hp. apply Hall. by rewrite Hperm.
    + intros ->. by apply Permutation_nil_l in Hperm.
    + intros p Hp. apply Hall. by rewrite <- Hperm.
Qed.

(** ** The two requests *)

Lemma run_encode_image_present {Y} p f w :
  fs w !! p = Some f ->
  run (@encode_image_to_base64 Y p) w = ([], Ok (Base64.b64encode (data f)), w).
Proof.
  intros Hf. unfold encode_image_to_base64.
  rewrite run_try_except, run_mbind. unfold read_bytes. rewrite run_mbind.
  cbn [do run perform app]. by rewrite Hf.
Qed.


Lemma run_image_loop_present {Y} paths : forall msgs w,
  Forall (fun p => is_Some (fs w !! p)) paths ->
  run (for_in paths msgs (@attach_image Y)) w
  = ([], Ok (msgs ++ (image_part w <$> paths)), w).
Proof.
  induction paths as [|p paths IH]; intros msgs w Hall; cbn [for_in].
  - by rewrite app_nil_r.
  - apply Forall_cons in Hall as [[f Hf] Hall].
    rewrite run_bind. unfold attach_image at 1.
    rewrite run_mbind, (run_encode_image_present p f) by done. cbn [run app].
    rewrite IH by done. cbn [app fmap list_fmap]. unfold image_part at 2.
    rewrite Hf. cbn [default data]. by rewrite <- app_assoc.
Qed.


Lemma run_stream_extract_text paths w :
  configured w ->
  Forall (fun p => is_Some (fs w !! p)) paths ->
  run (stream_extract_text paths) w
  = ((received (endpoint w (extraction_request w paths))).1,
     (received (endpoint w (extraction_request w paths))).2,
     sent (extraction_request w paths) w).
Proof.
  intros [k Hk] Hall. unfold stream_extract_text. rewrite run_mbind, run_config.
  cbn [app]. rewrite run_mbind, run_OpenAI, Hk. cbn [app]. rewrite run_mbind.
  change (for_in paths ?m _) with (for_in paths m (@attach_image pystr)).
  rewrite run_image_loop_present by done. cbn [app].
  rewrite run_mbind, run_create.
  match goal with |- context [endpoint w ?r] =>
    change r with (extraction_request w paths) end.
  destruct (endpoint w (extraction_request w paths)) as [e|chunks broken];
    cbn [app received fst snd]; [done|].
  by rewrite run_accumulate.
Qed.

Lemma run_rate_body content w :
  run (rate_body (Config_of (environ w)) (client_of w) content) w =
  match fs w !! prompt_path with
  | None => ([], Raise (Exn FileNotFoundError (py "评分模板文件不存在")), w)
  | Some f =>
    match utf8_decode (data f) with
    | None =>
      ([], Raise (Exn UnicodeDecodeError (py "'utf-8' codec can't decode bytes")), w)
    | Some s =>
      let req := rating_request w (universal_newlines s) content in
      ((received (endpoint w req)).1, (received (endpoint w req)).2, sent req w)
    end
  end.
Proof.
  unfold rate_body. rewrite run_mbind. cbn [do run perform app].
  destruct (fs w !! prompt_path) as [f|] eqn:Hf.
  - rewrite bool_decide_eq_false_2 by done. rewrite run_mbind. cbn [run app].
    rewrite run_mbind, run_read_text, Hf.
    destruct (utf8_decode (data f)) as [s|]; cbn [app]; [|done].
    rewrite run_mbind, run_create.
    match goal with |- context [endpoint w ?r] =>
      change r with (rating_request w (universal_newlines s) content) end.
    cbv zeta.
    destruct (endpoint w (rating_request w (universal_newlines s) content))
      as [e|chunks broken]; cbn [app received fst snd]; [done|].
    by rewrite run_accumulate.
  - rewrite bool_decide_eq_true_2 by done. by rewrite run_mbind.
Qed.

Lemma run_stream_rate_text content w :
  run (stream_rate_text content) w =
  match client_key w with
  | None => ([], Raise missing_key_error, w)
  | Some _ =>
    match run (rate_body (Config_of (environ w)) (client_of w) content) w with
    | (ys, Ok v, w1) => (ys, Ok v, w1)
    | (ys, Raise e, w1) => (ys, Raise e, logged (rating_failure_line e) w1)
    end
  end.
Proof.
  change (stream_rate_text content) with
    (cfg ← config;
     client ← OpenAI (API_BASE_URL cfg) (API_KEY cfg);
     try_except (rate_body cfg client content)
       (fun e => log_event (py "ERROR") (py "评分失败") (str_exn e);; Throw e)).
  rewrite run_mbind, run_config. cbn [app]. rewrite run_mbind, run_OpenAI.
  destruct (client_key w) as [k|]; [|done]. cbn [app].
  rewrite run_try_except.
  destruct (run (rate_body (Config_of (environ w)) (client_of w) content) w)
    as [[ys [v|e]] w1]; [done|].
  rewrite run_mbind. cbn [log_event do run perform app]. by rewrite app_nil_r.
Qed.

(** X13. With a client that could be constructed and every image of the
    batch there, [stream_extract_text] sends exactly one request: the
    instruction followed by one data URI per image, in the order of the
    batch.  It logs nothing. *)
Theorem stream_extract_text_request (w : world) (paths : list pystr) :
  configured w ->
  Forall (fun p => is_Some (fs w !! p)) paths ->
  calls (after (stream_extract_text paths) w)
  = calls w ++ [extraction_request w paths]
  /\ log (after (stream_extract_text paths) w) = log w.
Proof.
  intros Hk Hall. unfold after. by rewrite run_stream_extract_text.
Qed.

Lemma stream_extract_text_request_witness :
  calls (after (stream_extract_text [py "/tmp/a.JPG"]) w_essay)
  = calls w_essay ++ [extraction_request w_essay [py "/tmp/a.JPG"]]
  /\ log (after (stream_extract_text [py "/tmp/a.JPG"]) w_essay) = log w_essay.
Proof.
  apply (stream_extract_text_request w_essay [py "/tmp/a.JPG"]).
  - exists (py "sk-test"). vm_compute. reflexivity.
  - repeat constructor. vm_compute. by eexists.
Defined.



(** X15. With a client that could be constructed and a rubric file that
    decodes, [stream_rate_text] sends exactly one request, whose user
    message is the rubric, a newline, the fixed lead-in and the essay; with
    a rubric file that does not decode it raises [UnicodeDecodeError] and
    sends nothing. *)
Theorem stream_rate_text_request (w : world) (content : pystr) (f : file) :
  configured w ->
  fs w !! prompt_path = Some f ->
  match utf8_decode (data f) with
  | Some s =>
    calls (after (stream_rate_text content) w)
    = calls w ++ [rating_request w (universal_newlines s) content]
  | None =>
    calls (after (stream_rate_text content) w) = calls w
    /\ exists msg, outcome (stream_rate_text content) w
                   = Raise (Exn UnicodeDecodeError msg)
  end.
Proof.
  intros [k Hk] Hf. unfold after, outcome.
  rewrite run_stream_rate_text, Hk, run_rate_body, Hf.
  destruct (utf8_decode (data f)) as [s|]; [|split; [done|by eexists]].
  cbv zeta. by destruct (received _).2.
Qed.

Lemma stream_rate_text_request_witness :
  calls (after (stream_rate_text (py "I went to school.")) w_stutter)
  = calls w_stutter
    ++ [rating_request w_stutter (py "Rubric") (py "I went to school.")].
Proof.
  refine (stream_rate_text_request w_stutter (py "I went to school.") rubric
            _ _).
  - exists (py "sk-test"). vm_compute. reflexivity.
  - vm_compute. reflexivity.
Defined.

(** X16. Once its client is constructed, [stream_rate_text] logs one line
    for each failure, made of the exception it then raises again, and logs
    nothing when it succeeds; the failure of the constructor comes before
    the [try] and is not logged. *)
Theorem stream_rate_text_logs_failures (w : world) (content : pystr) :
  log (after (stream_rate_text content) w)
  = match client_key w, outcome (stream_rate_text content) w with
    | Some _, Raise e => log w ++ [rating_failure_line e]
    | _, _ => log w
    end.
Proof.
  unfold after, outcome. rewrite run_stream_rate_text.
  destruct (client_key w) as [k|]; [|done]. rewrite run_rate_body.
  destruct (fs w !! prompt_path) as [f|]; [|done].
  destruct (utf8_decode (data f)) as [s|]; [|done].
  cbv zeta. by destruct (received _).2.
Qed.

(** X17. What a streaming function returns is the last value it yielded, or
    the empty string when it yielded nothing. *)
Theorem stream_result_is_last_yield (w : world) (paths : list pystr)
    (content : pystr) (g : gen pystr pystr) (v : pystr) :
  g = stream_extract_text paths \/ g = stream_rate_text content ->
  outcome g w = Ok v ->
  v = default [] (last (yields g w)).
Proof.
  intros Hg Hv.
  destruct (streaming_functions_streamed w paths content g Hg)
    as (ys & r & w' & Hrun & _ & _ & Hcase).
  unfold outcome, yields in *. rewrite Hrun in *. cbn [fst snd] in *. subst r.
  destruct Hcase as [(_ & _ & e & He)|(req & _ & Hrep)]; [done|].
  destruct (endpoint w req) as [e|chunks broken]; [by destruct Hrep|].
  destruct Hrep as [-> Hr].
  destruct (usable chunks); [|done]. destruct broken; [done|].
  injection Hr as ->. rewrite totals_nil_cumulative.
  destruct (deltas chunks) as [|d ds] eqn:Hd; [done|].
  by rewrite cumulative_last.
Qed.

Lemma stream_result_is_last_yield_witness :
  py "Essay A" ++ 10 :: py "I went to school."
  = default [] (last (yields (stream_extract_text [py "/tmp/a.JPG"]) w_essay)).
Proof.
  apply (stream_result_is_last_yield w_essay [py "/tmp/a.JPG"] []
           (stream_extract_text [py "/tmp/a.JPG"])).
  - by left.
  - vm_compute. reflexivity.
Defined.

(** X18. Once the request went out, the reply decides the outcome: a refusal
    is raised as it is; a stream is yielded as running totals up to the
    chunk that has no choice or the point where it broke off, and then that
    failure is raised. *)
Theorem stream_outcome (w : world) (paths : list pystr) (content : pystr)
    (g : gen pystr pystr) (r : request) :
  g = stream_extract_text paths \/ g = stream_rate_text content ->
  calls (after g w) = calls w ++ [r] ->
  yields g w = (received (endpoint w r)).1
  /\ outcome g w = (received (endpoint w r)).2.
Proof.
  intros Hg Hcalls.
  destruct (streaming_functions_streamed w paths content g Hg)
    as (ys & res & w' & Hrun & _ & _ & Hcase).
  unfold outcome, yields, after in *. rewrite Hrun in *. cbn [fst snd] in *.
  destruct Hcase as [(_ & Hc & _)|(req & Hc & Hrep)].
  - rewrite Hc in Hcalls. apply (f_equal length) in Hcalls.
    rewrite length_app in Hcalls. cbn in Hcalls. lia.
  - rewrite Hc in Hcalls. apply app_inj_tail in Hcalls as [_ ->].
    destruct (endpoint w r) as [e|chunks broken]; cbn [received fst snd];
      by destruct Hrep.
Qed.

Lemma stream_outcome_witness :
  yields (stream_extract_text [py "/tmp/a.JPG"]) w_cut = [py "Essay A"]
  /\ outcome (stream_extract_text [py "/tmp/a.JPG"]) w_cut = Raise connection_error.
Proof.
  apply (stream_outcome w_cut [py "/tmp/a.JPG"] []
           (stream_extract_text [py "/tmp/a.JPG"])
           (extraction_request w_cut [py "/tmp/a.JPG"])).
  - by left.
  - vm_compute. reflexivity.
Defined.

(** X26. Without an API key, in [MODELSCOPE_API_KEY] or in
    [OPENAI_API_KEY], each streaming function raises the error of the
    client's constructor at once: it yields nothing and the world stays as
    it was, so nothing is read, sent or logged. *)
Theorem stream_without_key (w : world) (paths : list pystr) (content : pystr)
    (g : gen pystr pystr) :
  g = stream_extract_text paths \/ g = stream_rate_text content ->
  client_key w = None ->
  outcome g w = Raise missing_key_error
  /\ yields g w = []
  /\ after g w = w.
Proof.
  intros Hg Hk. unfold outcome, yields, after.
  by rewrite (run_without_key w paths content g Hg Hk).
Qed.

Lemma stream_without_key_witness :
  outcome (stream_rate_text (py "I went to school.")) w_no_key
  = Raise missing_key_error
  /\ yields (stream_rate_text (py "I went to school.")) w_no_key = []
  /\ after (stream_rate_text (py "I went to school.")) w_no_key = w_no_key.
Proof.
  apply (stream_without_key w_no_key [] (py "I went to school.")).
  - by right.
  - vm_compute. reflexivity.
Defined.

(** ** The whole run *)



(** [persist] sends nothing, and it yields either the final snapshot, as
    its only value, or nothing before it raises. *)
Lemma run_persist_shape title content full_rate history w :
  exists ys r w', run (persist title content full_rate history) w = (ys, r, w')
    /\ calls w' = calls w
    /\ ((exists tp rp h', r = Ok tt /\ ys = [done_snapshot tp rp h'])
        \/ (exists e, r = Raise e /\ ys = [])).
Proof.
  unfold persist. rewrite run_mbind, run_safe_save.
  destruct (utf8_encode content) as [b1|]; cbn [app];
    [|eexists _, _, _; split; [done|]; split; [done|right; eauto]].
  rewrite run_mbind, run_safe_save.
  destruct (utf8_encode full_rate) as [b2|]; cbn [app];
    [|eexists _, _, _; split; [done|]; split; [done|right; eauto]].
  rewrite run_mbind. cbn [do run perform app]. rewrite run_mbind.
  destruct history as [| | | | |h|];
    try (cbn [list_add run]; eexists _, _, _; split; [done|]; split; [done|right; eauto]).
  cbn [list_add run app]. rewrite run_mbind.
  match goal with |- context [run (save_history ?v) ?w0] =>
    destruct (run_save_history_quiet (Y:=snapshot) v w0)
      as (r & w' & -> & Hc & _ & _) end.
  destruct r as [[]|e]; cbn [yield run app].
  - eexists _, _, _. split; [done|]. split; [done|]. left. eauto.
  - eexists _, _, _. split; [done|]. split; [done|]. right. eauto.
Qed.

Lemma run_process files history w :
  run (process files history) w =
  match outcome (@validate_image_files snapshot files) w with
  | Raise e => ([], Raise e, w)
  | Ok _ =>
    match run (stream_extract_text files) w with
    | (ys1, Raise e, w1) =>
      (processing_snapshot files :: (extracting_snapshot <$> ys1), Raise e, w1)
    | (ys1, Ok _, w1) =>
      let tc := split_title (default [] (last ys1)) in
      match run (stream_rate_text tc.2) w1 with
      | (ys2, Raise e, w2) =>
        (processing_snapshot files :: (extracting_snapshot <$> ys1)
           ++ (grading_snapshot <$> ys2), Raise e, w2)
      | (ys2, Ok _, w2) =>
        match run (persist tc.1 tc.2 (default [] (last ys2)) history) w2 with
        | (ys3, r, w3) =>
          (processing_snapshot files :: (extracting_snapshot <$> ys1)
             ++ (grading_snapshot <$> ys2) ++ ys3, r, w3)
        end
      end
    end
  end.
Proof.
  unfold process. rewrite run_mbind, run_validate_unchanged.
  destruct (outcome (validate_image_files files) w) as [[]|e]; [|done].
  rewrite run_mbind. cbn [yield run app]. rewrite run_mbind.
  rewrite (run_for_gen _ _ _ extracting_snapshot id) by done.
  destruct (run (stream_extract_text files) w) as [[ys1 [v1|e]] w1]; [|done].
  replace (default [] (id <$> last ys1)) with (default [] (last ys1))
    by (by destruct (last ys1)).
  destruct (split_title (default [] (last ys1))) as [title content].
  cbn [fst snd]. rewrite run_mbind.
  rewrite (run_for_gen _ _ _ grading_snapshot id) by done.
  destruct (run (stream_rate_text content) w1) as [[ys2 [v2|e]] w2];
    [|cbn [app]; by rewrite app_nil_r || done].
  replace (default [] (id <$> last ys2)) with (default [] (last ys2))
    by (by destruct (last ys2)).
  fold (persist title content (default [] (last ys2)) history).
  destruct (run (persist title content (default [] (last ys2)) history) w2)
    as [[ys3 r] w3].
  by rewrite <- ?app_assoc.
Qed.

Lemma streamed_calls w g :
  streamed w g ->
  fs (after g w) = fs w
  /\ (calls (after g w) = calls w \/ exists r, calls (after g w) = calls w ++ [r]).
Proof.
  intros (ys & r & w' & Hrun & Hfs & _ & Hcase). unfold after. rewrite Hrun.
  cbn [snd]. split; [done|].
  destruct Hcase as [(_ & Hc & _)|(req & Hc & _)]; [by left|right; eauto].
Qed.

(** X19. Whatever happens, [full_process] ends normally, and the last
    snapshot it yields is the final one or reports an error. *)
Theorem full_process_always_ends (w : world) (files : list pystr)
    (history : pyval) :
  outcome (full_process files history) w = Ok tt
  /\ exists snap, last (yields (full_process files history) w) = Some snap
     /\ ((exists e, snap = error_snapshot e)
         \/ exists text_path rate_path updated,
              snap = done_snapshot text_path rate_path updated).
Proof.
  unfold outcome, yields, full_process. rewrite run_try_except, run_process.
  destruct (outcome (validate_image_files files) w) as [[]|e];
    [|cbn; split; [done|]; eexists; split; [done|left; eauto]].
  destruct (run (stream_extract_text files) w) as [[ys1 [v1|e]] w1];
    [|cbn [yield run fst snd]; split; [done|]; eexists; split;
      [apply last_snoc|left; eauto]].
  cbv zeta.
  destruct (run (stream_rate_text (split_title (default [] (last ys1))).2) w1)
    as [[ys2 [v2|e]] w2];
    [|cbn [yield run fst snd]; split; [done|]; eexists; split;
      [apply last_snoc|left; eauto]].
  destruct (run_persist_shape (split_title (default [] (last ys1))).1
              (split_title (default [] (last ys1))).2
              (default [] (last ys2)) history w2)
    as (ys3 & r & w3 & -> & _ & [(tp & rp & h' & -> & ->)|(e & -> & ->)]).
  - cbn [fst snd]. split; [done|]. eexists. split.
    + rewrite app_comm_cons, !app_assoc. apply last_snoc.
    + right. eauto.
  - cbn [yield run fst snd]. split; [done|]. eexists. split.
    + apply last_snoc.
    + left. eauto.
Qed.

(** X20. A run sends at most two requests. *)
Theorem full_process_at_most_two_requests (w : world) (files : list pystr)
    (history : pyval) :
  exists rs, calls (after (full_process files history) w) = calls w ++ rs
    /\ (length rs <= 2)%nat.
Proof.
  unfold after, full_process. rewrite run_try_except, run_process.
  destruct (outcome (validate_image_files files) w) as [[]|e];
    [|exists []; cbn [yield run snd]; split; [by rewrite app_nil_r|cbn; lia]].
  destruct (streamed_calls w _ (stream_extract_text_streamed files w))
    as [_ Hc1]. unfold after in Hc1.
  destruct (run (stream_extract_text files) w) as [[ys1 r1] w1]. cbn [snd] in Hc1.
  assert (exists rs1, calls w1 = calls w ++ rs1 /\ (length rs1 <= 1)%nat)
    as (rs1 & Hrs1 & Hl1).
  { destruct Hc1 as [->|[r ->]]; [exists []|exists [r]];
      (split; [by rewrite ?app_nil_r|cbn; lia]). }
  destruct r1 as [v1|e];
    [|exists rs1; cbn [yield run snd]; split; [done|lia]].
  cbv zeta.
  destruct (streamed_calls w1 _
    (proj1 (stream_rate_text_streamed (split_title (default [] (last ys1))).2 w1)))
    as [_ Hc2]. unfold after in Hc2.
  destruct (run (stream_rate_text (split_title (default [] (last ys1))).2) w1) as [[ys2 r2] w2]. cbn [snd] in Hc2.
  assert (exists rs2, calls w2 = calls w ++ rs2 /\ (length rs2 <= 2)%nat)
    as (rs2 & Hrs2 & Hl2).
  { destruct Hc2 as [->|[r ->]]; [exists rs1; split; [done|lia]|].
    exists (rs1 ++ [r]). rewrite Hrs1, <- app_assoc, length_app. cbn. split; [done|lia]. }
  destruct r2 as [v2|e];
    [|exists rs2; cbn [yield run snd]; split; [done|lia]].
  destruct (run_persist_shape (split_title (default [] (last ys1))).1
              (split_title (default [] (last ys1))).2
              (default [] (last ys2)) history w2)
    as (ys3 & r & w3 & -> & Hc3 & _).
  exists rs2. destruct r; cbn [yield run snd]; rewrite Hc3; split; (done || lia).
Qed.

(** ** The whole run, case by case *)

(** X21. When validation passes and the client can be constructed, the
    first snapshot shows the uploaded files and the first request of the
    run is the extraction request for the whole batch; at most one more
    request follows. *)
Theorem full_process_reaches_extraction (w : world) (files : list pystr)
    (history : pyval) :
  configured w ->
  outcome (@validate_image_files snapshot files) w = Ok tt ->
  head (yields (full_process files history) w) = Some (processing_snapshot files)
  /\ exists rest,
       calls (after (full_process files history) w)
       = calls w ++ extraction_request w files :: rest
       /\ (length rest <= 1)%nat.
Proof.
  intros Hk Hv. pose proof (validated_present _ _ Hv) as Hall.
  unfold yields, after, full_process. rewrite run_try_except, run_process, Hv.
  rewrite run_stream_extract_text by done.
  set (req := extraction_request w files).
  destruct (received (endpoint w req)) as [ys1 [v1|e]]; cbn [fst snd].
  2:{ cbn [yield run fst snd]. split; [done|].
      exists []. split; [done|]. cbn. lia. }
  cbv zeta.
  destruct (streamed_calls (sent req w) _
    (proj1 (stream_rate_text_streamed (split_title (default [] (last ys1))).2
              (sent req w)))) as [_ Hc2]. unfold after in Hc2.
  destruct (run (stream_rate_text (split_title (default [] (last ys1))).2)
              (sent req w)) as [[ys2 r2] w2]. cbn [snd] in Hc2.
  assert (exists rest, calls w2 = calls w ++ req :: rest /\ (length rest <= 1)%nat)
    as (rest & Hrest & Hlen).
  { destruct Hc2 as [->|[r ->]]; [exists []|exists [r]];
      (split; [unfold sent; cbn [perform snd calls]; by rewrite <- ?app_assoc
              |cbn; lia]). }
  destruct r2 as [v2|e].
  2:{ cbn [yield run fst snd]. split; [done|]. by exists rest. }
  destruct (run_persist_shape (split_title (default [] (last ys1))).1
              (split_title (default [] (last ys1))).2
              (default [] (last ys2)) history w2)
    as (ys3 & r & w3 & -> & Hc3 & _).
  destruct r; cbn [yield run fst snd]; (split; [done|]);
    exists rest; by rewrite Hc3.
Qed.

Lemma full_process_reaches_extraction_witness :
  head (yields (full_process [py "/tmp/a.JPG"] (PList [])) w_refusing)
  = Some (processing_snapshot [py "/tmp/a.JPG"]).
Proof.
  refine (proj1 (full_process_reaches_extraction w_refusing [py "/tmp/a.JPG"]
                   (PList []) _ _)).
  - exists (py "sk-test"). vm_compute. reflexivity.
  - vm_compute. reflexivity.
Defined.

(** X22. When extraction fails, the run stops there: the snapshots are the
    first one, one per value extracted so far and the error; nothing else
    happens to the world, so no grading request is sent and no file is
    written. *)
Theorem full_process_extraction_fails (w : world) (files : list pystr)
    (history : pyval) (e : exn) :
  let extraction := stream_extract_text files in
  outcome (@validate_image_files snapshot files) w = Ok tt ->
  outcome extraction w = Raise e ->
  yields (full_process files history) w
  = processing_snapshot files
    :: (extracting_snapshot <$> yields extraction w) ++ [error_snapshot e]
  /\ outcome (full_process files history) w = Ok tt
  /\ after (full_process files history) w = after extraction w
  /\ fs (after (full_process files history) w) = fs w.
Proof.
  cbn zeta. intros Hv He.
  pose proof (streamed_fs w _ (stream_extract_text_streamed files w)) as Hfs.
  unfold yields, outcome, after, full_process in He, Hfs |- *.
  rewrite run_try_except, run_process, Hv.
  destruct (run (stream_extract_text files) w) as [[ys1 r1] w1].
  cbn [fst snd] in *. subst r1. by cbn [yield run fst snd].
Qed.

Lemma full_process_extraction_fails_witness :
  yields (full_process [py "/tmp/a.JPG"] (PList [])) w_cut
  = processing_snapshot [py "/tmp/a.JPG"]
    :: (extracting_snapshot
          <$> yields (stream_extract_text [py "/tmp/a.JPG"]) w_cut)
       ++ [error_snapshot connection_error].
Proof.
  refine (proj1 (full_process_extraction_fails w_cut [py "/tmp/a.JPG"]
                   (PList []) connection_error _ _));
    vm_compute; reflexivity.
Defined.

(** X27. Without an API key a run whose batch is accepted shows the
    uploaded files and then the error of the client's constructor, and
    leaves the world as it was: no request, no file, no log line. *)
Theorem full_process_without_key (w : world) (files : list pystr)
    (history : pyval) :
  client_key w = None ->
  outcome (@validate_image_files snapshot files) w = Ok tt ->
  yields (full_process files history) w
  = [processing_snapshot files; error_snapshot missing_key_error]
  /\ outcome (full_process files history) w = Ok tt
  /\ after (full_process files history) w = w.
Proof.
  intros Hk Hv. unfold yields, outcome, after, full_process.
  rewrite run_try_except, run_process, Hv.
  by rewrite (run_without_key w files [] (stream_extract_text files))
    by (done || by left).
Qed.

Lemma full_process_without_key_witness :
  yields (full_process [py "/tmp/a.JPG"] (PList [])) w_no_key
  = [processing_snapshot [py "/tmp/a.JPG"]; error_snapshot missing_key_error]
  /\ outcome (full_process [py "/tmp/a.JPG"] (PList [])) w_no_key = Ok tt
  /\ after (full_process [py "/tmp/a.JPG"] (PList [])) w_no_key = w_no_key.
Proof.
  apply (full_process_without_key w_no_key [py "/tmp/a.JPG"] (PList []));
    vm_compute; reflexivity.
Defined.













Lemma validate_image_files_independent_witness :
  [py "/tmp/a.JPG"; py "/tmp/a.JPG"] ≠ []
  /\ forall p, p ∈ [py "/tmp/a.JPG"; py "/tmp/a.JPG"] ->
       outcome (@validate_image_files unit [p]) w_essay = Ok tt.
Proof.
  apply (proj1 (proj1 (validate_image_files_independent (Y:=unit) w_essay
                         [py "/tmp/a.JPG"; py "/tmp/a.JPG"]))).
  vm_compute. reflexivity.
Defined.
